(** * Quota-guarded text generation: [llm_text_gen]

    A shallow embedding of
    [backend/services/llm_providers/main_text_generation.py]: provider
    selection, the pre-flight subscription check, the provider call with its
    single fallback, and the usage accounting that follows a successful call.

    The Python function threads a database session, raises and catches
    exceptions, and calls out to vendors; the embedding is a state-and-error
    monad over a [World] holding the committed usage rows, the open session
    and a trace of the outward calls.  Everything the function obtains from
    its surroundings (environment variables, stored API keys, vendor replies,
    plan limits, prices, and which database operation raises) is a field of
    [Env].

    The helpers beside the dispatcher are in the module [Keys], and the
    OpenRouter provider that the dispatcher calls,
    [backend/services/llm_providers/openrouter_provider.py], is in the
    module [OpenRouter]: the key and the client, the two response
    functions with their [@retry] decorator, the cleaning of a fenced JSON
    answer and the model listing, over the requests sent so far as state.

    The pre-flight check and the request are given a second time, in the
    section [Raising], with the exception that each operation of the check
    raises left open. *)

From Stdlib Require Import ZArith QArith String Ascii List Bool Lia.
From stdpp Require Import gmap strings list fin_maps.

Local Open Scope Z_scope.

(** ** Token estimation *)

Module Tokens.

(** Characters on which [str.split()] (no argument) separates words:
    tab, line feed, vertical tab, form feed, carriage return, the four
    separators 0x1c-0x1f, and the space.  Texts are taken as ASCII:
    Python separates on the Unicode spaces beyond it as well (U+0085,
    U+00A0, U+3000 and the like), which do not occur here. *)
Definition isspace (c : ascii) : bool :=
  let n := nat_of_ascii c in
  ((9 <=? n)%nat && (n <=? 13)%nat) || ((28 <=? n)%nat && (n <=? 32)%nat).

(** [len(text.split())]: the number of maximal runs of non-space
    characters.  [in_word] tells whether the previous character belonged
    to a word. *)
Fixpoint split_len_from (in_word : bool) (text : string) : Z :=
  match text with
  | EmptyString => 0
  | String c rest =>
      if isspace c then split_len_from false rest
      else (if in_word then 0 else 1) + split_len_from true rest
  end.

Definition split_len (text : string) : Z := split_len_from false text.

(** [int(len(text.split()) * 1.3)].  The double nearest to 1.3 lies
    4.5e-17 above it, and the fractional part of [13 * n / 10] is a
    multiple of one tenth, so for every word count a text can have the
    truncated product is the integer quotient of [13 * n] by [10]. *)
Definition estimate_tokens (text : string) : Z := (split_len text * 13) / 10.

(** [int(input_tokens * 1.5)]; the product by 1.5 is exact. *)
Definition one_and_a_half (input_tokens : Z) : Z := (input_tokens * 3) / 2.

(** Lines 150-158: the total submitted to the limit check. *)
Definition estimated_total_tokens (max_tokens : Z) (prompt : string) : Z :=
  let input_tokens := estimate_tokens prompt in
  let estimated_output_tokens :=
    if max_tokens =? 0 then one_and_a_half input_tokens else max_tokens in
  input_tokens + estimated_output_tokens.

(** Line 44: [max_tokens = 4000], never reassigned. *)
Definition max_tokens : Z := 4000.

(** A prompt of [n] copies of a word, to build inputs of a given size. *)
Fixpoint words (n : nat) : string :=
  match n with
  | O => EmptyString
  | S k => String "w" (String " " (words k))
  end.

End Tokens.

(** ** Providers *)

(** The three values [gpt_provider] takes. *)
Inductive GptProvider := google | huggingface | openrouter.

Global Instance GptProvider_eq_dec : EqDecision GptProvider.
Proof. solve_decision. Defined.

(** The members of [models.subscription_models.APIProvider] that the
    function names (lines 340, 408, 436), with their [.value]. *)
Inductive APIProvider := GEMINI | OPENAI | ANTHROPIC | MISTRAL | OPENROUTER.

Global Instance APIProvider_eq_dec : EqDecision APIProvider.
Proof. solve_decision. Defined.

Definition value (e : APIProvider) : string :=
  match e with
  | GEMINI => "gemini"
  | OPENAI => "openai"
  | ANTHROPIC => "anthropic"
  | MISTRAL => "mistral"
  | OPENROUTER => "openrouter"
  end.

(** Lines 119-127 and 642-653: the enum member under which a provider's
    usage is tracked, and the name used in logs and error payloads. *)
Definition provider_enum (p : GptProvider) : APIProvider :=
  match p with
  | google => GEMINI
  | huggingface => MISTRAL
  | openrouter => OPENROUTER
  end.

Definition actual_provider_name (p : GptProvider) : string :=
  match p with
  | google => "gemini"
  | huggingface => "huggingface"
  | openrouter => "openrouter"
  end.

(** ** Exceptions and results *)

Record ErrorDetail := {
  error : string;
  message : string;
  provider : string;
  usage_info : gmap string Z
}.

Inductive Exception :=
| RuntimeError (msg : string)
| HTTPException (status_code : Z) (detail : ErrorDetail)
| OtherException (msg : string).

Inductive result (A : Type) :=
| Ok (a : A)
| Raise (e : Exception).
Arguments Ok {A} a.
Arguments Raise {A} e.

(** What a vendor call hands back: text, or (for a schema request) a parsed
    object, of which only the truth value and the [str()] rendering are
    used. *)
Inductive Response :=
| Text (s : string)
| Parsed (nonempty : bool) (rendering : string).

Definition truthy (r : Response) : bool :=
  match r with
  | Text s => negb (String.eqb s "")
  | Parsed b _ => b
  end.

Definition str (r : Response) : string :=
  match r with
  | Text s => s
  | Parsed _ s => s
  end.

Inductive BackendResult :=
| Returned (r : Response)
| Failed (msg : string).

(** ** The environment of one request *)

(** The operations that may raise: those of the pre-flight check, then
    those of the accounting block. *)
Inductive Op :=
| OpPreGetDb | OpCheckLimits | OpPrePeriod | OpPreQuery | OpPreClose
| OpGetDb | OpPeriod | OpLimits | OpCount | OpSelect | OpRefresh | OpQuery
| OpFlushNew | OpUpdateCalls | OpUpdateTokens | OpUpdateCosts
| OpUpdateTotals | OpLimitsLog | OpCommit | OpVerify | OpPrint
| OpRollback | OpClose.

Record Env := {
  (** [os.getenv('GPT_PROVIDER', '')] *)
  GPT_PROVIDER : string;
  (** [os.getenv('OPENROUTER_MODEL')] *)
  OPENROUTER_MODEL : option string;
  (** truth value of [APIKeyManager().get_api_key(name)] *)
  get_api_key : string -> bool;
  (** the vendor call: provider, model, schema request, prompt, system
      prompt *)
  backend : GptProvider -> string -> bool -> string -> string -> BackendResult;
  (** [pricing.get_current_billing_period(user_id) or
      datetime.now().strftime("%Y-%m")] *)
  current_billing_period : string -> string;
  (** [pricing.get_user_limits(user_id)]: the ['limits'] dictionary, or
      [None] when there is none; a plan that is truthy and has no
      ['limits'] entry, on which the log lines 537 and 873 raise, is not
      represented *)
  get_user_limits : string -> option (gmap string Z);
  (** [pricing.calculate_api_cost(...)]['cost_total'], [None] when it
      raises *)
  calculate_api_cost : APIProvider -> string -> Z -> Z -> option Q;
  (** whether an operation raises *)
  fault : Op -> bool
}.

(** ** Stored usage and the world *)

(** A row of [usage_summaries]: integer columns ([gemini_calls],
    [mistral_tokens], [total_calls], ...) and money columns
    ([gemini_cost], [total_cost], ...), by column name.  A column that is
    absent is NULL; every read in the source turns NULL into 0.  Money is
    an exact rational here; the code adds Python floats, whose sums are
    rounded. *)
Record UsageSummary := {
  counters : gmap string Z;
  costs : gmap string Q
}.

(** Rows are keyed by [(user_id, billing_period)]. *)
Abbreviation Table := (gmap (string * string) UsageSummary).

Definition new_summary : UsageSummary := {| counters := ∅; costs := ∅ |}.

Definition counter (r : UsageSummary) (column : string) : Z :=
  default 0 (counters r !! column).

Definition cost (r : UsageSummary) (column : string) : Q :=
  default 0%Q (costs r !! column).

Definition set_counter (column : string) (v : Z) (r : UsageSummary) : UsageSummary :=
  {| counters := <[column := v]> (counters r); costs := costs r |}.

Definition add_cost (column : string) (c : Q) (r : UsageSummary) : UsageSummary :=
  {| counters := counters r; costs := <[column := Qplus (cost r column) c]> (costs r) |}.

(** What leaves the process: a session obtained from [get_db()], a limit
    check, a vendor call. *)
Inductive Event :=
| EvGetDb
| EvCheckLimits (user_id : string) (e : APIProvider) (tokens_requested : Z)
| EvGenerate (p : GptProvider) (model : string) (structured : bool).

(** [db] holds the committed rows; [session] is the view of the open
    transaction, if any; [trace] lists the events, latest first.

    One request runs at a time: the rows do not change between the read and
    the write of an accounting.  Raw statements and attribute assignments
    of a session take effect on its view in program order, and the commit
    publishes that view. *)
Record World := {
  db : Table;
  session : option Table;
  trace : list Event
}.

(** ** The monad *)

Definition M (A : Type) : Type := World -> result A * World.

Definition ret {A} (a : A) : M A := fun w => (Ok a, w).

Definition raise {A} (e : Exception) : M A := fun w => (Raise e, w).

Definition bind {A B} (m : M A) (k : A -> M B) : M B :=
  fun w =>
    match m w with
    | (Ok a, w') => k a w'
    | (Raise e, w') => (Raise e, w')
    end.

Notation "x <- c1 ;; c2" := (bind c1 (fun x => c2))
  (at level 100, c1 at next level, right associativity).
Notation "c1 ;; c2" := (bind c1 (fun _ => c2))
  (at level 100, right associativity).

(** [try: m except Exception as e: handler(e)] *)
Definition try_except {A} (m : M A) (handler : Exception -> M A) : M A :=
  fun w =>
    match m w with
    | (Ok a, w') => (Ok a, w')
    | (Raise e, w') => handler e w'
    end.

(** [try: m finally: f]; an exception raised by [f] replaces the outcome
    of [m]. *)
Definition try_finally {A} (m : M A) (f : M unit) : M A :=
  fun w =>
    match m w with
    | (r, w') =>
        match f w' with
        | (Ok _, w'') => (r, w'')
        | (Raise e, w'') => (Raise e, w'')
        end
    end.

Definition lift {A} (r : result A) : M A := fun w => (r, w).

Definition emit (ev : Event) : M unit :=
  fun w => (Ok tt, {| db := db w; session := session w; trace := ev :: trace w |}).

Section Operations.

Variable E : Env.

(** An operation that raises when the environment says so: an exception
    that is neither an [HTTPException] nor a [RuntimeError].  Only the
    handlers of the pre-flight check tell these apart;
    [subscription_check_raising] has the check with the exception left
    open. *)
Definition guard (op : Op) : M unit :=
  if fault E op then raise (OtherException "operation failed") else ret tt.

(** [next(get_db())]: a fresh session, which sees the committed rows. *)
Definition get_db (op : Op) : M unit :=
  guard op ;;
  emit EvGetDb ;;
  fun w => (Ok tt, {| db := db w; session := Some (db w); trace := trace w |}).

Definition close (op : Op) : M unit :=
  guard op ;;
  fun w => (Ok tt, {| db := db w; session := None; trace := trace w |}).

Definition rollback : M unit :=
  guard OpRollback ;;
  fun w => (Ok tt, {| db := db w; session := Some (db w); trace := trace w |}).

(** [flush(); commit()]: the rows of the transaction become the committed
    rows. *)
Definition commit : M unit :=
  guard OpCommit ;;
  fun w => (Ok tt, {| db := default (db w) (session w);
                      session := session w; trace := trace w |}).

(** The row of the key as the open transaction sees it. *)
Definition read_row (key : string * string) : M (option UsageSummary) :=
  fun w => (Ok (session w ≫= (.!! key)), w).

(** A statement or attribute write on the row of the key; like an UPDATE
    whose WHERE clause matches nothing, it leaves a missing row missing. *)
Definition modify_row (key : string * string) (f : UsageSummary -> UsageSummary) : M unit :=
  fun w => (Ok tt, {| db := db w; session := alter f key <$> session w;
                      trace := trace w |}).

(** [db.add(summary); db.flush()] *)
Definition add_row (key : string * string) : M unit :=
  guard OpFlushNew ;;
  fun w => (Ok tt, {| db := db w; session := <[key := new_summary]> <$> session w;
                      trace := trace w |}).

(** [SELECT COUNT( * ) ... WHERE user_id = .. AND billing_period = ..] *)
Definition count_rows (key : string * string) : M Z :=
  guard OpCount ;;
  row <- read_row key ;;
  ret (if row is Some _ then 1 else 0).

(** [SELECT {provider_name}_calls, {provider_name}_tokens ... LIMIT 1],
    with NULL read as 0. *)
Definition select_counters (key : string * string) (provider_name : string)
  : M (option (Z * Z)) :=
  guard OpSelect ;;
  row <- read_row key ;;
  ret ((fun r => (counter r (provider_name +:+ "_calls"),
                  counter r (provider_name +:+ "_tokens"))) <$> row).

(** The ORM read used when the raw statement fails: query, refresh,
    [getattr(..., 0) or 0]. *)
Definition orm_counters (key : string * string) (provider_name : string)
  : M (Z * Z) :=
  guard OpRefresh ;;
  row <- read_row key ;;
  ret (match row with
       | Some r => (counter r (provider_name +:+ "_calls"),
                    counter r (provider_name +:+ "_tokens"))
       | None => (0, 0)
       end).

(** [db.query(UsageSummary).filter(...).first()] *)
Definition query_summary (key : string * string) : M (option UsageSummary) :=
  guard OpQuery ;;
  read_row key.

End Operations.

(** ** Provider selection (lines 40-112) *)

Definition lower_ascii (c : ascii) : ascii :=
  let n := nat_of_ascii c in
  if ((65 <=? n)%nat && (n <=? 90)%nat) then ascii_of_nat (n + 32) else c.

Fixpoint lower (s : string) : string :=
  match s with
  | EmptyString => EmptyString
  | String c rest => String (lower_ascii c) (lower rest)
  end.

(** [x in [...]] on strings and on providers. *)
Definition str_in (x : string) (l : list string) : bool := existsb (String.eqb x) l.

Definition member (p : GptProvider) (l : list GptProvider) : bool :=
  bool_decide (p ∈ l).

Section Selection.

Variable E : Env.

Definition openrouter_model : string :=
  default "openai/gpt-4-turbo" (OPENROUTER_MODEL E).

(** The model set next to each assignment of [gpt_provider]. *)
Definition default_model (p : GptProvider) : string :=
  match p with
  | google => "gemini-2.0-flash-001"
  | huggingface => "openai/gpt-oss-120b:groq"
  | openrouter => openrouter_model
  end.

(** Lines 72-79. *)
Definition available_providers : list GptProvider :=
  (if get_api_key E "gemini" then [google] else []) ++
  (if get_api_key E "hf_token" then [huggingface] else []) ++
  (if get_api_key E "openrouter" then [openrouter] else []).

(** The chain [google], [openrouter], [huggingface] of lines 84-92 and
    100-108. *)
Definition first_available : option GptProvider :=
  if member google available_providers then Some google
  else if member openrouter available_providers then Some openrouter
  else if member huggingface available_providers then Some huggingface
  else None.

Definition select_provider : result (GptProvider * string) :=
  let env_provider := lower (GPT_PROVIDER E) in
  let gpt_provider :=
    if str_in env_provider ["gemini"; "google"] then google
    else if str_in env_provider ["hf_response_api"; "huggingface"; "hf"] then huggingface
    else if str_in env_provider ["openrouter"; "or"] then openrouter
    else google in
  if String.eqb env_provider "" then
    match first_available with
    | Some p => Ok (p, default_model p)
    | None =>
        Raise (RuntimeError "No LLM API keys configured. Configure GEMINI_API_KEY, OPENROUTER_API_KEY, or HF_TOKEN to enable AI responses.")
    end
  else if member gpt_provider available_providers then
    Ok (gpt_provider, default_model gpt_provider)
  else
    match first_available with
    | Some p => Ok (p, default_model p)
    | None => Raise (RuntimeError "No supported providers available.")
    end.

(** Lines 632-653: the candidates after [failed] has raised, and the model
    used with each. *)
Definition fallback_providers (failed : GptProvider) : list GptProvider :=
  filter (fun p => member p available_providers && negb (bool_decide (p = failed)) = true)
         [google; openrouter; huggingface].

Definition fallback_model (p : GptProvider) : string :=
  match p with
  | google => "gemini-2.0-flash-lite"
  | openrouter => openrouter_model
  | huggingface => "openai/gpt-oss-120b:groq"
  end.

End Selection.

(** ** Usage accounting after a successful call (lines 290-627, 714-921) *)

(** The source has the accounting twice, after the first call and after
    the fallback call; the two copies differ where [Path] is inspected. *)
Inductive Path := primary | fallback.

(** The providers whose token column is written: line 436 on the primary
    path, line 805 on the fallback path. *)
Definition token_tracked (path : Path) (e : APIProvider) : bool :=
  match path with
  | primary => bool_decide (e ∈ [GEMINI; OPENAI; ANTHROPIC; MISTRAL])
  | fallback => bool_decide (e ∈ [GEMINI; OPENAI; ANTHROPIC; MISTRAL; OPENROUTER])
  end.

(** Lines 441-457 and 810-826: the value to store and the adjusted
    [tokens_total]. *)
Definition cap_tokens (token_limit current_tokens_before tokens_total : Z) : Z * Z :=
  let projected_new_tokens := current_tokens_before + tokens_total in
  if (0 <? token_limit) && (token_limit <? projected_new_tokens) then
    let capped := token_limit - current_tokens_before in
    (token_limit, if capped <? 0 then 0 else capped)
  else (projected_new_tokens, tokens_total).

(** Lines 316-318: [limits['limits'].get(f"{provider_name}_tokens", 0) or 0]. *)
Definition token_limit_of (limits : option (gmap string Z)) (provider_name : string) : Z :=
  match limits with
  | Some l => default 0 (l !! (provider_name +:+ "_tokens"))
  | None => 0
  end.

(** The ceiling on calls, read from the same dictionary. *)
Definition call_limit_of (limits : option (gmap string Z)) (provider_name : string) : Z :=
  match limits with
  | Some l => default 0 (l !! (provider_name +:+ "_calls"))
  | None => 0
  end.

Definition valid_providers : list string :=
  ["gemini"; "openai"; "anthropic"; "mistral"; "openrouter"].

Section Accounting.

Variable E : Env.

Definition checked_select (key : string * string) (provider_name : string)
  : M (option (Z * Z)) :=
  if str_in provider_name valid_providers then select_counters E key provider_name
  else raise (OtherException "Invalid provider_name for SQL query").

(** Lines 320-385 and 740-773: the counters before the call, read by a raw
    statement, with the ORM as second resort. *)
Definition read_current (path : Path) (key : string * string) (provider_name : string)
  : M (Z * Z) :=
  match path with
  | primary =>
      record_count <- try_except (count_rows E key) (fun _ => ret 0) ;;
      if 0 <? record_count then
        try_except
          (found <- checked_select key provider_name ;;
           match found with
           | Some before => ret before
           | None => orm_counters E key provider_name
           end)
          (fun _ => orm_counters E key provider_name)
      else ret (0, 0)
  | fallback =>
      try_except
        (found <- checked_select key provider_name ;;
         ret (default (0, 0) found))
        (fun _ => orm_counters E key provider_name)
  end.

(** Lines 387-410 and 775-794: the row is created when missing, otherwise
    the object is given the values just read. *)
Definition get_or_create_summary (key : string * string) (provider_name : string)
    (e : APIProvider) (current_calls_before current_tokens_before : Z) : M unit :=
  summary <- query_summary E key ;;
  match summary with
  | None => add_row E key
  | Some _ =>
      modify_row key (set_counter (provider_name +:+ "_calls") current_calls_before) ;;
      if bool_decide (e ∈ [GEMINI; OPENAI; ANTHROPIC; MISTRAL; OPENROUTER]) then
        modify_row key (set_counter (provider_name +:+ "_tokens") current_tokens_before)
      else ret tt
  end.

(** A write: an UPDATE statement on the primary path, which may raise, an
    attribute assignment on the fallback path. *)
Definition store (path : Path) (op : Op) (key : string * string)
    (f : UsageSummary -> UsageSummary) : M unit :=
  match path with
  | primary => guard E op ;; modify_row key f
  | fallback => modify_row key f
  end.

(** Lines 414-473 and 799-831; returns [tokens_total] as adjusted. *)
Definition update_counters (path : Path) (key : string * string) (provider_name : string)
    (e : APIProvider) (token_limit current_calls_before current_tokens_before tokens_total : Z)
  : M Z :=
  let new_calls := current_calls_before + 1 in
  store path OpUpdateCalls key (set_counter (provider_name +:+ "_calls") new_calls) ;;
  if token_tracked path e then
    let capped := cap_tokens token_limit current_tokens_before tokens_total in
    store path OpUpdateTokens key (set_counter (provider_name +:+ "_tokens") capped.1) ;;
    ret capped.2
  else ret tokens_total.

(** Lines 475-512 and 833-864. *)
Definition persist_cost (key : string * string) (provider_name : string)
    (e : APIProvider) (model : string) (tokens_input tokens_total : Z) : M unit :=
  let tracked_tokens_input := Z.min tokens_input tokens_total in
  let tracked_tokens_output := Z.max (tokens_total - tracked_tokens_input) 0 in
  let cost_total :=
    default 0%Q (calculate_api_cost E e model tracked_tokens_input tracked_tokens_output) in
  if negb (Qle_bool cost_total 0) then
    guard E OpUpdateCosts ;;
    modify_row key (fun r => add_cost "total_cost" cost_total
                               (add_cost (provider_name +:+ "_cost") cost_total r))
  else ret tt.

(** Lines 514-531 and 866-868. *)
Definition update_totals (path : Path) (key : string * string) (tokens_total : Z) : M unit :=
  row <- read_row key ;;
  let summary := default new_summary row in
  let new_total_calls := counter summary "total_calls" + 1 in
  let new_total_tokens := counter summary "total_tokens" + tokens_total in
  store path OpUpdateTotals key
        (fun r => set_counter "total_tokens" new_total_tokens
                    (set_counter "total_calls" new_total_calls r)).

(** Lines 533-617 and 870-914: the limits are read again for the log on
    the primary path, the transaction is committed, the primary path reads
    the row back (any error there is caught on the spot), and the summary
    is printed. *)
Definition commit_and_report (path : Path) : M unit :=
  (match path with primary => guard E OpLimitsLog | fallback => ret tt end) ;;
  commit E ;;
  (match path with
   | primary => try_except (guard E OpVerify) (fun _ => ret tt)
   | fallback => ret tt
   end) ;;
  guard E OpPrint.

Definition track_usage (path : Path) (user_id prompt : string) (response_text : Response)
    (e : APIProvider) (model : string) : M unit :=
  let tokens_input := Tokens.estimate_tokens prompt in
  let tokens_output := Tokens.estimate_tokens (str response_text) in
  let tokens_total := tokens_input + tokens_output in
  guard E OpPeriod ;;
  let key := (user_id, current_billing_period E user_id) in
  let provider_name := value e in
  guard E OpLimits ;;
  let token_limit := token_limit_of (get_user_limits E user_id) provider_name in
  before <- read_current path key provider_name ;;
  get_or_create_summary key provider_name e before.1 before.2 ;;
  tracked_total <- update_counters path key provider_name e token_limit
                                   before.1 before.2 tokens_total ;;
  persist_cost key provider_name e model tokens_input tracked_total ;;
  update_totals path key tracked_total ;;
  commit_and_report path.

(** The two nested [try] blocks around the accounting (lines 293-625 and
    717-921): an error inside rolls the session back, the session is
    closed, and whatever is raised on the way is logged and dropped. *)
Definition usage_tracking (path : Path) (user_id prompt : string) (response_text : Response)
    (e : APIProvider) (model : string) : M unit :=
  try_except
    (get_db E OpGetDb ;;
     try_finally
       (try_except (track_usage path user_id prompt response_text e model)
                   (fun _ => rollback E))
       (close E OpClose))
    (fun _ => ret tt).

End Accounting.

(** ** The pre-flight subscription check (lines 132-199) *)

Section Dispatch.

Variable E : Env.

(** Modelled from the spec: [PricingService.check_usage_limits] is called
    at line 161 and defined outside the files at hand.  Section 4.2 of the
    specification: the latest committed counters of the user's period are
    read; if the requested total would exceed the token ceiling (a ceiling
    of 0 means unlimited) or the next call would exceed the call ceiling,
    the request is denied with a message and the current usage and ceiling;
    otherwise it is admitted. *)
Definition check_usage_limits (user_id : string) (e : APIProvider)
    (tokens_requested : Z) (actual_provider_name : string)
  : M (bool * string * gmap string Z) :=
  guard E OpCheckLimits ;;
  emit (EvCheckLimits user_id e tokens_requested) ;;
  row <- read_row (user_id, current_billing_period E user_id) ;;
  let usage := default new_summary row in
  let call_limit := call_limit_of (get_user_limits E user_id) (value e) in
  let token_limit := token_limit_of (get_user_limits E user_id) (value e) in
  let current_calls := counter usage (value e +:+ "_calls") in
  let current_tokens := counter usage (value e +:+ "_tokens") in
  if (0 <? call_limit) && (call_limit <? current_calls + 1) then
    ret (false, actual_provider_name +:+ " call limit reached",
         {[ "current_calls" := current_calls; "call_limit" := call_limit ]})
  else if (0 <? token_limit) && (token_limit <? current_tokens + tokens_requested) then
    ret (false, actual_provider_name +:+ " token limit would be exceeded",
         {[ "current_tokens" := current_tokens; "token_limit" := token_limit;
            "tokens_requested" := tokens_requested ]})
  else ret (true, "", ∅).

Definition subscription_check (user_id prompt : string) (p : GptProvider) : M unit :=
  try_except
    (get_db E OpPreGetDb ;;
     try_finally
       (let estimated_total_tokens :=
          Tokens.estimated_total_tokens Tokens.max_tokens prompt in
        verdict <- check_usage_limits user_id (provider_enum p) estimated_total_tokens
                                      (actual_provider_name p) ;;
        let '(can_proceed, msg, info) := verdict in
        if negb can_proceed then
          raise (HTTPException 429
                   {| error := msg;
                      message := msg;
                      provider := if String.eqb (actual_provider_name p) ""
                                  then value (provider_enum p)
                                  else actual_provider_name p;
                      usage_info := info |})
        else
          guard E OpPrePeriod ;;
          guard E OpPreQuery)
       (close E OpPreClose))
    (fun exc =>
       match exc with
       | HTTPException _ _ => raise exc
       | RuntimeError _ => raise exc
       | OtherException msg => raise (RuntimeError ("Subscription check failed: " +:+ msg))
       end).

(** ** The vendor call and the dispatcher *)

Definition generate (p : GptProvider) (model : string) (json_struct : bool)
    (prompt system_instructions : string) : M Response :=
  emit (EvGenerate p model json_struct) ;;
  match backend E p model json_struct prompt system_instructions with
  | Returned r => ret r
  | Failed msg => raise (OtherException msg)
  end.

(** Lines 203-220. *)
Definition default_system_instructions : string :=
  "You are a highly skilled content writer with a knack for creating engaging and informative content. 
                Your expertise spans various writing styles and formats.

                Writing Style Guidelines:
                - Tone: Professional
                - Target Audience: Professional
                - Content Type: Informational
                - Language: English
                - Output Format: markdown
                - Target Length: 2000 words

                Please provide responses that are:
                - Well-structured and easy to read
                - Engaging and informative
                - Tailored to the specified tone and audience
                - Professional yet accessible
                - Optimized for the target content type
            ".

(** A call followed, when the reply is truthy, by its accounting
    (lines 228-627 for the first call, 655-923 for the fallback). *)
Definition attempt (path : Path) (p : GptProvider) (model : string) (json_struct : bool)
    (user_id prompt system_instructions : string) : M Response :=
  response_text <- generate p model json_struct prompt system_instructions ;;
  (if truthy response_text then
     usage_tracking E path user_id prompt response_text (provider_enum p) model
   else ret tt) ;;
  ret response_text.

Definition all_failed : Exception :=
  RuntimeError "All LLM providers failed to generate a response.".

Definition user_id_required : Exception :=
  RuntimeError "user_id is required for subscription checking. Please provide Clerk user ID.".

(** Lines 20-933.  [json_struct] is the truth value of the schema argument.
    Each of the three providers has an enum member, so the test of line 129
    never fires; an empty or missing [user_id] is the one of line 133.  The
    outermost handler (line 931) logs and raises again what it caught. *)
Definition llm_text_gen (prompt : string) (system_prompt : option string)
    (json_struct : bool) (user_id : option string) : M Response :=
  selected <- lift (select_provider E) ;;
  let gpt_provider := selected.1 in
  let model := selected.2 in
  match user_id with
  | None | Some "" => raise user_id_required
  | Some user_id =>
      subscription_check user_id prompt gpt_provider ;;
      let system_instructions := default default_system_instructions system_prompt in
      try_except
        (attempt primary gpt_provider model json_struct user_id prompt system_instructions)
        (fun provider_error =>
           match fallback_providers E gpt_provider with
           | fallback_provider :: _ =>
               try_except
                 (attempt fallback fallback_provider (fallback_model E fallback_provider)
                          json_struct user_id prompt system_instructions)
                 (fun fallback_error => raise all_failed)
           | [] => raise all_failed
           end)
  end.

End Dispatch.

(** A sequence of requests, each with its own environment, served one after
    the other. *)
Record Request := {
  req_env : Env;
  req_prompt : string;
  req_system_prompt : option string;
  req_json_struct : bool;
  req_user_id : option string
}.

Definition serve (r : Request) (w : World) : result Response * World :=
  llm_text_gen (req_env r) (req_prompt r) (req_system_prompt r)
               (req_json_struct r) (req_user_id r) w.

Fixpoint serve_all (rs : list Request) (w : World) : World :=
  match rs with
  | [] => w
  | r :: rest => serve_all rest (serve r w).2
  end.

(** The number of vendor calls in a trace. *)
Definition is_generate (ev : Event) : bool :=
  match ev with
  | EvGenerate _ _ _ => true
  | _ => false
  end.

Definition provider_calls (t : list Event) : nat :=
  length (List.filter is_generate t).

(** ** Specification-level vocabulary *)

(** The vendor calls of a trace, latest first. *)
Definition generated (t : list Event) : list Event := List.filter is_generate t.

Definition push (ev : Event) (w : World) : World :=
  {| db := db w; session := session w; trace := ev :: trace w |}.

(** A world inside a transaction: committed rows [d], trace [t], and the
    rows [s] as the session sees them. *)
Definition in_txn (d : Table) (t : list Event) (s : Table) : World :=
  {| db := d; session := Some s; trace := t |}.

Definition faulty (E : Env) : Prop := ∃ op, fault E op = true.

(** A step of the accounting either raises, which takes a fault and leaves
    the committed rows and the trace alone, or returns [a] with the session
    at [s']. *)
Definition aborts {A} (E : Env) (x : result A * World) (d : Table) (t : list Event) : Prop :=
  faulty E ∧ ∃ exc s', x = (Raise exc, in_txn d t s').

Definition yields {A} (x : result A * World) (d : Table) (t : list Event)
    (a : A) (s' : Table) : Prop :=
  x = (Ok a, in_txn d t s').

(** The counters of the provider as stored before the call. *)
Definition stored_before (s : Table) (key : string * string) (provider_name : string)
  : Z * Z :=
  match s !! key with
  | Some r => (counter r (provider_name +:+ "_calls"),
               counter r (provider_name +:+ "_tokens"))
  | None => (0, 0)
  end.

(** What [read_current] returns: the stored counters, or zeros when the
    COUNT statement has raised. *)
Definition before_ok (E : Env) (s : Table) (key : string * string)
    (provider_name : string) (before : Z * Z) : Prop :=
  before = stored_before s key provider_name ∨
  (fault E OpCount = true ∧ before = (0, 0)).

(** The row that a committed accounting leaves, phase by phase. *)
Definition sync_row (pn : string) (before : Z * Z) (r : UsageSummary) : UsageSummary :=
  set_counter (pn +:+ "_tokens") before.2 (set_counter (pn +:+ "_calls") before.1 r).

Definition base_row (pn : string) (before : Z * Z) (existing : option UsageSummary)
  : UsageSummary :=
  match existing with
  | None => new_summary
  | Some r => sync_row pn before r
  end.

Definition tracked_total (path : Path) (e : APIProvider)
    (token_limit : Z) (before : Z * Z) (tokens_total : Z) : Z :=
  if token_tracked path e then (cap_tokens token_limit before.2 tokens_total).2
  else tokens_total.

Definition counted_row (path : Path) (e : APIProvider)
    (token_limit : Z) (before : Z * Z) (tokens_total : Z) (r : UsageSummary)
  : UsageSummary :=
  let r1 := set_counter (value e +:+ "_calls") (before.1 + 1) r in
  if token_tracked path e then
    set_counter (value e +:+ "_tokens") (cap_tokens token_limit before.2 tokens_total).1 r1
  else r1.

Definition cost_of (E : Env) (e : APIProvider) (model : string)
    (tokens_input tokens_total : Z) : Q :=
  let tracked_tokens_input := Z.min tokens_input tokens_total in
  let tracked_tokens_output := Z.max (tokens_total - tracked_tokens_input) 0 in
  default 0%Q (calculate_api_cost E e model tracked_tokens_input tracked_tokens_output).

Definition costed_row (pn : string) (c : Q) (r : UsageSummary) : UsageSummary :=
  if negb (Qle_bool c 0) then add_cost "total_cost" c (add_cost (pn +:+ "_cost") c r)
  else r.

Definition totalled_row (tokens_total : Z) (r : UsageSummary) : UsageSummary :=
  set_counter "total_tokens" (counter r "total_tokens" + tokens_total)
    (set_counter "total_calls" (counter r "total_calls" + 1) r).

(** The actual total of a call: the estimate over the real prompt and the
    real response. *)
Definition actual_total (prompt : string) (response_text : Response) : Z :=
  Tokens.estimate_tokens prompt + Tokens.estimate_tokens (str response_text).

Definition recorded_row (E : Env) (path : Path) (user_id prompt : string)
    (response_text : Response) (e : APIProvider) (model : string)
    (before : Z * Z) (existing : option UsageSummary) : UsageSummary :=
  let tokens_input := Tokens.estimate_tokens prompt in
  let tokens_total := actual_total prompt response_text in
  let token_limit := token_limit_of (get_user_limits E user_id) (value e) in
  let tracked := tracked_total path e token_limit before tokens_total in
  totalled_row tracked
    (costed_row (value e) (cost_of E e model tokens_input tracked)
       (counted_row path e token_limit before tokens_total
          (base_row (value e) before existing))).

(** What the accounting block can do to the world: nothing to the rows
    (and then some operation has raised), or one row rewritten. *)
Definition accounted (E : Env) (path : Path) (user_id prompt : string)
    (response_text : Response) (e : APIProvider) (model : string) (w w' : World) : Prop :=
  let key := (user_id, current_billing_period E user_id) in
  (faulty E ∧ db w' = db w ∧ (trace w' = trace w ∨ trace w' = EvGetDb :: trace w))
  ∨
  (∃ before, before_ok E (db w) key (value e) before ∧
     trace w' = EvGetDb :: trace w ∧
     db w' = <[key := recorded_row E path user_id prompt response_text e model
                        before (db w !! key)]> (db w)).

(** The world after a call and, when the reply is truthy, its accounting. *)
Definition attempted (E : Env) (path : Path) (p : GptProvider) (model : string)
    (json_struct : bool) (user_id prompt : string) (r : Response) (w w' : World) : Prop :=
  if truthy r then
    accounted E path user_id prompt r (provider_enum p) model
              (push (EvGenerate p model json_struct) w) w'
  else w' = push (EvGenerate p model json_struct) w.

(** The ways a request can go. *)
Inductive served (E : Env) (prompt : string) (system_prompt : option string)
    (json_struct : bool)
  : option string -> World -> result Response -> World -> Prop :=
| served_unconfigured user_id w msg :
    select_provider E = Raise (RuntimeError msg) ->
    served E prompt system_prompt json_struct user_id w (Raise (RuntimeError msg)) w
| served_anonymous user_id w p model :
    select_provider E = Ok (p, model) ->
    user_id = None \/ user_id = Some "" ->
    served E prompt system_prompt json_struct user_id w (Raise user_id_required) w
| served_refused u w p model exc w1 :
    select_provider E = Ok (p, model) ->
    u <> "" ->
    subscription_check E u prompt p w = (Raise exc, w1) ->
    served E prompt system_prompt json_struct (Some u) w (Raise exc) w1
| served_primary u w p model w1 r w2 :
    select_provider E = Ok (p, model) ->
    u <> "" ->
    subscription_check E u prompt p w = (Ok tt, w1) ->
    backend E p model json_struct prompt
            (default default_system_instructions system_prompt) = Returned r ->
    attempted E primary p model json_struct u prompt r w1 w2 ->
    served E prompt system_prompt json_struct (Some u) w (Ok r) w2
| served_exhausted u w p model w1 msg :
    select_provider E = Ok (p, model) ->
    u <> "" ->
    subscription_check E u prompt p w = (Ok tt, w1) ->
    backend E p model json_struct prompt
            (default default_system_instructions system_prompt) = Failed msg ->
    fallback_providers E p = [] ->
    served E prompt system_prompt json_struct (Some u) w (Raise all_failed)
           (push (EvGenerate p model json_struct) w1)
| served_both_failed u w p model w1 msg f rest msg' :
    select_provider E = Ok (p, model) ->
    u <> "" ->
    subscription_check E u prompt p w = (Ok tt, w1) ->
    backend E p model json_struct prompt
            (default default_system_instructions system_prompt) = Failed msg ->
    fallback_providers E p = f :: rest ->
    backend E f (fallback_model E f) json_struct prompt
            (default default_system_instructions system_prompt) = Failed msg' ->
    served E prompt system_prompt json_struct (Some u) w (Raise all_failed)
           (push (EvGenerate f (fallback_model E f) json_struct)
                 (push (EvGenerate p model json_struct) w1))
| served_fallback u w p model w1 msg f rest r w2 :
    select_provider E = Ok (p, model) ->
    u <> "" ->
    subscription_check E u prompt p w = (Ok tt, w1) ->
    backend E p model json_struct prompt
            (default default_system_instructions system_prompt) = Failed msg ->
    fallback_providers E p = f :: rest ->
    backend E f (fallback_model E f) json_struct prompt
            (default default_system_instructions system_prompt) = Returned r ->
    attempted E fallback f (fallback_model E f) json_struct u prompt r
              (push (EvGenerate p model json_struct) w1) w2 ->
    served E prompt system_prompt json_struct (Some u) w (Ok r) w2.


(** A column as the source reads it from the row of a key: a missing row,
    like a NULL column, reads as zero. *)
Definition stored_counter (d : Table) (key : string * string) (column : string) : Z :=
  counter (default new_summary (d !! key)) column.

Definition stored_cost (d : Table) (key : string * string) (column : string) : Q :=
  cost (default new_summary (d !! key)) column.

Definition faultless (E : Env) : Prop := ∀ op, fault E op = false.

(** The key of a user's row in the current period. *)
Definition row_key (E : Env) (user_id : string) : string * string :=
  (user_id, current_billing_period E user_id).

Definition is_check (ev : Event) : bool :=
  match ev with
  | EvCheckLimits _ _ _ => true
  | _ => false
  end.

(** The pre-flight total as section 4.2 of the specification words it: the
    input estimate plus the larger of the configured maximum output tokens
    and one and a half times the input estimate. *)
Definition spec_worst_case (max_tokens : Z) (prompt : string) : Z :=
  let input_tokens := Tokens.estimate_tokens prompt in
  input_tokens + Z.max max_tokens (Tokens.one_and_a_half input_tokens).

(** The condition under which the request is denied by the code, on the
    committed counters of the user's row: the next call would exceed the
    call ceiling, or the total that line 158 submits - the input estimate
    plus [max_tokens] - would exceed the token ceiling. *)
Definition over_quota (E : Env) (d : Table) (user_id prompt : string) (e : APIProvider)
  : Prop :=
  let call_limit := call_limit_of (get_user_limits E user_id) (value e) in
  let token_limit := token_limit_of (get_user_limits E user_id) (value e) in
  (0 < call_limit ∧
   call_limit < stored_counter d (row_key E user_id) (value e +:+ "_calls") + 1)
  ∨
  (0 < token_limit ∧
   token_limit < stored_counter d (row_key E user_id) (value e +:+ "_tokens")
                 + Tokens.estimated_total_tokens Tokens.max_tokens prompt).

(** The condition as section 4.2 of the specification words it, with the
    worst-case estimate: the larger of the maximum output tokens and one
    and a half times the input estimate. *)
Definition spec_over_quota (E : Env) (d : Table) (user_id prompt : string)
    (e : APIProvider) : Prop :=
  let call_limit := call_limit_of (get_user_limits E user_id) (value e) in
  let token_limit := token_limit_of (get_user_limits E user_id) (value e) in
  (0 < call_limit ∧
   call_limit < stored_counter d (row_key E user_id) (value e +:+ "_calls") + 1)
  ∨
  (0 < token_limit ∧
   token_limit < stored_counter d (row_key E user_id) (value e +:+ "_tokens")
                 + spec_worst_case Tokens.max_tokens prompt).

(** ** Example environments *)

Definition example_env (gpt_provider : string) (keys : list string)
    (reply : GptProvider -> BackendResult) (limits : gmap string Z)
    (faults : Op -> bool) : Env :=
  {| GPT_PROVIDER := gpt_provider;
     OPENROUTER_MODEL := None;
     get_api_key := fun k => str_in k keys;
     backend := fun p _ _ _ _ => reply p;
     current_billing_period := fun _ => "2026-11";
     get_user_limits := fun _ => Some limits;
     calculate_api_cost := fun _ _ tokens_input tokens_output =>
                             Some (Qmake (tokens_input + tokens_output) 1000);
     fault := faults |}.

Definition example_world (stored : gmap string Z) : World :=
  {| db := {[ ("u", "2026-11") := {| counters := stored; costs := ∅ |} ]};
     session := None;
     trace := [] |}.

Definition no_faults : Op -> bool := fun _ => false.

(** Every operation of the accounting block raises; the pre-flight check
    runs cleanly. *)
Definition accounting_faults : Op -> bool :=
  fun op =>
    match op with
    | OpPreGetDb | OpCheckLimits | OpPrePeriod | OpPreQuery | OpPreClose => false
    | _ => true
    end.

Definition replies (n : nat) : GptProvider -> BackendResult :=
  fun _ => Returned (Text (Tokens.words n)).

Definition google_down (n : nat) : GptProvider -> BackendResult :=
  fun p =>
    match p with
    | google => Failed "503 Service Unavailable"
    | _ => Returned (Text (Tokens.words n))
    end.

Definition all_down : GptProvider -> BackendResult :=
  fun _ => Failed "503 Service Unavailable".

(** A column written by no accounting: neither a provider's nor a total. *)
Definition unwritten_counter (c : string) : Prop :=
  ∀ e, c ≠ value e +:+ "_calls" ∧ c ≠ value e +:+ "_tokens" ∧
       c ≠ "total_calls" ∧ c ≠ "total_tokens".

Definition unwritten_cost (c : string) : Prop :=
  ∀ e, c ≠ value e +:+ "_cost" ∧ c ≠ "total_cost".

(** ** Further vocabulary for the dispatcher *)

(** The values of [GPT_PROVIDER] (lowered) that name each provider, lines
    53-59. *)
Definition aliases (p : GptProvider) : list string :=
  match p with
  | google => ["gemini"; "google"]
  | huggingface => ["hf_response_api"; "huggingface"; "hf"]
  | openrouter => ["openrouter"; "or"]
  end.

(** [p] is the first provider of the order google, openrouter, huggingface
    that has credentials. *)
Definition first_by_priority (E : Env) (p : GptProvider) : Prop :=
  p ∈ available_providers E ∧
  ∃ earlier later,
    [google; openrouter; huggingface] = earlier ++ p :: later ∧
    ∀ g, g ∈ earlier → g ∉ available_providers E.

(** The limit checks of a trace, latest first. *)
Definition checks (t : list Event) : list Event := List.filter is_check t.

(** ** Further vocabulary for the accounting *)

(** What [read_current] returns when it returns: on the first call's path
    a COUNT statement that raises makes the block start from zero (lines
    332-334), otherwise the stored counters are read. *)
Definition read_before (E : Env) (path : Path) (s : Table) (key : string * string)
    (provider_name : string) : Z * Z :=
  match path with
  | primary => if fault E OpCount then (0, 0) else stored_before s key provider_name
  | fallback => stored_before s key provider_name
  end.

(** The operations whose exception is caught on the spot, or comes after
    the commit: the raw SELECT (the ORM read takes over), the read-back
    after the commit, the printed summary, the rollback and the close. *)
Definition tolerated (op : Op) : bool :=
  match op with
  | OpSelect | OpVerify | OpPrint | OpRollback | OpClose => true
  | _ => false
  end.

(** The operations that every accounting runs before its commit takes
    effect, on the first call's path as on the fallback's. *)
Definition always_run (op : Op) : bool :=
  match op with
  | OpGetDb | OpPeriod | OpLimits | OpQuery | OpCommit => true
  | _ => false
  end.

(** A step that raises inside the transaction. *)
Definition raises {A} (x : result A * World) (d : Table) (t : list Event) : Prop :=
  ∃ exc s', x = (Raise exc, in_txn d t s').

(** The same environment with no operation raising. *)
Definition without_faults (E : Env) : Env :=
  {| GPT_PROVIDER := GPT_PROVIDER E;
     OPENROUTER_MODEL := OPENROUTER_MODEL E;
     get_api_key := get_api_key E;
     backend := backend E;
     current_billing_period := current_billing_period E;
     get_user_limits := get_user_limits E;
     calculate_api_cost := calculate_api_cost E;
     fault := fun _ => false |}.

(** ** The helpers beside the dispatcher (lines 935-954) *)

(** The three values of [gpt_provider], as the strings of the source. *)
Definition gpt_provider_name (p : GptProvider) : string :=
  match p with
  | google => "google"
  | huggingface => "huggingface"
  | openrouter => "openrouter"
  end.

(** Python's truth value of an [Optional[str]]: [None] and the empty
    string are falsy. *)
Definition nonempty (s : option string) : bool :=
  match s with
  | Some (String _ _) => true
  | _ => false
  end.

Module Keys.

(** What [APIKeyManager().get_api_key(name)] does: it returns a key or
    [None], or it raises. *)
Inductive Lookup :=
| Found (key : option string)
| LookupError (msg : string).

(** Lines 935-938. *)
Definition check_gpt_provider (gpt_provider : string) : bool :=
  str_in gpt_provider ["google"; "huggingface"; "openrouter"].

(** Lines 944-948. *)
Definition provider_mapping : list (string * string) :=
  [("google", "gemini"); ("huggingface", "hf_token"); ("openrouter", "openrouter")].

(** [provider_mapping.get(gpt_provider, gpt_provider)] *)
Definition mapped_provider (gpt_provider : string) : string :=
  match List.find (fun entry => String.eqb entry.1 gpt_provider) provider_mapping with
  | Some entry => entry.2
  | None => gpt_provider
  end.

(** Lines 940-954: any exception gives [None]. *)
Definition get_api_key (manager : string -> Lookup) (gpt_provider : string)
  : option string :=
  match manager (mapped_provider gpt_provider) with
  | Found key => key
  | LookupError _ => None
  end.

End Keys.

(** ** The OpenRouter provider
    ([backend/services/llm_providers/openrouter_provider.py]) *)

Module OpenRouter.

(** The exceptions of the module: the [ValueError]s it raises itself,
    whatever the OpenAI client raises, and the [tenacity.RetryError] that
    the [@retry] decorator raises around the exception of the last
    attempt. *)
Inductive Error :=
| ValueError (msg : string)
| APIError (msg : string)
| RetryError (last_attempt : Error).

Inductive outcome (A : Type) :=
| Return (a : A)
| Throw (e : Error).
Arguments Return {A} a.
Arguments Throw {A} e.

(** What the module reads from its surroundings: the key held by the
    [APIKeyManager] and three environment variables. *)
Record Settings := {
  manager_key : option string;
  OPENROUTER_API_KEY : option string;
  OPENROUTER_HTTP_REFERER : option string;
  OPENROUTER_X_TITLE : option string
}.

(** Lines 94-108. *)
Definition get_openrouter_api_key (S : Settings) : outcome string :=
  let api_key := manager_key S in
  let api_key := if negb (nonempty api_key) then OPENROUTER_API_KEY S else api_key in
  if negb (nonempty api_key) then
    Throw (ValueError "OPENROUTER_API_KEY not found. Please set it in your .env file or via API key manager.")
  else Return (default "" api_key).

(** The arguments given to [openai.OpenAI]. *)
Record Client := {
  base_url : string;
  api_key : string;
  http_referer : string;
  x_title : string
}.

(** Lines 111-125. *)
Definition get_openrouter_client (S : Settings) : outcome Client :=
  match get_openrouter_api_key S with
  | Throw e => Throw e
  | Return api_key =>
      Return {| base_url := "https://openrouter.ai/api/v1";
                api_key := api_key;
                http_referer := default "https://alwrity.com" (OPENROUTER_HTTP_REFERER S);
                x_title := default "ALwrity" (OPENROUTER_X_TITLE S) |}
  end.

Inductive Role := system | user.

Record Message := {
  role : Role;
  content : string
}.

(** The keyword arguments of [client.chat.completions.create], with the
    client they are sent through; [None] for an argument that is not
    passed. *)
Record ChatRequest := {
  chat_client : Client;
  chat_model : string;
  chat_messages : list Message;
  chat_temperature : Q;
  chat_max_tokens : Z;
  chat_top_p : option Q;
  chat_response_format : option string
}.

(** What one call of [create] gives: it raises, or the response is falsy
    or has no choices, or the first choice has the given
    [message.content]. *)
Inductive Completion :=
| Raises (msg : string)
| NoChoices
| Choice (content : option string).

(** The vendor: its reply to a request, given the number of requests it
    has received before. *)
Definition Vendor : Type := nat -> ChatRequest -> Completion.

(** [str.lstrip()], [str.rstrip()] and [str.strip()] without argument. *)
Fixpoint lstrip (s : string) : string :=
  match s with
  | EmptyString => EmptyString
  | String c rest => if Tokens.isspace c then lstrip rest else s
  end.

Fixpoint rstrip (s : string) : string :=
  match s with
  | EmptyString => EmptyString
  | String c rest =>
      let kept := rstrip rest in
      if Tokens.isspace c && String.eqb kept "" then EmptyString else String c kept
  end.

Definition strip (s : string) : string := rstrip (lstrip s).

(** Lines 165-168 and 248-251. *)
Definition build_messages (system_prompt : option string) (user_content : string)
  : list Message :=
  (if nonempty system_prompt
   then [{| role := system; content := default "" system_prompt |}]
   else [])
  ++ [{| role := user; content := user_content |}].

(** The requests sent so far, latest first, are the state that the
    functions thread. *)
Definition Sent : Type := list ChatRequest.

(** Lines 162-193: the body of [openrouter_text_response], one attempt.
    The handler of line 191 logs and raises again. *)
Definition text_response_once (S : Settings) (V : Vendor) (prompt model : string)
    (temperature : Q) (max_tokens : Z) (top_p : Q) (system_prompt : option string)
    (sent : Sent) : outcome string * Sent :=
  match get_openrouter_client S with
  | Throw e => (Throw e, sent)
  | Return client =>
      let messages := build_messages system_prompt prompt in
      let request := {| chat_client := client;
                        chat_model := model;
                        chat_messages := messages;
                        chat_temperature := temperature;
                        chat_max_tokens := max_tokens;
                        chat_top_p := Some top_p;
                        chat_response_format := None |} in
      match V (length sent) request with
      | Raises msg => (Throw (APIError msg), request :: sent)
      | NoChoices =>
          (Throw (ValueError "Empty response from OpenRouter API"), request :: sent)
      | Choice result_text =>
          if negb (nonempty result_text) then
            (Throw (ValueError "No content in response from OpenRouter API"),
             request :: sent)
          else (Return (strip (default "" result_text)), request :: sent)
      end
  end.

(** [@retry(wait=wait_random_exponential(min=1, max=60),
    stop=stop_after_attempt(n))] of tenacity: the function is called again
    after every exception until it returns or the [n]-th attempt has
    failed, and then [RetryError] is raised around the last exception.
    [remaining] counts the attempts left after the next one; the waits
    between attempts take time and change nothing else. *)
Fixpoint retry_from {A} (remaining : nat) (f : Sent -> outcome A * Sent) (sent : Sent)
  : outcome A * Sent :=
  match f sent with
  | (Return a, sent') => (Return a, sent')
  | (Throw e, sent') =>
      match remaining with
      | O => (Throw (RetryError e), sent')
      | S fewer => retry_from fewer f sent'
      end
  end.

Definition retry {A} (stop_after_attempt : nat) (f : Sent -> outcome A * Sent)
  : Sent -> outcome A * Sent :=
  retry_from (stop_after_attempt - 1) f.

(** Lines 128-193. *)
Definition openrouter_text_response (S : Settings) (V : Vendor) (prompt model : string)
    (temperature : Q) (max_tokens : Z) (top_p : Q) (system_prompt : option string)
  : Sent -> outcome string * Sent :=
  retry 6 (text_response_once S V prompt model temperature max_tokens top_p system_prompt).

(** Lines 240-246; [schema_str] is [json.dumps(schema, indent=2)]. *)
Definition enhanced_prompt (prompt schema_str : string) : string :=
  prompt +:+ "

IMPORTANT: You must respond with valid JSON that matches this exact schema:
" +:+ schema_str +:+ "

Return ONLY the JSON object, no additional text or markdown formatting.".

Definition newline : ascii := ascii_of_nat 10.

(** The longest run of whitespace at the head of [s] that ends in a line
    feed, removed: what is left of [s] after a match of [\s*\n] at its
    head, if there is one. *)
Fixpoint after_blank_line (s : string) : option string :=
  match s with
  | EmptyString => None
  | String c rest =>
      if Tokens.isspace c then
        match after_blank_line rest with
        | Some remainder => Some remainder
        | None => if Ascii.eqb c newline then Some rest else None
        end
      else None
  end.

(** [re.sub(r'^```(?:json)?\s*\n', '', text)] on a text that starts with
    three backquotes: the pattern is anchored at the head, so it matches
    once at most; greedy [\s*] followed by [\n] takes the whitespace up to
    its last line feed. *)
Definition strip_opening_fence (text : string) : string :=
  let after_quotes := String.substring 3 (String.length text - 3) text in
  let after_tag :=
    if String.prefix "json" after_quotes
    then String.substring 4 (String.length after_quotes - 4) after_quotes
    else after_quotes in
  match after_blank_line after_tag with
  | Some remainder => remainder
  | None => text
  end.

Fixpoint all_space (s : string) : bool :=
  match s with
  | EmptyString => true
  | String c rest => Tokens.isspace c && all_space rest
  end.

(** Whether [s] is a line feed, three backquotes and whitespace to the
    end: a match of [\n```\s*$] at the head of [s]. *)
Definition closing_fence_here (s : string) : bool :=
  match s with
  | String c0 (String c1 (String c2 (String c3 rest))) =>
      Ascii.eqb c0 newline && Ascii.eqb c1 "`" && Ascii.eqb c2 "`" && Ascii.eqb c3 "`"
      && all_space rest
  | _ => false
  end.

(** [re.sub(r'\n```\s*$', '', text)]: the text up to the first place where
    the pattern matches; the match runs to the end of the text. *)
Fixpoint strip_closing_fence (text : string) : string :=
  match text with
  | EmptyString => EmptyString
  | String c rest =>
      if closing_fence_here text then EmptyString
      else String c (strip_closing_fence rest)
  end.

(** Lines 280-286. *)
Definition clean_json_text (result_text : string) : string :=
  let result_text := strip result_text in
  if String.prefix "```" result_text
  then strip_closing_fence (strip_opening_fence result_text)
  else result_text.

(** Lines 236-299: the body of [openrouter_structured_json_response], one
    attempt.  [json_loads] is [json.loads]: the parsed value, or the
    message of the [JSONDecodeError]. *)
Definition structured_response_once {J : Type} (S : Settings) (V : Vendor)
    (json_loads : string -> J + string) (prompt schema_str model : string)
    (temperature : Q) (max_tokens : Z) (system_prompt : option string)
    (sent : Sent) : outcome J * Sent :=
  match get_openrouter_client S with
  | Throw e => (Throw e, sent)
  | Return client =>
      let messages := build_messages system_prompt (enhanced_prompt prompt schema_str) in
      let request := {| chat_client := client;
                        chat_model := model;
                        chat_messages := messages;
                        chat_temperature := temperature;
                        chat_max_tokens := max_tokens;
                        chat_top_p := None;
                        chat_response_format :=
                          if String.prefix "openai/" model then Some "json_object"
                          else None |} in
      match V (length sent) request with
      | Raises msg => (Throw (APIError msg), request :: sent)
      | NoChoices =>
          (Throw (ValueError "Empty response from OpenRouter API"), request :: sent)
      | Choice result_text =>
          if negb (nonempty result_text) then
            (Throw (ValueError "No content in response from OpenRouter API"),
             request :: sent)
          else
            match json_loads (clean_json_text (default "" result_text)) with
            | inl parsed_json => (Return parsed_json, request :: sent)
            | inr e =>
                (Throw (ValueError ("Failed to parse JSON response: " +:+ e)),
                 request :: sent)
            end
      end
  end.

(** Lines 196-299. *)
Definition openrouter_structured_json_response {J : Type} (S : Settings) (V : Vendor)
    (json_loads : string -> J + string) (prompt schema_str model : string)
    (temperature : Q) (max_tokens : Z) (system_prompt : option string)
  : Sent -> outcome J * Sent :=
  retry 6 (structured_response_once S V json_loads prompt schema_str model
                                    temperature max_tokens system_prompt).

(** An entry of [client.models.list().data]; [None] for an attribute that
    the entry does not have. *)
Record ModelEntry := {
  entry_id : string;
  entry_name : option string;
  entry_context_length : option Z;
  entry_pricing : option (list (string * string))
}.

(** The dictionary that [get_model_info] builds. *)
Record ModelInfo := {
  info_id : string;
  info_name : string;
  info_context_length : option Z;
  info_pricing : list (string * string)
}.

(** Lines 302-315; [listing] is what [client.models.list()] gives. *)
Definition list_available_models (S : Settings) (listing : outcome (list ModelEntry))
  : list string :=
  match get_openrouter_client S with
  | Throw _ => []
  | Return _ =>
      match listing with
      | Throw _ => []
      | Return data => List.map entry_id data
      end
  end.

(** Lines 318-342; [None] is the empty dictionary. *)
Definition get_model_info (S : Settings) (listing : outcome (list ModelEntry))
    (model : string) : option ModelInfo :=
  match get_openrouter_client S with
  | Throw _ => None
  | Return _ =>
      match listing with
      | Throw _ => None
      | Return data =>
          match List.find (fun m => String.eqb (entry_id m) model) data with
          | Some m =>
              Some {| info_id := entry_id m;
                      info_name := default model (entry_name m);
                      info_context_length := entry_context_length m;
                      info_pricing := default [] (entry_pricing m) |}
          | None => None
          end
      end
  end.

(** A fenced answer: the body between an opening fence, with or without
    the [json] tag, and a closing fence. *)
Definition fenced (tagged : bool) (body : string) : string :=
  "```" +:+ (if tagged then "json" else "") +:+ String newline body
  +:+ String newline "```".

(** The first character of a text is not whitespace. *)
Definition starts_with_text (s : string) : Prop :=
  match s with
  | EmptyString => False
  | String c _ => Tokens.isspace c = false
  end.

End OpenRouter.

(** ** Vocabulary for the OpenRouter provider *)

(** The request of [openrouter_text_response]. *)
Definition text_request (client : OpenRouter.Client) (prompt model : string)
    (temperature : Q) (max_tokens : Z) (top_p : Q) (system_prompt : option string)
  : OpenRouter.ChatRequest :=
  {| OpenRouter.chat_client := client;
     OpenRouter.chat_model := model;
     OpenRouter.chat_messages := OpenRouter.build_messages system_prompt prompt;
     OpenRouter.chat_temperature := temperature;
     OpenRouter.chat_max_tokens := max_tokens;
     OpenRouter.chat_top_p := Some top_p;
     OpenRouter.chat_response_format := None |}.

(** The request of [openrouter_structured_json_response]. *)
Definition structured_request (client : OpenRouter.Client)
    (prompt schema_str model : string) (temperature : Q) (max_tokens : Z)
    (system_prompt : option string) : OpenRouter.ChatRequest :=
  {| OpenRouter.chat_client := client;
     OpenRouter.chat_model := model;
     OpenRouter.chat_messages :=
       OpenRouter.build_messages system_prompt
                                 (OpenRouter.enhanced_prompt prompt schema_str);
     OpenRouter.chat_temperature := temperature;
     OpenRouter.chat_max_tokens := max_tokens;
     OpenRouter.chat_top_p := None;
     OpenRouter.chat_response_format :=
       if String.prefix "openai/" model then Some "json_object" else None |}.

(** The text that a completion carries, if it carries one that is not
    empty. *)
Definition completion_text (c : OpenRouter.Completion) : option string :=
  match c with
  | OpenRouter.Choice (Some (String a rest)) => Some (String a rest)
  | _ => None
  end.

(** The key that the settings give: the manager's unless it is missing or
    empty, then the environment's. *)
Definition configured_key (S : OpenRouter.Settings) : option string :=
  if nonempty (OpenRouter.manager_key S) then OpenRouter.manager_key S
  else OpenRouter.OPENROUTER_API_KEY S.

(** The client built around a key. *)
Definition client_of (S : OpenRouter.Settings) (key : string) : OpenRouter.Client :=
  {| OpenRouter.base_url := "https://openrouter.ai/api/v1";
     OpenRouter.api_key := key;
     OpenRouter.http_referer :=
       default "https://alwrity.com" (OpenRouter.OPENROUTER_HTTP_REFERER S);
     OpenRouter.x_title := default "ALwrity" (OpenRouter.OPENROUTER_X_TITLE S) |}.

(** The exception for a key that is missing. *)
Definition key_not_found : OpenRouter.Error :=
  OpenRouter.ValueError
    "OPENROUTER_API_KEY not found. Please set it in your .env file or via API key manager.".

(** ** Example settings and vendors *)

Definition example_settings (manager environment : option string) : OpenRouter.Settings :=
  {| OpenRouter.manager_key := manager;
     OpenRouter.OPENROUTER_API_KEY := environment;
     OpenRouter.OPENROUTER_HTTP_REFERER := None;
     OpenRouter.OPENROUTER_X_TITLE := None |}.

(** A vendor that raises, then answers without content, then answers
    [content]. *)
Definition third_time_lucky (content : string) : OpenRouter.Vendor :=
  fun received _ =>
    match received with
    | O => OpenRouter.Raises "timeout"
    | S O => OpenRouter.Choice None
    | _ => OpenRouter.Choice (Some content)
    end.

(** ** Sequences of requests of one user *)

(** One request per prompt, all in the same environment and for the same
    user. *)
Definition requests_for (E : Env) (system_prompt : option string) (json_struct : bool)
    (user_id : string) (prompts : list string) : list Request :=
  List.map (fun prompt => {| req_env := E;
                             req_prompt := prompt;
                             req_system_prompt := system_prompt;
                             req_json_struct := json_struct;
                             req_user_id := Some user_id |}) prompts.

(** The actual totals of the calls, added up; [answer] gives the reply to
    each prompt. *)
Definition sum_of_totals (answer : string -> Response) (prompts : list string) : Z :=
  List.fold_right (fun prompt acc => actual_total prompt (answer prompt) + acc) 0 prompts.

(** ** The request, whatever the operations of its pre-flight check raise *)

(** Lines 136-199 once more, with the exception that a raising operation
    raises left open: [fault] tells whether an operation raises, [raised]
    what it raises then.  The handlers of lines 190-199 tell three kinds of
    exception apart, so this matters for the pre-flight check; the handlers
    of the accounting and of the vendor calls catch every exception alike,
    and that part of the request is shared with [llm_text_gen]. *)
Section Raising.

Variable E : Env.
Variable raised : Op -> Exception.

Definition guard_raising (op : Op) : M unit :=
  if fault E op then raise (raised op) else ret tt.

Definition get_db_raising (op : Op) : M unit :=
  guard_raising op ;;
  emit EvGetDb ;;
  fun w => (Ok tt, {| db := db w; session := Some (db w); trace := trace w |}).

Definition close_raising (op : Op) : M unit :=
  guard_raising op ;;
  fun w => (Ok tt, {| db := db w; session := None; trace := trace w |}).

(** Modelled from the spec: [PricingService.check_usage_limits], as in
    [check_usage_limits], section 4.2 of the specification: the latest
    committed counters of the user's period are read; the request is
    denied with a message and the usage if the next call would exceed the
    call ceiling or the requested total the token ceiling (a ceiling of 0
    means unlimited); otherwise it is admitted. *)
Definition check_usage_limits_raising (user_id : string) (e : APIProvider)
    (tokens_requested : Z) (actual_provider_name : string)
  : M (bool * string * gmap string Z) :=
  guard_raising OpCheckLimits ;;
  emit (EvCheckLimits user_id e tokens_requested) ;;
  row <- read_row (user_id, current_billing_period E user_id) ;;
  let usage := default new_summary row in
  let call_limit := call_limit_of (get_user_limits E user_id) (value e) in
  let token_limit := token_limit_of (get_user_limits E user_id) (value e) in
  let current_calls := counter usage (value e +:+ "_calls") in
  let current_tokens := counter usage (value e +:+ "_tokens") in
  if (0 <? call_limit) && (call_limit <? current_calls + 1) then
    ret (false, actual_provider_name +:+ " call limit reached",
         {[ "current_calls" := current_calls; "call_limit" := call_limit ]})
  else if (0 <? token_limit) && (token_limit <? current_tokens + tokens_requested) then
    ret (false, actual_provider_name +:+ " token limit would be exceeded",
         {[ "current_tokens" := current_tokens; "token_limit" := token_limit;
            "tokens_requested" := tokens_requested ]})
  else ret (true, "", ∅).

(** Lines 136-199. *)
Definition subscription_check_raising (user_id prompt : string) (p : GptProvider)
  : M unit :=
  try_except
    (get_db_raising OpPreGetDb ;;
     try_finally
       (let estimated_total_tokens :=
          Tokens.estimated_total_tokens Tokens.max_tokens prompt in
        verdict <- check_usage_limits_raising user_id (provider_enum p)
                                              estimated_total_tokens
                                              (actual_provider_name p) ;;
        let '(can_proceed, msg, info) := verdict in
        if negb can_proceed then
          raise (HTTPException 429
                   {| error := msg;
                      message := msg;
                      provider := if String.eqb (actual_provider_name p) ""
                                  then value (provider_enum p)
                                  else actual_provider_name p;
                      usage_info := info |})
        else
          guard_raising OpPrePeriod ;;
          guard_raising OpPreQuery)
       (close_raising OpPreClose))
    (fun exc =>
       match exc with
       | HTTPException _ _ => raise exc
       | RuntimeError _ => raise exc
       | OtherException msg => raise (RuntimeError ("Subscription check failed: " +:+ msg))
       end).

(** Lines 20-933. *)
Definition llm_text_gen_raising (prompt : string) (system_prompt : option string)
    (json_struct : bool) (user_id : option string) : M Response :=
  selected <- lift (select_provider E) ;;
  let gpt_provider := selected.1 in
  let model := selected.2 in
  match user_id with
  | None | Some "" => raise user_id_required
  | Some user_id =>
      subscription_check_raising user_id prompt gpt_provider ;;
      let system_instructions := default default_system_instructions system_prompt in
      try_except
        (attempt E primary gpt_provider model json_struct user_id prompt
                 system_instructions)
        (fun provider_error =>
           match fallback_providers E gpt_provider with
           | fallback_provider :: _ =>
               try_except
                 (attempt E fallback fallback_provider (fallback_model E fallback_provider)
                          json_struct user_id prompt system_instructions)
                 (fun fallback_error => raise all_failed)
           | [] => raise all_failed
           end)
  end.

End Raising.

(** What the handlers of lines 190-199 make of an exception: an
    [HTTPException] and a [RuntimeError] go on as they are, any other is
    wrapped. *)
Definition surfaced (exc : Exception) : Exception :=
  match exc with
  | OtherException msg => RuntimeError ("Subscription check failed: " +:+ msg)
  | _ => exc
  end.

(** The operations of the pre-flight check. *)
Definition preflight (op : Op) : bool :=
  match op with
  | OpPreGetDb | OpCheckLimits | OpPrePeriod | OpPreQuery | OpPreClose => true
  | _ => false
  end.

(** The operation whose exception leaves the pre-flight check when its
    session, its limit check or its close raises: an exception of the
    close replaces the one that was on its way. *)
Definition failing_operation (E : Env) : Op :=
  if fault E OpPreGetDb then OpPreGetDb
  else if fault E OpPreClose then OpPreClose
  else OpCheckLimits.

(** * Proofs *)
(** ** The accounting block, phase by phase *)

Ltac run_guards E H :=
  cbn; rewrite ?H; cbn;
  repeat match goal with
         | |- context [fault E ?op] =>
             let Hf := fresh "Hfault" in
             destruct (fault E op) eqn:Hf; cbn; rewrite ?H; cbn
         end.

Ltac blame :=
  match goal with
  | Hf : fault ?E ?op = true |- faulty ?E => exists op; exact Hf
  end.

Ltac aborted := left; split; [blame | solve [eauto]].

Ltac table_eq key H :=
  apply map_eq; intros ?k; destruct (decide (key = k)) as [<-|];
  rewrite ?lookup_alter_eq, ?lookup_alter_ne, ?lookup_insert_eq, ?lookup_insert_ne by done;
  rewrite ?H; try done.

Lemma read_current_cases E path key e d t s :
  aborts E (read_current E path key (value e) (in_txn d t s)) d t ∨
  ∃ before, yields (read_current E path key (value e) (in_txn d t s)) d t before s ∧
            before_ok E s key (value e) before.
Proof.
  assert (Hv : str_in (value e) valid_providers = true) by (destruct e; reflexivity).
  unfold aborts, yields, before_ok, stored_before, read_current, checked_select,
    count_rows, select_counters, orm_counters, read_row, try_except, bind, guard,
    ret, raise, in_txn.
  rewrite Hv.
  destruct path; destruct (s !! key) as [row|] eqn:Hrow; run_guards E Hrow;
    first [ aborted | right; eexists; split; [reflexivity|]; auto ].
Qed.

Lemma all_providers_synced e :
  bool_decide (e ∈ [GEMINI; OPENAI; ANTHROPIC; MISTRAL; OPENROUTER]) = true.
Proof. destruct e; reflexivity. Qed.

Lemma get_or_create_summary_cases E key e before d t s :
  aborts E (get_or_create_summary E key (value e) e before.1 before.2 (in_txn d t s)) d t ∨
  yields (get_or_create_summary E key (value e) e before.1 before.2 (in_txn d t s)) d t
         tt (<[key := base_row (value e) before (s !! key)]> s).
Proof.
  unfold aborts, yields, get_or_create_summary, query_summary, add_row, modify_row,
    read_row, bind, guard, ret, raise, in_txn.
  rewrite all_providers_synced.
  destruct (s !! key) as [row|] eqn:Hrow; run_guards E Hrow;
    first [ aborted | right; auto ].
  do 3 f_equal. table_eq key Hrow.
Qed.

Lemma update_counters_cases E path key e limit before total d t s r :
  s !! key = Some r →
  aborts E (update_counters E path key (value e) e limit before.1 before.2 total
              (in_txn d t s)) d t ∨
  yields (update_counters E path key (value e) e limit before.1 before.2 total
            (in_txn d t s)) d t
         (tracked_total path e limit before total)
         (<[key := counted_row path e limit before total r]> s).
Proof.
  intros Hrow.
  unfold aborts, yields, update_counters, store, modify_row, bind, guard, ret, raise,
    in_txn, tracked_total, counted_row.
  destruct path; destruct (token_tracked _ e); run_guards E Hrow;
    first [ aborted | right; do 3 f_equal; table_eq key Hrow ].
Qed.

Lemma persist_cost_cases E key e model tokens_input tracked d t s r :
  s !! key = Some r →
  aborts E (persist_cost E key (value e) e model tokens_input tracked (in_txn d t s)) d t ∨
  yields (persist_cost E key (value e) e model tokens_input tracked (in_txn d t s)) d t
         tt (<[key := costed_row (value e) (cost_of E e model tokens_input tracked) r]> s).
Proof.
  intros Hrow.
  unfold aborts, yields, persist_cost, modify_row, bind, guard, ret, raise,
    in_txn, costed_row, cost_of.
  destruct (negb (Qle_bool _ 0)); run_guards E Hrow;
    first [ aborted | right; do 3 f_equal; table_eq key Hrow ].
Qed.

Lemma update_totals_cases E path key tracked d t s r :
  s !! key = Some r →
  aborts E (update_totals E path key tracked (in_txn d t s)) d t ∨
  yields (update_totals E path key tracked (in_txn d t s)) d t
         tt (<[key := totalled_row tracked r]> s).
Proof.
  intros Hrow.
  unfold aborts, yields, update_totals, store, modify_row, read_row, bind, guard, ret,
    raise, in_txn, totalled_row.
  destruct path; run_guards E Hrow;
    first [ aborted | right; do 3 f_equal; table_eq key Hrow ].
Qed.

Lemma commit_and_report_cases E path d t s :
  aborts E (commit_and_report E path (in_txn d t s)) d t ∨
  ∃ r, commit_and_report E path (in_txn d t s) = (r, in_txn s t s).
Proof.
  unfold aborts, commit_and_report, commit, try_except, bind, guard, ret, raise, in_txn.
  destruct path; run_guards E I; first [ aborted | right; eauto ].
Qed.

Lemma bind_aborts {A B} E (m : M A) (k : A → M B) w d t :
  aborts E (m w) d t → aborts E (bind m k w) d t.
Proof.
  intros (Hf & exc & s' & H). split; [exact Hf|].
  unfold bind. rewrite H. exists exc, s'. reflexivity.
Qed.

Lemma bind_yields {A B} (m : M A) (k : A → M B) w d t a s' :
  yields (m w) d t a s' → bind m k w = k a (in_txn d t s').
Proof. unfold yields, bind. intros ->. reflexivity. Qed.

Lemma guard_cases E op d t s :
  aborts E (guard E op (in_txn d t s)) d t ∨ yields (guard E op (in_txn d t s)) d t tt s.
Proof.
  unfold aborts, yields, guard, raise, ret.
  destruct (fault E op) eqn:Hfault; [aborted | right; reflexivity].
Qed.

Ltac phase H :=
  destruct H as [H|H];
  [ left; apply bind_aborts; exact H
  | rewrite (bind_yields _ _ _ _ _ _ _ H); clear H ].

Lemma track_usage_cases E path user_id prompt response_text e model d t s :
  let key := (user_id, current_billing_period E user_id) in
  aborts E (track_usage E path user_id prompt response_text e model (in_txn d t s)) d t ∨
  ∃ r before,
    before_ok E s key (value e) before ∧
    let s' := <[key := recorded_row E path user_id prompt response_text e model
                         before (s !! key)]> s in
    track_usage E path user_id prompt response_text e model (in_txn d t s)
    = (r, in_txn s' t s').
Proof.
  intros key. unfold track_usage. fold key.
  pose proof (guard_cases E OpPeriod d t s) as H. phase H.
  pose proof (guard_cases E OpLimits d t s) as H. phase H.
  pose proof (read_current_cases E path key e d t s) as H.
  destruct H as [H|(before & H & Hb)]; [left; apply bind_aborts; exact H|].
  rewrite (bind_yields _ _ _ _ _ _ _ H); clear H.
  pose proof (get_or_create_summary_cases E key e before d t s) as H. phase H.
  set (r0 := base_row (value e) before (s !! key)).
  set (limit := token_limit_of (get_user_limits E user_id) (value e)).
  fold (actual_total prompt response_text).
  set (total := actual_total prompt response_text).
  pose proof (update_counters_cases E path key e limit before total d t
                (<[key := r0]> s) r0 (lookup_insert_eq _ _ _)) as H. phase H.
  set (r1 := counted_row path e limit before total r0).
  set (tracked := tracked_total path e limit before total).
  pose proof (persist_cost_cases E key e model (Tokens.estimate_tokens prompt) tracked d t
                (<[key := r1]> (<[key := r0]> s)) r1 (lookup_insert_eq _ _ _)) as H. phase H.
  set (r2 := costed_row _ _ r1).
  pose proof (update_totals_cases E path key tracked d t
                (<[key := r2]> (<[key := r1]> (<[key := r0]> s))) r2
                (lookup_insert_eq _ _ _)) as H.
  phase H.
  destruct (commit_and_report_cases E path d t
              (<[key := totalled_row tracked r2]>
                 (<[key := r2]> (<[key := r1]> (<[key := r0]> s))))) as [H|(r & H)];
    [left; exact H|].
  right. exists r, before. split; [exact Hb|].
  cbv zeta. rewrite H. rewrite !insert_insert_eq. reflexivity.
Qed.

Lemma get_db_cases E op w :
  (fault E op = true ∧
   get_db E op w = (Raise (OtherException "operation failed"), w)) ∨
  get_db E op w = (Ok tt, in_txn (db w) (EvGetDb :: trace w) (db w)).
Proof.
  unfold get_db, bind, guard, emit, raise, ret, in_txn.
  destruct (fault E op); cbn; eauto.
Qed.

Lemma usage_tracking_cases E path user_id prompt response_text e model w :
  ∃ w', usage_tracking E path user_id prompt response_text e model w = (Ok tt, w') ∧
        accounted E path user_id prompt response_text e model w w'.
Proof.
  unfold usage_tracking, accounted, try_except, try_finally, bind.
  destruct (get_db_cases E OpGetDb w) as [(Hf & ->)| ->].
  { eexists; split; [reflexivity|]. left. split; [exists OpGetDb; exact Hf|]. auto. }
  destruct (track_usage_cases E path user_id prompt response_text e model
              (db w) (EvGetDb :: trace w) (db w))
    as [(Hf & exc & s' & H)|(r & before & Hb & H)].
  - rewrite H. unfold rollback, close, bind, guard, raise, ret, in_txn.
    destruct (fault E OpRollback), (fault E OpClose); cbn;
      (eexists; split; [reflexivity|]); cbn; left; auto.
  - cbv zeta in H. rewrite H.
    unfold rollback, close, bind, guard, raise, ret, in_txn.
    destruct r as [[]|]; destruct (fault E OpRollback), (fault E OpClose); cbn;
      (eexists; split; [reflexivity|]); cbn; right; exists before; auto.
Qed.

(** ** The pre-flight check and the dispatcher *)

Lemma select_provider_raises E exc :
  select_provider E = Raise exc → ∃ msg, exc = RuntimeError msg.
Proof.
  unfold select_provider.
  repeat match goal with
         | |- context [if ?b then _ else _] => destruct b
         | |- context [match first_available E with _ => _ end] =>
             destruct (first_available E)
         end; intros H; inversion H; eauto.
Qed.

(** The check leaves the committed rows alone and calls no vendor. *)
Lemma subscription_check_quiet E user_id prompt p w :
  db (subscription_check E user_id prompt p w).2 = db w ∧
  generated (trace (subscription_check E user_id prompt p w).2) = generated (trace w).
Proof.
  unfold subscription_check, try_except, try_finally, bind.
  destruct (get_db_cases E OpPreGetDb w) as [(Hf & ->)| ->]; [cbn; auto|].
  unfold check_usage_limits, read_row, emit, close, bind, guard, raise, ret, in_txn.
  unfold generated.
  destruct (fault E OpCheckLimits); cbn;
    repeat match goal with
           | |- context [if ?b then _ else _] => destruct b; cbn
           end; auto.
Qed.

Lemma attempt_cases E path p model json_struct user_id prompt system_instructions w :
  match backend E p model json_struct prompt system_instructions with
  | Returned r =>
      ∃ w', attempt E path p model json_struct user_id prompt system_instructions w
            = (Ok r, w') ∧
            attempted E path p model json_struct user_id prompt r w w'
  | Failed msg =>
      attempt E path p model json_struct user_id prompt system_instructions w
      = (Raise (OtherException msg), push (EvGenerate p model json_struct) w)
  end.
Proof.
  unfold attempt, attempted, generate, emit. unfold bind at 1. unfold bind at 1.
  cbn [ret].
  fold (push (EvGenerate p model json_struct) w).
  destruct (backend E p model json_struct prompt system_instructions) as [r|msg];
    [|reflexivity].
  cbn [ret]. unfold bind.
  destruct (truthy r).
  - destruct (usage_tracking_cases E path user_id prompt r (provider_enum p) model
                (push (EvGenerate p model json_struct) w)) as (w' & H & Hacc).
    rewrite H. eauto.
  - cbn. eauto.
Qed.

(** Every run of [llm_text_gen] is one of the seven ways of [served]. *)
Lemma llm_text_gen_served E prompt system_prompt json_struct user_id w :
  served E prompt system_prompt json_struct user_id w
         (llm_text_gen E prompt system_prompt json_struct user_id w).1
         (llm_text_gen E prompt system_prompt json_struct user_id w).2.
Proof.
  remember (llm_text_gen E prompt system_prompt json_struct user_id w) as x eqn:Hx.
  revert Hx. unfold llm_text_gen, lift. unfold bind at 1.
  destruct (select_provider E) as [[p model]|exc] eqn:Hsel.
  2:{ destruct (select_provider_raises E exc Hsel) as [msg ->]. intros ->.
      apply served_unconfigured. exact Hsel. }
  cbn [fst snd].
  destruct user_id as [u|]; [|intros ->; eapply served_anonymous; eauto].
  destruct (String.eqb_spec u "") as [->|Hu]; [intros ->; eapply served_anonymous; eauto|].
  assert (Hmatch : ∀ (X : Type) (a b : X),
             match u with "" => a | String _ _ => b end = b).
  { intros. destruct u; [done|reflexivity]. }
  rewrite Hmatch. unfold bind at 1.
  destruct (subscription_check E u prompt p w) as [[[]|exc] w1] eqn:Hsub.
  2:{ intros ->. eapply served_refused; eauto. }
  unfold try_except at 1.
  set (sys := default default_system_instructions system_prompt).
  pose proof (attempt_cases E primary p model json_struct u prompt sys w1) as Hp.
  destruct (backend E p model json_struct prompt sys) as [r|msg] eqn:Hb.
  { destruct Hp as (w2 & -> & Hatt). intros ->. eapply served_primary; eauto. }
  rewrite Hp.
  destruct (fallback_providers E p) as [|f rest] eqn:Hfb.
  { intros ->. eapply served_exhausted; eauto. }
  unfold try_except.
  pose proof (attempt_cases E fallback f (fallback_model E f) json_struct u prompt sys
                (push (EvGenerate p model json_struct) w1)) as Hf.
  destruct (backend E f (fallback_model E f) json_struct prompt sys) as [r|msg'] eqn:Hb'.
  { destruct Hf as (w2 & -> & Hatt). intros ->. eapply served_fallback; eauto. }
  rewrite Hf. intros ->. eapply served_both_failed; eauto.
Qed.

(** ** Columns of the recorded row *)

Lemma counter_set_counter_eq c v r : counter (set_counter c v r) c = v.
Proof. unfold counter, set_counter; cbn. by rewrite lookup_insert_eq. Qed.

Lemma counter_set_counter_ne c c' v r :
  c ≠ c' → counter (set_counter c v r) c' = counter r c'.
Proof. intros H. unfold counter, set_counter; cbn. by rewrite lookup_insert_ne. Qed.

Lemma cost_set_counter c v r c' : cost (set_counter c v r) c' = cost r c'.
Proof. reflexivity. Qed.

Lemma cost_add_cost_eq c q r : cost (add_cost c q r) c = Qplus (cost r c) q.
Proof. unfold cost at 1, add_cost; cbn. by rewrite lookup_insert_eq. Qed.

Lemma cost_add_cost_ne c c' q r : c ≠ c' → cost (add_cost c q r) c' = cost r c'.
Proof. intros H. unfold cost, add_cost; cbn. by rewrite lookup_insert_ne. Qed.

Lemma counter_costed pn q r c : counter (costed_row pn q r) c = counter r c.
Proof. unfold costed_row. destruct (negb _); reflexivity. Qed.

Lemma calls_not_tokens e e' : value e +:+ "_calls" ≠ value e' +:+ "_tokens".
Proof. destruct e, e'; discriminate. Qed.

Lemma calls_not_total e :
  value e +:+ "_calls" ≠ "total_calls" ∧ value e +:+ "_calls" ≠ "total_tokens".
Proof. destruct e; split; discriminate. Qed.

Lemma tokens_not_total e :
  value e +:+ "_tokens" ≠ "total_calls" ∧ value e +:+ "_tokens" ≠ "total_tokens".
Proof. destruct e; split; discriminate. Qed.

Lemma cost_not_total e : value e +:+ "_cost" ≠ "total_cost".
Proof. destruct e; discriminate. Qed.

Lemma tokens_column_inj e e' : value e +:+ "_tokens" = value e' +:+ "_tokens" → e = e'.
Proof. destruct e, e'; intros H; first [reflexivity | discriminate H]. Qed.

Lemma calls_column_inj e e' : value e +:+ "_calls" = value e' +:+ "_calls" → e = e'.
Proof. destruct e, e'; intros H; first [reflexivity | discriminate H]. Qed.

Lemma cost_column_inj e e' : value e +:+ "_cost" = value e' +:+ "_cost" → e = e'.
Proof. destruct e, e'; intros H; first [reflexivity | discriminate H]. Qed.

Lemma counter_base_frame pn before existing c :
  c ≠ pn +:+ "_calls" → c ≠ pn +:+ "_tokens" →
  counter (base_row pn before existing) c = counter (default new_summary existing) c.
Proof.
  intros H1 H2. destruct existing as [r|]; [|reflexivity]. cbn. unfold sync_row.
  rewrite !counter_set_counter_ne by done. reflexivity.
Qed.

Lemma counter_counted_frame path e limit before total r c :
  c ≠ value e +:+ "_calls" → c ≠ value e +:+ "_tokens" →
  counter (counted_row path e limit before total r) c = counter r c.
Proof.
  intros H1 H2. unfold counted_row. destruct (token_tracked path e);
    rewrite !counter_set_counter_ne by done; reflexivity.
Qed.

Lemma cost_before_costing path e limit before total existing c :
  cost (counted_row path e limit before total (base_row (value e) before existing)) c
  = cost (default new_summary existing) c.
Proof.
  unfold counted_row. destruct (token_tracked path e); destruct existing; reflexivity.
Qed.

(** The columns of [recorded_row], one lemma per column. *)
Section Recorded.

Variables (E : Env) (path : Path) (user_id prompt : string) (response_text : Response)
          (e : APIProvider) (model : string) (before : Z * Z)
          (existing : option UsageSummary).

Lemma recorded_counter_frame c :
  c ≠ value e +:+ "_calls" → c ≠ value e +:+ "_tokens" →
  c ≠ "total_calls" → c ≠ "total_tokens" →
  counter (recorded_row E path user_id prompt response_text e model before existing) c
  = counter (default new_summary existing) c.
Proof.
  intros H1 H2 H3 H4. unfold recorded_row, totalled_row.
  rewrite !counter_set_counter_ne by done.
  rewrite counter_costed, counter_counted_frame, counter_base_frame by done.
  reflexivity.
Qed.

Lemma recorded_calls :
  counter (recorded_row E path user_id prompt response_text e model before existing)
          (value e +:+ "_calls")
  = before.1 + 1.
Proof.
  pose proof (calls_not_total e) as [H1 H2]. pose proof (calls_not_tokens e e) as H3.
  unfold recorded_row, totalled_row.
  rewrite !counter_set_counter_ne by done. rewrite counter_costed.
  unfold counted_row. destruct (token_tracked path e).
  - rewrite counter_set_counter_ne by done. apply counter_set_counter_eq.
  - apply counter_set_counter_eq.
Qed.

Lemma recorded_tokens :
  counter (recorded_row E path user_id prompt response_text e model before existing)
          (value e +:+ "_tokens")
  = if token_tracked path e
    then (cap_tokens (token_limit_of (get_user_limits E user_id) (value e))
                     before.2 (actual_total prompt response_text)).1
    else match existing with Some _ => before.2 | None => 0 end.
Proof.
  pose proof (tokens_not_total e) as [H1 H2]. pose proof (calls_not_tokens e e) as H3.
  unfold recorded_row, totalled_row.
  rewrite !counter_set_counter_ne by done. rewrite counter_costed.
  unfold counted_row. destruct (token_tracked path e).
  - apply counter_set_counter_eq.
  - rewrite counter_set_counter_ne by done.
    destruct existing as [r|]; [|reflexivity]. cbn. unfold sync_row.
    apply counter_set_counter_eq.
Qed.

Lemma recorded_total_calls :
  counter (recorded_row E path user_id prompt response_text e model before existing)
          "total_calls"
  = counter (default new_summary existing) "total_calls" + 1.
Proof.
  pose proof (calls_not_total e) as [H1 H2]. pose proof (tokens_not_total e) as [H3 H4].
  unfold recorded_row, totalled_row.
  rewrite counter_set_counter_ne by done. rewrite counter_set_counter_eq.
  rewrite counter_costed, counter_counted_frame, counter_base_frame by done.
  reflexivity.
Qed.

Lemma recorded_total_tokens :
  counter (recorded_row E path user_id prompt response_text e model before existing)
          "total_tokens"
  = counter (default new_summary existing) "total_tokens"
    + tracked_total path e (token_limit_of (get_user_limits E user_id) (value e))
                    before (actual_total prompt response_text).
Proof.
  pose proof (calls_not_total e) as [H1 H2]. pose proof (tokens_not_total e) as [H3 H4].
  unfold recorded_row, totalled_row.
  rewrite counter_set_counter_eq.
  rewrite counter_costed, counter_counted_frame, counter_base_frame by done.
  reflexivity.
Qed.

Lemma recorded_cost_frame c :
  c ≠ value e +:+ "_cost" → c ≠ "total_cost" →
  cost (recorded_row E path user_id prompt response_text e model before existing) c
  = cost (default new_summary existing) c.
Proof.
  intros H1 H2. unfold recorded_row, totalled_row.
  rewrite !cost_set_counter. unfold costed_row.
  destruct (negb _).
  - rewrite !cost_add_cost_ne by done. apply cost_before_costing.
  - apply cost_before_costing.
Qed.

Lemma recorded_cost :
  cost (recorded_row E path user_id prompt response_text e model before existing)
       (value e +:+ "_cost")
  = let tracked :=
      tracked_total path e (token_limit_of (get_user_limits E user_id) (value e))
                    before (actual_total prompt response_text) in
    let c := cost_of E e model (Tokens.estimate_tokens prompt) tracked in
    if negb (Qle_bool c 0)
    then Qplus (cost (default new_summary existing) (value e +:+ "_cost")) c
    else cost (default new_summary existing) (value e +:+ "_cost").
Proof.
  pose proof (cost_not_total e) as H.
  unfold recorded_row, totalled_row.
  rewrite !cost_set_counter. unfold costed_row. cbv zeta.
  destruct (negb _).
  - rewrite cost_add_cost_ne by done. rewrite cost_add_cost_eq.
    rewrite cost_before_costing. reflexivity.
  - apply cost_before_costing.
Qed.

End Recorded.

(** ** Consequences for the stored rows *)


Lemma cap_tokens_clamped limit b t :
  0 < limit → limit < b + t → cap_tokens limit b t = (limit, Z.max (limit - b) 0).
Proof.
  intros H1 H2. unfold cap_tokens.
  destruct (0 <? limit) eqn:E1; [|lia].
  destruct (limit <? b + t) eqn:E2; [|lia]. cbn.
  destruct (limit - b <? 0) eqn:E3; f_equal; lia.
Qed.

Lemma faultless_not_faulty E : faultless E → ¬ faulty E.
Proof. intros H [op Hop]. rewrite H in Hop. discriminate. Qed.

Lemma accounted_generated E path user_id prompt r e model w w' :
  accounted E path user_id prompt r e model w w' →
  generated (trace w') = generated (trace w).
Proof.
  intros [(_ & _ & [-> | ->]) | (before & _ & -> & _)]; reflexivity.
Qed.

Lemma attempted_generated E path p model json_struct user_id prompt r w w' :
  attempted E path p model json_struct user_id prompt r w w' →
  generated (trace w') = EvGenerate p model json_struct :: generated (trace w).
Proof.
  unfold attempted. destruct (truthy r).
  - intros H. apply accounted_generated in H. exact H.
  - intros ->. reflexivity.
Qed.

Lemma accounted_faultless E path user_id prompt r e model w w' :
  faultless E →
  accounted E path user_id prompt r e model w w' →
  trace w' = EvGetDb :: trace w ∧
  db w' = <[row_key E user_id :=
              recorded_row E path user_id prompt r e model
                (stored_before (db w) (row_key E user_id) (value e))
                (db w !! row_key E user_id)]> (db w).
Proof.
  intros Hf [(Hfaulty & _) | (before & Hb & Ht & Hd)].
  - destruct (faultless_not_faulty E Hf Hfaulty).
  - destruct Hb as [-> | (Hc & _)]; [auto|]. rewrite Hf in Hc. discriminate.
Qed.

Lemma usage_tracking_faultless E path user_id prompt r e model w :
  faultless E →
  trace (usage_tracking E path user_id prompt r e model w).2 = EvGetDb :: trace w ∧
  db (usage_tracking E path user_id prompt r e model w).2 =
  <[row_key E user_id :=
      recorded_row E path user_id prompt r e model
        (stored_before (db w) (row_key E user_id) (value e))
        (db w !! row_key E user_id)]> (db w).
Proof.
  intros Hf.
  destruct (usage_tracking_cases E path user_id prompt r e model w) as (w' & -> & Hacc).
  apply accounted_faultless; assumption.
Qed.

Lemma stored_counter_insert_eq (d : Table) key row c :
  stored_counter (<[key := row]> d) key c = counter row c.
Proof. unfold stored_counter. by rewrite lookup_insert_eq. Qed.

Lemma stored_counter_insert_ne (d : Table) key key' row c :
  key ≠ key' → stored_counter (<[key := row]> d) key' c = stored_counter d key' c.
Proof. intros H. unfold stored_counter. by rewrite lookup_insert_ne. Qed.

Lemma stored_cost_insert_eq (d : Table) key row c :
  stored_cost (<[key := row]> d) key c = cost row c.
Proof. unfold stored_cost. by rewrite lookup_insert_eq. Qed.

Lemma stored_cost_insert_ne (d : Table) key key' row c :
  key ≠ key' → stored_cost (<[key := row]> d) key' c = stored_cost d key' c.
Proof. intros H. unfold stored_cost. by rewrite lookup_insert_ne. Qed.

Lemma stored_before_counters (d : Table) key pn :
  stored_before d key pn =
  (stored_counter d key (pn +:+ "_calls"), stored_counter d key (pn +:+ "_tokens")).
Proof. unfold stored_before, stored_counter. destruct (d !! key); reflexivity. Qed.






(** ** The pre-flight check, case by case *)

(** The events of the check: a session, then at most one limit check with
    the worst-case total. *)
Lemma subscription_check_trace E user_id prompt p w :
  let total := Tokens.estimated_total_tokens Tokens.max_tokens prompt in
  trace (subscription_check E user_id prompt p w).2 = trace w ∨
  trace (subscription_check E user_id prompt p w).2 = EvGetDb :: trace w ∨
  trace (subscription_check E user_id prompt p w).2
  = EvCheckLimits user_id (provider_enum p) total :: EvGetDb :: trace w.
Proof.
  unfold subscription_check, try_except, try_finally, bind.
  destruct (get_db_cases E OpPreGetDb w) as [(Hf & ->)| ->]; [cbn; auto|].
  unfold check_usage_limits, read_row, emit, close, bind, guard, raise, ret, in_txn.
  destruct (fault E OpCheckLimits); cbn;
    repeat match goal with
           | |- context [if ?b then _ else _] => destruct b; cbn
           end; auto.
Qed.

Lemma subscription_check_denies E user_id prompt p w :
  fault E OpPreGetDb = false →
  fault E OpCheckLimits = false →
  fault E OpPreClose = false →
  over_quota E (db w) user_id prompt (provider_enum p) →
  ∃ detail,
    subscription_check E user_id prompt p w
    = (Raise (HTTPException 429 detail),
       {| db := db w; session := None;
          trace := EvCheckLimits user_id (provider_enum p)
                     (Tokens.estimated_total_tokens Tokens.max_tokens prompt)
                   :: EvGetDb :: trace w |}) ∧
    provider detail = actual_provider_name p ∧
    message detail = error detail ∧
    message detail ≠ "" ∧
    usage_info detail ≠ ∅.
Proof.
  intros H1 H2 H3 Hover.
  unfold subscription_check, try_except, try_finally, bind.
  destruct (get_db_cases E OpPreGetDb w) as [(Hf & _)| ->]; [congruence|].
  unfold check_usage_limits, read_row, emit, close, bind, guard, raise, ret, in_txn.
  rewrite H2, H3. cbn.
  unfold over_quota, stored_counter, row_key in Hover.
  set (cl := call_limit_of _ _) in *. set (tl := token_limit_of _ _) in *.
  set (row := default new_summary _) in *.
  assert (Hname : (actual_provider_name p =? "")%string = false) by (destruct p; reflexivity).
  destruct ((0 <? cl) && (cl <? counter row (value (provider_enum p) +:+ "_calls") + 1))
    eqn:Hc; cbn.
  - eexists; split; [reflexivity|]. cbn. rewrite Hname.
    repeat split; try (destruct p; discriminate).
    all: intros Hempty; apply (f_equal (fun m => m !! "current_calls")) in Hempty;
      rewrite lookup_insert_eq, lookup_empty in Hempty; discriminate.
  - destruct Hover as [[? ?]|[Ht1 Ht2]]; [lia|].
    destruct ((0 <? tl) && (tl <? _)) eqn:Ht; [|lia]. cbn.
    eexists; split; [reflexivity|]. cbn. rewrite Hname.
    repeat split; try (destruct p; discriminate).
    all: intros Hempty; apply (f_equal (fun m => m !! "current_tokens")) in Hempty;
      rewrite lookup_insert_eq, lookup_empty in Hempty; discriminate.
Qed.

(** ** The dispatcher after a successful selection *)

Lemma llm_text_gen_selected E prompt system_prompt json_struct u w p model :
  select_provider E = Ok (p, model) →
  u ≠ "" →
  llm_text_gen E prompt system_prompt json_struct (Some u) w =
  (subscription_check E u prompt p ;;
   let system_instructions := default default_system_instructions system_prompt in
   try_except
     (attempt E primary p model json_struct u prompt system_instructions)
     (fun provider_error =>
        match fallback_providers E p with
        | fallback_provider :: _ =>
            try_except
              (attempt E fallback fallback_provider (fallback_model E fallback_provider)
                       json_struct u prompt system_instructions)
              (fun fallback_error => raise all_failed)
        | [] => raise all_failed
        end)) w.
Proof.
  intros Hsel Hu. unfold llm_text_gen, lift. unfold bind at 1. rewrite Hsel. cbn [fst snd].
  destruct u; [done|reflexivity].
Qed.

Lemma llm_text_gen_refused E prompt system_prompt json_struct u w p model exc w1 :
  select_provider E = Ok (p, model) →
  u ≠ "" →
  subscription_check E u prompt p w = (Raise exc, w1) →
  llm_text_gen E prompt system_prompt json_struct (Some u) w = (Raise exc, w1).
Proof.
  intros Hsel Hu Hsub. rewrite (llm_text_gen_selected _ _ _ _ _ _ _ _ Hsel Hu).
  unfold bind. rewrite Hsub. reflexivity.
Qed.

Lemma llm_text_gen_admitted E prompt system_prompt json_struct u w p model w1 :
  select_provider E = Ok (p, model) →
  u ≠ "" →
  subscription_check E u prompt p w = (Ok tt, w1) →
  llm_text_gen E prompt system_prompt json_struct (Some u) w =
  (let system_instructions := default default_system_instructions system_prompt in
   try_except
     (attempt E primary p model json_struct u prompt system_instructions)
     (fun provider_error =>
        match fallback_providers E p with
        | fallback_provider :: _ =>
            try_except
              (attempt E fallback fallback_provider (fallback_model E fallback_provider)
                       json_struct u prompt system_instructions)
              (fun fallback_error => raise all_failed)
        | [] => raise all_failed
        end)) w1.
Proof.
  intros Hsel Hu Hsub. rewrite (llm_text_gen_selected _ _ _ _ _ _ _ _ Hsel Hu).
  unfold bind. rewrite Hsub. reflexivity.
Qed.

(** C3 fails as stated: for a prompt of 3000 words the input estimate is
    3900 tokens, one and a half times that is 5850, and the total submitted
    to the limit check is 3900 + 4000 = 7900, not 3900 + 5850. *)
Lemma worst_case_is_not_the_larger :
  ∃ n,
    trace (subscription_check (example_env "" ["gemini"] (replies 5) ∅ no_faults)
             "u" (Tokens.words 3000) google (example_world ∅)).2
    = [EvCheckLimits "u" GEMINI n; EvGetDb] ∧
    n = 7900 ∧
    spec_worst_case Tokens.max_tokens (Tokens.words 3000) = 9750.
Proof. exists 7900. vm_compute. auto. Qed.

(** C3, amended: the total checked before the call is the input estimate
    plus the configured maximum of output tokens (4000); one and a half
    times the input estimate stands in only when no maximum is configured,
    and the larger of the two is not taken.  That total is the one every
    limit check of a request carries. *)
Theorem preflight_total_uses_max_tokens E user_id prompt p w :
  let input_tokens := Tokens.estimate_tokens prompt in
  let checked := subscription_check E user_id prompt p w in
  Tokens.estimated_total_tokens Tokens.max_tokens prompt = input_tokens + 4000 ∧
  Tokens.estimated_total_tokens 0 prompt
  = input_tokens + Tokens.one_and_a_half input_tokens ∧
  (trace checked.2 = trace w ∨
   trace checked.2 = EvGetDb :: trace w ∨
   trace checked.2
   = EvCheckLimits user_id (provider_enum p) (input_tokens + 4000) :: EvGetDb :: trace w).
Proof.
  cbv zeta. split; [reflexivity|]. split; [reflexivity|].
  apply subscription_check_trace.
Qed.

(** C8: without any credentialed provider, or without a user identity, the
    call fails at once with a [RuntimeError] and the world is untouched: no
    session is opened, no limit is checked, no vendor is called. *)
Theorem configuration_error_before_any_work E prompt system_prompt json_struct user_id w :
  available_providers E = [] ∨ user_id = None ∨ user_id = Some "" →
  ∃ msg,
    llm_text_gen E prompt system_prompt json_struct user_id w = (Raise (RuntimeError msg), w).
Proof.
  intros H. unfold llm_text_gen, lift. unfold bind at 1.
  destruct (select_provider E) as [[p model]|exc] eqn:Hsel.
  2:{ destruct (select_provider_raises E exc Hsel) as [msg ->]. eauto. }
  destruct H as [Hnone | [-> | ->]]; [|unfold user_id_required; eauto..].
  exfalso. revert Hsel.
  assert (Hm : ∀ q, member q [] = false).
  { intros q. apply bool_decide_eq_false. inversion 1. }
  unfold select_provider, first_available. rewrite Hnone, !Hm.
  destruct (lower (GPT_PROVIDER E) =? "")%string; discriminate.
Qed.

Lemma configuration_error_before_any_work_witness :
  ∃ msg,
    llm_text_gen (example_env "google" [] (replies 5) ∅ no_faults)
                 "Write a haiku" None false (Some "u") (example_world ∅)
    = (Raise (RuntimeError msg), example_world ∅).
Proof.
  apply (configuration_error_before_any_work
           (example_env "google" [] (replies 5) ∅ no_faults)).
  left. reflexivity.
Defined.

(** C5 fails as stated: with a ceiling of 8000 tokens and nothing stored, a
    prompt of 3000 words has a worst-case estimate of 9750 tokens, over
    the allowance, yet the total checked is 3900 + 4000 = 7900: the
    request is admitted, the vendor is called and usage is recorded. *)
Lemma worst_case_over_the_allowance_is_admitted :
  let E := example_env "" ["gemini"] (replies 5) {[ "gemini_tokens" := 8000 ]} no_faults in
  let prompt := Tokens.words 3000 in
  let w := example_world ∅ in
  let out := llm_text_gen E prompt None false (Some "u") w in
  spec_worst_case Tokens.max_tokens prompt = 9750 ∧
  spec_over_quota E (db w) "u" prompt GEMINI ∧
  Tokens.estimated_total_tokens Tokens.max_tokens prompt = 7900 ∧
  ¬ over_quota E (db w) "u" prompt GEMINI ∧
  out.1 = Ok (Text (Tokens.words 5)) ∧
  provider_calls (trace out.2) = 1%nat ∧
  stored_counter (db out.2) ("u", "2026-11") "gemini_calls" = 1.
Proof.
  cbv zeta. split; [vm_compute; reflexivity|]. split.
  { right. split; vm_compute; reflexivity. }
  split; [vm_compute; reflexivity|]. split.
  { intros [[H _]|[_ H]]; vm_compute in H; discriminate H. }
  split; [vm_compute; reflexivity|]. split; vm_compute; reflexivity.
Qed.

(** C5, amended: a request over its allowance by the total that the code
    checks - the input estimate plus the 4000 maximum output tokens, not
    the worst-case estimate - or by the next call is denied before any
    vendor is called: the outcome is an [HTTPException] with status 429,
    carrying a message, the provider's name and the usage information; the
    committed rows are unchanged and the only events are the session and
    the limit check. *)
Theorem denied_before_any_provider_call
    E prompt system_prompt json_struct u w p model :
  select_provider E = Ok (p, model) →
  u ≠ "" →
  fault E OpPreGetDb = false →
  fault E OpCheckLimits = false →
  fault E OpPreClose = false →
  over_quota E (db w) u prompt (provider_enum p) →
  ∃ detail w',
    llm_text_gen E prompt system_prompt json_struct (Some u) w
    = (Raise (HTTPException 429 detail), w') ∧
    db w' = db w ∧
    trace w' = EvCheckLimits u (provider_enum p)
                 (Tokens.estimated_total_tokens Tokens.max_tokens prompt)
               :: EvGetDb :: trace w ∧
    provider_calls (trace w') = provider_calls (trace w) ∧
    provider detail = actual_provider_name p ∧
    message detail ≠ "" ∧
    usage_info detail ≠ ∅.
Proof.
  intros Hsel Hu H1 H2 H3 Hover.
  destruct (subscription_check_denies E u prompt p w H1 H2 H3 Hover)
    as (detail & Hsub & Hp & _ & Hm & Hi).
  exists detail. eexists. split.
  { eapply llm_text_gen_refused; eassumption. }
  cbn. repeat split; assumption.
Qed.

Lemma denied_before_any_provider_call_witness :
  ∃ detail w',
    llm_text_gen (example_env "" ["gemini"] (replies 5) {[ "gemini_tokens" := 1000 ]} no_faults)
                 (Tokens.words 1000) None false (Some "u") (example_world ∅)
    = (Raise (HTTPException 429 detail), w') ∧
    db w' = db (example_world ∅) ∧
    trace w' = [EvCheckLimits "u" GEMINI 5300; EvGetDb] ∧
    provider_calls (trace w') = 0%nat ∧
    provider detail = "gemini" ∧
    message detail ≠ "" ∧
    usage_info detail ≠ ∅.
Proof.
  apply (denied_before_any_provider_call
           (example_env "" ["gemini"] (replies 5) {[ "gemini_tokens" := 1000 ]} no_faults)
           (Tokens.words 1000) None false "u" (example_world ∅) google
           "gemini-2.0-flash-001").
  - reflexivity.
  - discriminate.
  - reflexivity.
  - reflexivity.
  - reflexivity.
  - right. vm_compute. split; reflexivity.
Defined.

(** ** Vendor calls of a request *)

Lemma subscription_check_generated E u prompt p w x w1 :
  subscription_check E u prompt p w = (x, w1) →
  generated (trace w1) = generated (trace w) ∧ db w1 = db w.
Proof.
  intros H. pose proof (subscription_check_quiet E u prompt p w) as [Hd Hg].
  rewrite H in Hd, Hg. auto.
Qed.

(** What a request adds to the vendor calls of the trace. *)
Lemma served_generated E prompt system_prompt json_struct user_id w res w' :
  served E prompt system_prompt json_struct user_id w res w' →
  ∃ calls, generated (trace w') = calls ++ generated (trace w) ∧ (length calls <= 2)%nat.
Proof.
  intros Hs. destruct Hs.
  - exists []. cbn. auto.
  - exists []. cbn. auto.
  - exists []. cbn. split; [|lia]. eapply subscription_check_generated; eassumption.
  - exists [EvGenerate p model json_struct]. split; [|cbn; lia].
    erewrite attempted_generated by eassumption. cbn. f_equal.
    eapply subscription_check_generated; eassumption.
  - exists [EvGenerate p model json_struct]. split; [|cbn; lia].
    cbn. f_equal. eapply subscription_check_generated; eassumption.
  - exists [EvGenerate f (fallback_model E f) json_struct; EvGenerate p model json_struct].
    split; [|cbn; lia]. cbn. do 2 f_equal.
    eapply subscription_check_generated; eassumption.
  - exists [EvGenerate f (fallback_model E f) json_struct; EvGenerate p model json_struct].
    split; [|cbn; lia].
    erewrite attempted_generated by eassumption. cbn. do 2 f_equal.
    eapply subscription_check_generated; eassumption.
Qed.

(** The head of the fallback candidates is the first provider of the
    priority order that has credentials and is not the one that failed. *)
Lemma fallback_by_priority E failed f rest :
  fallback_providers E failed = f :: rest →
  f ≠ failed ∧ f ∈ available_providers E ∧
  ∃ earlier later,
    [google; openrouter; huggingface] = earlier ++ f :: later ∧
    ∀ g, g ∈ earlier → g = failed ∨ g ∉ available_providers E.
Proof.
  unfold fallback_providers.
  assert (Hyes : ∀ g, member g (available_providers E) && negb (bool_decide (g = failed)) = true
                      → g ≠ failed ∧ g ∈ available_providers E).
  { intros g Hg. apply andb_prop in Hg as [H1 H2].
    apply bool_decide_eq_true in H1. apply negb_true_iff, bool_decide_eq_false in H2. auto. }
  assert (Hno : ∀ g, ¬ (member g (available_providers E) && negb (bool_decide (g = failed)) = true)
                     → g = failed ∨ g ∉ available_providers E).
  { intros g Hg. destruct (decide (g = failed)) as [|Hne]; [auto|right].
    intros Hin. apply Hg. apply andb_true_intro. split.
    - apply bool_decide_eq_true. exact Hin.
    - apply negb_true_iff, bool_decide_eq_false. exact Hne. }
  rewrite !filter_cons, filter_nil.
  destruct (decide (member google _ && _ = true)) as [Hg|Hg].
  { intros [= <- _]. destruct (Hyes _ Hg). repeat split; try assumption.
    exists [], [openrouter; huggingface]. split; [reflexivity|]. inversion 1. }
  destruct (decide (member openrouter _ && _ = true)) as [Ho|Ho].
  { intros [= <- _]. destruct (Hyes _ Ho). repeat split; try assumption.
    exists [google], [huggingface]. split; [reflexivity|].
    intros g Hin. apply list_elem_of_singleton in Hin as ->. auto. }
  destruct (decide (member huggingface _ && _ = true)) as [Hh|Hh]; [|discriminate].
  intros [= <- _]. destruct (Hyes _ Hh). repeat split; try assumption.
  exists [google; openrouter], []. split; [reflexivity|].
  intros g Hin. apply elem_of_cons in Hin as [->|Hin]; [auto|].
  apply list_elem_of_singleton in Hin as ->. auto.
Qed.

Lemma fallback_providers_nil E failed :
  fallback_providers E failed = [] → ∀ g, g ∈ available_providers E → g = failed.
Proof.
  unfold fallback_providers. intros Hnil g Hg.
  destruct (decide (g = failed)) as [|Hne]; [assumption|exfalso].
  assert (Hin : g ∈ filter (fun q => member q (available_providers E)
                                     && negb (bool_decide (q = failed)) = true)
                           [google; openrouter; huggingface]).
  { apply list_elem_of_filter. split.
    - apply andb_true_intro. split.
      + apply bool_decide_eq_true. exact Hg.
      + apply negb_true_iff, bool_decide_eq_false. exact Hne.
    - destruct g; rewrite !elem_of_cons; auto. }
  rewrite Hnil in Hin. inversion Hin.
Qed.

(** C6: a request makes at most two vendor calls.  After the first
    provider has failed, the one alternate is the first of google,
    openrouter, huggingface that has credentials and is not the provider
    that failed; it is called once; there is no alternate only when no
    other provider has credentials; without an alternate, or when the
    alternate fails too, the request ends with the all-providers-failed
    error and no further call. *)
Theorem at_most_one_fallback E prompt system_prompt json_struct user_id w :
  let system_instructions := default default_system_instructions system_prompt in
  let out := llm_text_gen E prompt system_prompt json_struct user_id w in
  (provider_calls (trace out.2) <= provider_calls (trace w) + 2)%nat ∧
  ∀ u p model w1 msg,
    user_id = Some u → u ≠ "" →
    select_provider E = Ok (p, model) →
    subscription_check E u prompt p w = (Ok tt, w1) →
    backend E p model json_struct prompt system_instructions = Failed msg →
    match fallback_providers E p with
    | [] =>
        (∀ g, g ∈ available_providers E → g = p) ∧
        out = (Raise all_failed, push (EvGenerate p model json_struct) w1)
    | f :: _ =>
        (f ≠ p ∧ f ∈ available_providers E ∧
         ∃ earlier later,
           [google; openrouter; huggingface] = earlier ++ f :: later ∧
           ∀ g, g ∈ earlier → g = p ∨ g ∉ available_providers E) ∧
        generated (trace out.2)
        = EvGenerate f (fallback_model E f) json_struct
          :: EvGenerate p model json_struct :: generated (trace w) ∧
        ∀ msg',
          backend E f (fallback_model E f) json_struct prompt system_instructions
          = Failed msg' →
          out = (Raise all_failed,
                 push (EvGenerate f (fallback_model E f) json_struct)
                      (push (EvGenerate p model json_struct) w1))
    end.
Proof.
  cbv zeta. split.
  { destruct (served_generated _ _ _ _ _ _ _ _
                (llm_text_gen_served E prompt system_prompt json_struct user_id w))
      as (calls & Hc & Hlen).
    unfold provider_calls. fold (generated (trace w)).
    fold (generated (trace (llm_text_gen E prompt system_prompt json_struct user_id w).2)).
    rewrite Hc, length_app. lia. }
  intros u p model w1 msg -> Hu Hsel Hsub Hfail.
  remember (llm_text_gen E prompt system_prompt json_struct (Some u) w) as out eqn:Hout.
  rewrite (llm_text_gen_admitted _ _ _ _ _ _ _ _ _ Hsel Hu Hsub) in Hout. cbv zeta in Hout.
  set (sys := default default_system_instructions system_prompt) in *.
  unfold try_except at 1 in Hout.
  pose proof (attempt_cases E primary p model json_struct u prompt sys w1) as Hp.
  rewrite Hfail in Hp. rewrite Hp in Hout.
  destruct (subscription_check_generated _ _ _ _ _ _ _ Hsub) as [Hg1 _].
  destruct (fallback_providers E p) as [|f rest] eqn:Hfb.
  { split; [apply fallback_providers_nil; exact Hfb|exact Hout]. }
  split; [eapply fallback_by_priority; eassumption|].
  unfold try_except in Hout.
  pose proof (attempt_cases E fallback f (fallback_model E f) json_struct u prompt sys
                (push (EvGenerate p model json_struct) w1)) as Hf.
  destruct (backend E f (fallback_model E f) json_struct prompt sys) as [r|msg'].
  - destruct Hf as (w2 & Hf & Hatt). rewrite Hf in Hout. subst out.
    split; [|discriminate].
    cbn [snd]. rewrite <- Hg1. erewrite attempted_generated by eassumption. reflexivity.
  - rewrite Hf in Hout. subst out. split; [rewrite <- Hg1; reflexivity|]. reflexivity.
Qed.

Lemma at_most_one_fallback_witness :
  llm_text_gen (example_env "" ["gemini"; "hf_token"; "openrouter"] all_down ∅ no_faults)
               "Write a haiku" None false (Some "u") (example_world ∅)
  = (Raise all_failed,
     push (EvGenerate openrouter "openai/gpt-4-turbo" false)
          (push (EvGenerate google "gemini-2.0-flash-001" false)
                {| db := db (example_world ∅); session := None;
                   trace := [EvCheckLimits "u" GEMINI 4003; EvGetDb] |})).
Proof.
  pose proof (proj2 (at_most_one_fallback
                       (example_env "" ["gemini"; "hf_token"; "openrouter"] all_down ∅ no_faults)
                       "Write a haiku" None false (Some "u") (example_world ∅))
                "u" google "gemini-2.0-flash-001"
                {| db := db (example_world ∅); session := None;
                   trace := [EvCheckLimits "u" GEMINI 4003; EvGetDb] |}
                "503 Service Unavailable"
                eq_refl ltac:(discriminate) eq_refl eq_refl eq_refl) as H.
  cbv zeta in H.
  change (fallback_providers
            (example_env "" ["gemini"; "hf_token"; "openrouter"] all_down ∅ no_faults) google)
    with [openrouter; huggingface] in H.
  destruct H as (_ & _ & H). exact (H "503 Service Unavailable" eq_refl).
Defined.

(** C7: once a provider has returned, whatever the operations of the
    accounting do - any of them may raise - the accounting block itself
    returns normally and the caller gets the provider's response, from the
    first call as from the fallback call. *)
Theorem ledger_fault_never_blocks E prompt system_prompt json_struct u w p model w1 r :
  let system_instructions := default default_system_instructions system_prompt in
  let out := llm_text_gen E prompt system_prompt json_struct (Some u) w in
  select_provider E = Ok (p, model) →
  u ≠ "" →
  subscription_check E u prompt p w = (Ok tt, w1) →
  (∀ path e model' w0, (usage_tracking E path u prompt r e model' w0).1 = Ok tt) ∧
  (backend E p model json_struct prompt system_instructions = Returned r → out.1 = Ok r) ∧
  (∀ msg f rest,
     backend E p model json_struct prompt system_instructions = Failed msg →
     fallback_providers E p = f :: rest →
     backend E f (fallback_model E f) json_struct prompt system_instructions = Returned r →
     out.1 = Ok r).
Proof.
  cbv zeta. intros Hsel Hu Hsub. split.
  { intros path e model' w0.
    destruct (usage_tracking_cases E path u prompt r e model' w0) as (w' & -> & _).
    reflexivity. }
  remember (llm_text_gen E prompt system_prompt json_struct (Some u) w) as out eqn:Hout.
  rewrite (llm_text_gen_admitted _ _ _ _ _ _ _ _ _ Hsel Hu Hsub) in Hout. cbv zeta in Hout.
  set (sys := default default_system_instructions system_prompt) in *.
  unfold try_except at 1 in Hout.
  pose proof (attempt_cases E primary p model json_struct u prompt sys w1) as Hp.
  split.
  - intros Hb. rewrite Hb in Hp. destruct Hp as (w2 & Hp & _).
    rewrite Hp in Hout. subst out. reflexivity.
  - intros msg f rest Hb Hfb Hb'. rewrite Hb in Hp. rewrite Hp, Hfb in Hout.
    unfold try_except in Hout.
    pose proof (attempt_cases E fallback f (fallback_model E f) json_struct u prompt sys
                  (push (EvGenerate p model json_struct) w1)) as Hf.
    rewrite Hb' in Hf. destruct Hf as (w2 & Hf & _).
    rewrite Hf in Hout. subst out. reflexivity.
Qed.

Lemma ledger_fault_never_blocks_witness :
  (llm_text_gen (example_env "" ["gemini"] (replies 5) ∅ accounting_faults)
                "Write a haiku" None false (Some "u") (example_world ∅)).1
  = Ok (Text (Tokens.words 5)).
Proof.
  apply (proj1 (proj2 (ledger_fault_never_blocks
           (example_env "" ["gemini"] (replies 5) ∅ accounting_faults)
           "Write a haiku" None false "u" (example_world ∅) google "gemini-2.0-flash-001"
           {| db := db (example_world ∅); session := None;
              trace := [EvCheckLimits "u" GEMINI 4003; EvGetDb] |}
           (Text (Tokens.words 5))
           eq_refl ltac:(discriminate) eq_refl))).
  reflexivity.
Defined.

(** ** What a request leaves alone *)

Lemma accounted_counter_frame E path u prompt r e model w w' key c :
  accounted E path u prompt r e model w w' →
  c ≠ value e +:+ "_calls" → c ≠ value e +:+ "_tokens" →
  c ≠ "total_calls" → c ≠ "total_tokens" →
  stored_counter (db w') key c = stored_counter (db w) key c.
Proof.
  intros [(_ & -> & _) | (before & _ & _ & ->)] H1 H2 H3 H4; [reflexivity|].
  destruct (decide ((u, current_billing_period E u) = key)) as [<-|Hk].
  - rewrite stored_counter_insert_eq. rewrite recorded_counter_frame by done. reflexivity.
  - rewrite stored_counter_insert_ne by done. reflexivity.
Qed.

Lemma accounted_cost_frame E path u prompt r e model w w' key c :
  accounted E path u prompt r e model w w' →
  c ≠ value e +:+ "_cost" → c ≠ "total_cost" →
  stored_cost (db w') key c = stored_cost (db w) key c.
Proof.
  intros [(_ & -> & _) | (before & _ & _ & ->)] H1 H2; [reflexivity|].
  destruct (decide ((u, current_billing_period E u) = key)) as [<-|Hk].
  - rewrite stored_cost_insert_eq. rewrite recorded_cost_frame by done. reflexivity.
  - rewrite stored_cost_insert_ne by done. reflexivity.
Qed.

Lemma attempted_counter_frame E path p model json_struct u prompt r w w' key c :
  attempted E path p model json_struct u prompt r w w' →
  c ≠ value (provider_enum p) +:+ "_calls" → c ≠ value (provider_enum p) +:+ "_tokens" →
  c ≠ "total_calls" → c ≠ "total_tokens" →
  stored_counter (db w') key c = stored_counter (db w) key c.
Proof.
  unfold attempted. destruct (truthy r).
  - intros H H1 H2 H3 H4.
    rewrite (accounted_counter_frame _ _ _ _ _ _ _ _ _ key c H) by done. reflexivity.
  - intros -> _ _ _ _. reflexivity.
Qed.

Lemma attempted_cost_frame E path p model json_struct u prompt r w w' key c :
  attempted E path p model json_struct u prompt r w w' →
  c ≠ value (provider_enum p) +:+ "_cost" → c ≠ "total_cost" →
  stored_cost (db w') key c = stored_cost (db w) key c.
Proof.
  unfold attempted. destruct (truthy r).
  - intros H H1 H2.
    rewrite (accounted_cost_frame _ _ _ _ _ _ _ _ _ key c H) by done. reflexivity.
  - intros -> _ _. reflexivity.
Qed.

Lemma provider_enum_inj p q : provider_enum p = provider_enum q → p = q.
Proof. destruct p, q; intros H; first [reflexivity | discriminate H]. Qed.

Lemma fallback_tracks_every_provider e : token_tracked fallback e = true.
Proof. destruct e; reflexivity. Qed.

Lemma served_counter_frame E prompt system_prompt json_struct user_id w res w' key c :
  served E prompt system_prompt json_struct user_id w res w' →
  unwritten_counter c →
  stored_counter (db w') key c = stored_counter (db w) key c.
Proof.
  intros Hs Hc.
  assert (Hq : ∀ u p w1 x, subscription_check E u prompt p w = (x, w1) → db w1 = db w).
  { intros u p w1 x Hsub. eapply subscription_check_generated; eassumption. }
  destruct Hs; try reflexivity.
  - erewrite Hq by eassumption. reflexivity.
  - destruct (Hc (provider_enum p)) as (Hc1 & Hc2 & Hc3 & Hc4).
    erewrite attempted_counter_frame by eassumption.
    erewrite Hq by eassumption. reflexivity.
  - cbn. erewrite Hq by eassumption. reflexivity.
  - cbn. erewrite Hq by eassumption. reflexivity.
  - destruct (Hc (provider_enum f)) as (Hc1 & Hc2 & Hc3 & Hc4).
    erewrite attempted_counter_frame by eassumption.
    cbn. erewrite Hq by eassumption. reflexivity.
Qed.

Lemma served_cost_frame E prompt system_prompt json_struct user_id w res w' key c :
  served E prompt system_prompt json_struct user_id w res w' →
  unwritten_cost c →
  stored_cost (db w') key c = stored_cost (db w) key c.
Proof.
  intros Hs Hc.
  assert (Hq : ∀ u p w1 x, subscription_check E u prompt p w = (x, w1) → db w1 = db w).
  { intros u p w1 x Hsub. eapply subscription_check_generated; eassumption. }
  destruct Hs; try reflexivity.
  - erewrite Hq by eassumption. reflexivity.
  - destruct (Hc (provider_enum p)) as (Hc1 & Hc2).
    erewrite attempted_cost_frame by eassumption.
    erewrite Hq by eassumption. reflexivity.
  - cbn. erewrite Hq by eassumption. reflexivity.
  - cbn. erewrite Hq by eassumption. reflexivity.
  - destruct (Hc (provider_enum f)) as (Hc1 & Hc2).
    erewrite attempted_cost_frame by eassumption.
    cbn. erewrite Hq by eassumption. reflexivity.
Qed.

Lemma huggingface_columns_unwritten c :
  String.prefix "huggingface" c = true → unwritten_counter c ∧ unwritten_cost c.
Proof.
  intros H. split; intros e; repeat split; intros ->; destruct e; discriminate H.
Qed.

(** The recorded counters of a faultless accounting, on the stored values. *)
Lemma usage_tracking_records E path u prompt r e model w :
  faultless E →
  let key := row_key E u in
  let limit := token_limit_of (get_user_limits E u) (value e) in
  let stored := stored_counter (db w) key (value e +:+ "_tokens") in
  let capped := cap_tokens limit stored (actual_total prompt r) in
  let tracked := if token_tracked path e then capped.2 else actual_total prompt r in
  let c := cost_of E e model (Tokens.estimate_tokens prompt) tracked in
  let after := db (usage_tracking E path u prompt r e model w).2 in
  stored_counter after key (value e +:+ "_calls")
  = stored_counter (db w) key (value e +:+ "_calls") + 1 ∧
  stored_counter after key (value e +:+ "_tokens")
  = (if token_tracked path e then capped.1 else stored) ∧
  stored_counter after key "total_calls" = stored_counter (db w) key "total_calls" + 1 ∧
  stored_counter after key "total_tokens"
  = stored_counter (db w) key "total_tokens" + tracked ∧
  stored_cost after key (value e +:+ "_cost")
  = (if negb (Qle_bool c 0) then Qplus (stored_cost (db w) key (value e +:+ "_cost")) c
     else stored_cost (db w) key (value e +:+ "_cost")).
Proof.
  intros Hf. cbv zeta.
  destruct (usage_tracking_faultless E path u prompt r e model w Hf) as [_ ->].
  rewrite !stored_counter_insert_eq, stored_cost_insert_eq.
  rewrite recorded_calls, recorded_tokens, recorded_total_calls, recorded_total_tokens,
    recorded_cost.
  rewrite stored_before_counters. cbn [fst snd]. unfold tracked_total. cbn [fst snd].
  repeat split; try reflexivity.
  unfold stored_counter. destruct (token_tracked path e); [reflexivity|].
  destruct (db w !! row_key E u); reflexivity.
Qed.



(** C2 fails as stated: with a ceiling of 5000 and 980 tokens stored, a
    call whose actual total is 4043 tokens is clamped, and [total_tokens]
    goes from 980 to 5000: it grows by the capped 4020, not by 4043. *)
Lemma totals_grow_by_the_capped_total :
  let E := example_env "" ["gemini"] (replies 3100) {[ "gemini_tokens" := 5000 ]} no_faults in
  let w := example_world {[ "gemini_tokens" := 980; "total_tokens" := 980 ]} in
  let out := llm_text_gen E (Tokens.words 10) None false (Some "u") w in
  let key := ("u", "2026-11") in
  out.1 = Ok (Text (Tokens.words 3100)) ∧
  actual_total (Tokens.words 10) (Text (Tokens.words 3100)) = 4043 ∧
  stored_counter (db out.2) key "gemini_tokens" = 5000 ∧
  stored_counter (db w) key "total_tokens" = 980 ∧
  stored_counter (db out.2) key "total_tokens" = 5000 ∧
  stored_counter (db out.2) key "total_tokens"
  ≠ stored_counter (db w) key "total_tokens"
    + actual_total (Tokens.words 10) (Text (Tokens.words 3100)).
Proof. vm_compute. repeat split; discriminate. Qed.

(** C2, amended: when the provider's token write is clamped, [total_calls]
    grows by one and [total_tokens] grows by the capped total, the ceiling
    minus the tokens stored before (not below zero), which is also the
    total that the cost is computed from. *)
Theorem totals_follow_the_capped_total E path u prompt r e model w :
  let key := row_key E u in
  let limit := token_limit_of (get_user_limits E u) (value e) in
  let stored := stored_counter (db w) key (value e +:+ "_tokens") in
  let after := db (usage_tracking E path u prompt r e model w).2 in
  faultless E →
  token_tracked path e = true →
  0 < limit →
  limit < stored + actual_total prompt r →
  stored_counter after key (value e +:+ "_tokens") = limit ∧
  stored_counter after key "total_calls" = stored_counter (db w) key "total_calls" + 1 ∧
  stored_counter after key "total_tokens"
  = stored_counter (db w) key "total_tokens" + Z.max (limit - stored) 0.
Proof.
  intros key limit stored after Hf Ht Hpos Hover.
  destruct (usage_tracking_records E path u prompt r e model w Hf)
    as (_ & H1 & H2 & H3 & _).
  cbv zeta in H1, H3. fold key limit stored in H1, H3. fold key in H2.
  rewrite Ht in H1, H3. rewrite cap_tokens_clamped in H1, H3 by assumption.
  auto.
Qed.

Lemma totals_follow_the_capped_total_witness :
  let E := example_env "" ["gemini"] (replies 67) {[ "gemini_tokens" := 1000 ]} no_faults in
  let w := example_world {[ "gemini_tokens" := 980; "total_tokens" := 2000;
                            "total_calls" := 7 ]} in
  let after := db (usage_tracking E primary "u" (Tokens.words 10) (Text (Tokens.words 67))
                                  GEMINI "gemini-2.0-flash-001" w).2 in
  stored_counter after ("u", "2026-11") "gemini_tokens" = 1000 ∧
  stored_counter after ("u", "2026-11") "total_calls" = 7 + 1 ∧
  stored_counter after ("u", "2026-11") "total_tokens" = 2000 + Z.max (1000 - 980) 0.
Proof.
  pose proof (totals_follow_the_capped_total
           (example_env "" ["gemini"] (replies 67) {[ "gemini_tokens" := 1000 ]} no_faults)
           primary "u" (Tokens.words 10) (Text (Tokens.words 67)) GEMINI
           "gemini-2.0-flash-001"
           (example_world {[ "gemini_tokens" := 980; "total_tokens" := 2000;
                             "total_calls" := 7 ]})
           (fun op => eq_refl) eq_refl eq_refl) as H.
  cbv zeta in H. specialize (H ltac:(vm_compute; reflexivity)).
  vm_compute in H. vm_compute. exact H.
Defined.

(** C4 on the code: a request served by openrouter as the first provider
    has its call counted but its token counter left as it was, although
    the actual total is 100 tokens; served by openrouter as the fallback,
    the same reply adds the 100 tokens. *)
Theorem openrouter_tokens_unwritten_on_primary_path :
  let limits : gmap string Z := {[ "openrouter_tokens" := 100000 ]} in
  let w := example_world {[ "openrouter_tokens" := 500; "openrouter_calls" := 2 ]} in
  let key := ("u", "2026-11") in
  let first := llm_text_gen (example_env "openrouter" ["openrouter"] (replies 67) limits no_faults)
                            (Tokens.words 10) None false (Some "u") w in
  let second := llm_text_gen (example_env "" ["gemini"; "openrouter"] (google_down 67)
                                          limits no_faults)
                             (Tokens.words 10) None false (Some "u") w in
  actual_total (Tokens.words 10) (Text (Tokens.words 67)) = 100 ∧
  first.1 = Ok (Text (Tokens.words 67)) ∧
  generated (trace first.2) = [EvGenerate openrouter "openai/gpt-4-turbo" false] ∧
  stored_counter (db first.2) key "openrouter_calls" = 3 ∧
  stored_counter (db first.2) key "openrouter_tokens" = 500 ∧
  second.1 = Ok (Text (Tokens.words 67)) ∧
  stored_counter (db second.2) key "openrouter_calls" = 3 ∧
  stored_counter (db second.2) key "openrouter_tokens" = 600.
Proof. vm_compute. repeat split; reflexivity. Qed.

Lemma accounted_records E path u prompt r e model w w' :
  faultless E →
  accounted E path u prompt r e model w w' →
  let key := row_key E u in
  let limit := token_limit_of (get_user_limits E u) (value e) in
  let stored := stored_counter (db w) key (value e +:+ "_tokens") in
  let capped := cap_tokens limit stored (actual_total prompt r) in
  let tracked := if token_tracked path e then capped.2 else actual_total prompt r in
  let c := cost_of E e model (Tokens.estimate_tokens prompt) tracked in
  stored_counter (db w') key (value e +:+ "_calls")
  = stored_counter (db w) key (value e +:+ "_calls") + 1 ∧
  stored_counter (db w') key (value e +:+ "_tokens")
  = (if token_tracked path e then capped.1 else stored) ∧
  stored_cost (db w') key (value e +:+ "_cost")
  = (if negb (Qle_bool c 0) then Qplus (stored_cost (db w) key (value e +:+ "_cost")) c
     else stored_cost (db w) key (value e +:+ "_cost")).
Proof.
  intros Hf Hacc. cbv zeta.
  destruct (accounted_faultless _ _ _ _ _ _ _ _ _ Hf Hacc) as [_ ->].
  rewrite !stored_counter_insert_eq, stored_cost_insert_eq.
  rewrite recorded_calls, recorded_tokens, recorded_cost.
  rewrite stored_before_counters. cbn [fst snd]. unfold tracked_total. cbn [fst snd].
  repeat split; try reflexivity.
  unfold stored_counter. destruct (token_tracked path e); [reflexivity|].
  destruct (db w !! row_key E u); reflexivity.
Qed.

(** C9: when the first provider has failed and the fallback has answered,
    the caller gets the fallback's response, the counters of the provider
    that failed (calls, tokens, cost) are what they were in every row, and
    the usage of the call - one call, the actual total capped at the
    ceiling, the cost - is added to the counters of the fallback provider. *)
Theorem fallback_usage_goes_to_the_fallback_provider
    E prompt system_prompt json_struct u w p model w1 msg f rest r :
  let system_instructions := default default_system_instructions system_prompt in
  let out := llm_text_gen E prompt system_prompt json_struct (Some u) w in
  let failed := value (provider_enum p) in
  let used := value (provider_enum f) in
  select_provider E = Ok (p, model) →
  u ≠ "" →
  subscription_check E u prompt p w = (Ok tt, w1) →
  backend E p model json_struct prompt system_instructions = Failed msg →
  fallback_providers E p = f :: rest →
  backend E f (fallback_model E f) json_struct prompt system_instructions = Returned r →
  out.1 = Ok r ∧
  used ≠ failed ∧
  (∀ key,
     stored_counter (db out.2) key (failed +:+ "_calls")
     = stored_counter (db w) key (failed +:+ "_calls") ∧
     stored_counter (db out.2) key (failed +:+ "_tokens")
     = stored_counter (db w) key (failed +:+ "_tokens") ∧
     stored_cost (db out.2) key (failed +:+ "_cost")
     = stored_cost (db w) key (failed +:+ "_cost")) ∧
  (faultless E → truthy r = true →
   let key := row_key E u in
   let limit := token_limit_of (get_user_limits E u) used in
   let capped := cap_tokens limit (stored_counter (db w) key (used +:+ "_tokens"))
                            (actual_total prompt r) in
   let c := cost_of E (provider_enum f) (fallback_model E f)
                    (Tokens.estimate_tokens prompt) capped.2 in
   stored_counter (db out.2) key (used +:+ "_calls")
   = stored_counter (db w) key (used +:+ "_calls") + 1 ∧
   stored_counter (db out.2) key (used +:+ "_tokens") = capped.1 ∧
   stored_cost (db out.2) key (used +:+ "_cost")
   = (if negb (Qle_bool c 0) then Qplus (stored_cost (db w) key (used +:+ "_cost")) c
      else stored_cost (db w) key (used +:+ "_cost"))).
Proof.
  cbv zeta. intros Hsel Hu Hsub Hb Hfb Hb'.
  remember (llm_text_gen E prompt system_prompt json_struct (Some u) w) as out eqn:Hout.
  rewrite (llm_text_gen_admitted _ _ _ _ _ _ _ _ _ Hsel Hu Hsub) in Hout. cbv zeta in Hout.
  set (sys := default default_system_instructions system_prompt) in *.
  unfold try_except at 1 in Hout.
  pose proof (attempt_cases E primary p model json_struct u prompt sys w1) as Hp.
  rewrite Hb in Hp. rewrite Hp, Hfb in Hout. unfold try_except in Hout.
  pose proof (attempt_cases E fallback f (fallback_model E f) json_struct u prompt sys
                (push (EvGenerate p model json_struct) w1)) as Hf.
  rewrite Hb' in Hf. destruct Hf as (w2 & Hf & Hatt). rewrite Hf in Hout. subst out.
  cbn [fst snd].
  destruct (subscription_check_generated _ _ _ _ _ _ _ Hsub) as [_ Hdb].
  destruct (fallback_by_priority _ _ _ _ Hfb) as (Hne & _).
  assert (Henum : provider_enum p ≠ provider_enum f).
  { intros H. apply provider_enum_inj in H. congruence. }
  split; [reflexivity|]. split.
  { intros H. apply Henum. destruct p, f; first [reflexivity | discriminate H]. }
  split.
  - intros key. rewrite <- Hdb.
    change (db w1) with (db (push (EvGenerate p model json_struct) w1)).
    repeat split.
    + eapply attempted_counter_frame; [eassumption|..].
      * intros H. apply calls_column_inj in H. done.
      * apply calls_not_tokens.
      * apply calls_not_total.
      * apply calls_not_total.
    + eapply attempted_counter_frame; [eassumption|..].
      * intros H. symmetry in H. exact (calls_not_tokens _ _ H).
      * intros H. apply tokens_column_inj in H. done.
      * apply tokens_not_total.
      * apply tokens_not_total.
    + eapply attempted_cost_frame; [eassumption|..].
      * intros H. apply cost_column_inj in H. done.
      * apply cost_not_total.
  - intros Hfl Htr. unfold attempted in Hatt. rewrite Htr in Hatt.
    pose proof (accounted_records _ _ _ _ _ _ _ _ _ Hfl Hatt) as H.
    cbv zeta in H. rewrite fallback_tracks_every_provider in H.
    change (db (push (EvGenerate f (fallback_model E f) json_struct)
                     (push (EvGenerate p model json_struct) w1))) with (db w1) in H.
    rewrite Hdb in H. exact H.
Qed.

Lemma fallback_usage_goes_to_the_fallback_provider_witness :
  let E := example_env "" ["gemini"; "hf_token"] (google_down 67)
                       {[ "mistral_tokens" := 1000 ]} no_faults in
  let w := example_world {[ "gemini_calls" := 4; "gemini_tokens" := 400;
                            "mistral_calls" := 1; "mistral_tokens" := 980 ]} in
  let out := llm_text_gen E (Tokens.words 10) None false (Some "u") w in
  let key := ("u", "2026-11") in
  out.1 = Ok (Text (Tokens.words 67)) ∧
  stored_counter (db out.2) key "gemini_calls" = 4 ∧
  stored_counter (db out.2) key "gemini_tokens" = 400 ∧
  stored_counter (db out.2) key "mistral_calls" = 2 ∧
  stored_counter (db out.2) key "mistral_tokens" = 1000.
Proof.
  pose proof (fallback_usage_goes_to_the_fallback_provider
                (example_env "" ["gemini"; "hf_token"] (google_down 67)
                             {[ "mistral_tokens" := 1000 ]} no_faults)
                (Tokens.words 10) None false "u"
                (example_world {[ "gemini_calls" := 4; "gemini_tokens" := 400;
                                  "mistral_calls" := 1; "mistral_tokens" := 980 ]})
                google "gemini-2.0-flash-001"
                {| db := db (example_world {[ "gemini_calls" := 4; "gemini_tokens" := 400;
                                              "mistral_calls" := 1; "mistral_tokens" := 980 ]});
                   session := None;
                   trace := [EvCheckLimits "u" GEMINI 4013; EvGetDb] |}
                "503 Service Unavailable" huggingface [] (Text (Tokens.words 67))
                eq_refl ltac:(discriminate) eq_refl eq_refl eq_refl eq_refl)
    as (H1 & _ & H2 & H3).
  specialize (H3 (fun op => eq_refl) eq_refl).
  destruct (H2 ("u", "2026-11")) as (H4 & H5 & _).
  cbv zeta. vm_compute in H3, H4, H5. vm_compute. tauto.
Defined.

Lemma subscription_check_admits E user_id prompt p w :
  fault E OpPreGetDb = false →
  fault E OpCheckLimits = false →
  fault E OpPrePeriod = false →
  fault E OpPreQuery = false →
  fault E OpPreClose = false →
  ¬ over_quota E (db w) user_id prompt (provider_enum p) →
  subscription_check E user_id prompt p w
  = (Ok tt,
     {| db := db w; session := None;
        trace := EvCheckLimits user_id (provider_enum p)
                   (Tokens.estimated_total_tokens Tokens.max_tokens prompt)
                 :: EvGetDb :: trace w |}).
Proof.
  intros H1 H2 H3 H4 H5 Hok.
  unfold subscription_check, try_except, try_finally, bind.
  destruct (get_db_cases E OpPreGetDb w) as [(Hf & _)| ->]; [congruence|].
  unfold check_usage_limits, read_row, emit, close, bind, guard, raise, ret, in_txn.
  rewrite H2, H3, H4, H5. cbn.
  unfold over_quota, stored_counter, row_key in Hok.
  set (cl := call_limit_of _ _) in *. set (tl := token_limit_of _ _) in *.
  set (row := default new_summary _) in *.
  destruct ((0 <? cl) && (cl <? counter row (value (provider_enum p) +:+ "_calls") + 1))
    eqn:Hc; [exfalso; apply Hok; left; lia|]. cbn.
  destruct ((0 <? tl) && (tl <? _)) eqn:Ht; [exfalso; apply Hok; right; lia|].
  reflexivity.
Qed.

(** C10 fails as stated: google fails and huggingface answers as the
    fallback; the only limit check of the request was made for GEMINI, and
    the request is served although the mistral token ceiling was already
    reached. *)
Lemma huggingface_fallback_is_checked_as_gemini :
  let E := example_env "" ["gemini"; "hf_token"] (google_down 67)
                       {[ "mistral_tokens" := 1000 ]} no_faults in
  let w := example_world {[ "mistral_tokens" := 1000 ]} in
  let out := llm_text_gen E (Tokens.words 10) None false (Some "u") w in
  out.1 = Ok (Text (Tokens.words 67)) ∧
  generated (trace out.2)
  = [EvGenerate huggingface "openai/gpt-oss-120b:groq" false;
     EvGenerate google "gemini-2.0-flash-001" false] ∧
  List.filter is_check (trace out.2) = [EvCheckLimits "u" GEMINI 4013] ∧
  over_quota E (db w) "u" (Tokens.words 10) MISTRAL.
Proof.
  cbv zeta. repeat split; try (vm_compute; reflexivity).
  right. vm_compute. split; reflexivity.
Qed.

(** C10, amended: huggingface is tracked as MISTRAL.  When huggingface is
    the provider selected for the request, the limit check is made on the
    mistral counters and ceilings: over them the request is denied, within
    them it is admitted.  Whenever huggingface answers, as first provider
    or as fallback, the accounting adds the call, the capped tokens and the
    cost to the mistral columns.  No request changes a column whose name
    starts with huggingface.  (A request that huggingface serves as the
    fallback was checked on the counters of the provider that failed.) *)
Theorem huggingface_usage_is_tracked_as_mistral E prompt system_prompt json_struct :
  let total := Tokens.estimated_total_tokens Tokens.max_tokens prompt in
  provider_enum huggingface = MISTRAL ∧
  (∀ u w model,
     select_provider E = Ok (huggingface, model) → u ≠ "" →
     fault E OpPreGetDb = false → fault E OpCheckLimits = false →
     fault E OpPrePeriod = false → fault E OpPreQuery = false →
     fault E OpPreClose = false →
     (over_quota E (db w) u prompt MISTRAL →
      ∃ detail w',
        llm_text_gen E prompt system_prompt json_struct (Some u) w
        = (Raise (HTTPException 429 detail), w') ∧
        db w' = db w ∧
        trace w' = EvCheckLimits u MISTRAL total :: EvGetDb :: trace w) ∧
     (¬ over_quota E (db w) u prompt MISTRAL →
      ∃ w1,
        subscription_check E u prompt huggingface w = (Ok tt, w1) ∧
        trace w1 = EvCheckLimits u MISTRAL total :: EvGetDb :: trace w)) ∧
  (∀ path model u system_instructions w r,
     faultless E →
     backend E huggingface model json_struct prompt system_instructions = Returned r →
     truthy r = true →
     let out := attempt E path huggingface model json_struct u prompt system_instructions w in
     let key := row_key E u in
     let limit := token_limit_of (get_user_limits E u) "mistral" in
     let capped := cap_tokens limit (stored_counter (db w) key "mistral_tokens")
                              (actual_total prompt r) in
     let c := cost_of E MISTRAL model (Tokens.estimate_tokens prompt) capped.2 in
     out.1 = Ok r ∧
     stored_counter (db out.2) key "mistral_calls"
     = stored_counter (db w) key "mistral_calls" + 1 ∧
     stored_counter (db out.2) key "mistral_tokens" = capped.1 ∧
     stored_cost (db out.2) key "mistral_cost"
     = (if negb (Qle_bool c 0) then Qplus (stored_cost (db w) key "mistral_cost") c
        else stored_cost (db w) key "mistral_cost")) ∧
  (∀ user_id w key c,
     String.prefix "huggingface" c = true →
     let out := llm_text_gen E prompt system_prompt json_struct user_id w in
     stored_counter (db out.2) key c = stored_counter (db w) key c ∧
     stored_cost (db out.2) key c = stored_cost (db w) key c).
Proof.
  cbv zeta. split; [reflexivity|]. split; [|split].
  - intros u w model Hsel Hu H1 H2 H3 H4 H5. split.
    + intros Hover.
      destruct (subscription_check_denies E u prompt huggingface w H1 H2 H5 Hover)
        as (detail & Hsub & _).
      exists detail. eexists. split; [eapply llm_text_gen_refused; eassumption|].
      split; reflexivity.
    + intros Hok. eexists. split.
      * apply subscription_check_admits; assumption.
      * reflexivity.
  - intros path model u sys w r Hf Hb Htr.
    pose proof (attempt_cases E path huggingface model json_struct u prompt sys w) as Ha.
    rewrite Hb in Ha. destruct Ha as (w' & -> & Hatt). cbn [fst snd].
    split; [reflexivity|].
    unfold attempted in Hatt. rewrite Htr in Hatt.
    pose proof (accounted_records _ _ _ _ _ _ _ _ _ Hf Hatt) as H.
    cbv zeta in H.
    assert (Ht : token_tracked path (provider_enum huggingface) = true)
      by (destruct path; reflexivity).
    rewrite Ht in H. exact H.
  - intros user_id w key c Hc.
    destruct (huggingface_columns_unwritten c Hc) as [H1 H2].
    pose proof (llm_text_gen_served E prompt system_prompt json_struct user_id w) as Hs.
    split.
    + eapply served_counter_frame; eassumption.
    + eapply served_cost_frame; eassumption.
Qed.

Lemma huggingface_usage_is_tracked_as_mistral_witness :
  let E := example_env "huggingface" ["hf_token"] (replies 67)
                       {[ "mistral_tokens" := 1000 ]} no_faults in
  let w := example_world {[ "mistral_calls" := 1; "mistral_tokens" := 980 ]} in
  let out := attempt E primary huggingface "openai/gpt-oss-120b:groq" false "u"
                     (Tokens.words 10) default_system_instructions w in
  (∃ detail w',
     llm_text_gen E (Tokens.words 10) None false (Some "u") w
     = (Raise (HTTPException 429 detail), w') ∧
     db w' = db w ∧
     trace w' = [EvCheckLimits "u" MISTRAL 4013; EvGetDb]) ∧
  out.1 = Ok (Text (Tokens.words 67)) ∧
  stored_counter (db out.2) ("u", "2026-11") "mistral_calls" = 2 ∧
  stored_counter (db out.2) ("u", "2026-11") "mistral_tokens" = 1000.
Proof.
  pose proof (huggingface_usage_is_tracked_as_mistral
                (example_env "huggingface" ["hf_token"] (replies 67)
                             {[ "mistral_tokens" := 1000 ]} no_faults)
                (Tokens.words 10) None false) as (_ & Ha & Hb & _).
  cbv zeta. split.
  - apply (proj1 (Ha "u" (example_world {[ "mistral_calls" := 1; "mistral_tokens" := 980 ]})
                     "openai/gpt-oss-120b:groq" eq_refl ltac:(discriminate)
                     eq_refl eq_refl eq_refl eq_refl eq_refl)).
    right. vm_compute. split; reflexivity.
  - pose proof (Hb primary "openai/gpt-oss-120b:groq" "u" default_system_instructions
                   (example_world {[ "mistral_calls" := 1; "mistral_tokens" := 980 ]})
                   (Text (Tokens.words 67)) (fun op => eq_refl) eq_refl eq_refl)
      as (H1 & H2 & H3 & _).
    vm_compute in H2, H3. vm_compute. tauto.
Defined.

(** * Further properties of the dispatcher *)

(** ** Provider selection *)

Lemma member_spec p l : member p l = true ↔ p ∈ l.
Proof. unfold member. apply bool_decide_eq_true. Qed.

Lemma member_false p l : member p l = false ↔ p ∉ l.
Proof. unfold member. apply bool_decide_eq_false. Qed.

Lemma no_member_no_provider (l : list GptProvider) :
  google ∉ l → openrouter ∉ l → huggingface ∉ l → l = [].
Proof.
  intros Hg Ho Hh. destruct l as [|p l]; [reflexivity|].
  exfalso. destruct p; [apply Hg | apply Hh | apply Ho]; apply elem_of_cons; auto.
Qed.

Lemma first_available_spec E :
  match first_available E with
  | Some p => first_by_priority E p
  | None => available_providers E = []
  end.
Proof.
  unfold first_available, first_by_priority.
  destruct (member google _) eqn:Hg.
  { apply member_spec in Hg. split; [exact Hg|].
    exists [], [openrouter; huggingface]. split; [reflexivity|]. inversion 1. }
  apply member_false in Hg.
  destruct (member openrouter _) eqn:Ho.
  { apply member_spec in Ho. split; [exact Ho|].
    exists [google], [huggingface]. split; [reflexivity|].
    intros g Hin. apply list_elem_of_singleton in Hin as ->. exact Hg. }
  apply member_false in Ho.
  destruct (member huggingface _) eqn:Hh.
  { apply member_spec in Hh. split; [exact Hh|].
    exists [google; openrouter], []. split; [reflexivity|].
    intros g Hin. apply elem_of_cons in Hin as [->|Hin]; [exact Hg|].
    apply list_elem_of_singleton in Hin as ->. exact Ho. }
  apply member_false in Hh. apply no_member_no_provider; assumption.
Qed.

(** X1: the selection succeeds exactly when some provider has credentials;
    the provider it returns has credentials and comes with its default
    model; when it fails it raises a [RuntimeError]. *)
Theorem selected_provider_has_credentials E :
  match select_provider E with
  | Ok (p, model) => p ∈ available_providers E ∧ model = default_model E p
  | Raise exc => available_providers E = [] ∧ ∃ msg, exc = RuntimeError msg
  end.
Proof.
  unfold select_provider.
  pose proof (first_available_spec E) as Hfirst.
  destruct (String.eqb _ "").
  - destruct (first_available E) as [p|].
    + split; [apply Hfirst|reflexivity].
    + split; [exact Hfirst|eauto].
  - match goal with |- context [member ?q _] => destruct (member q (available_providers E)) eqn:Hm end.
    + apply member_spec in Hm. split; [exact Hm|reflexivity].
    + destruct (first_available E) as [p|].
      * split; [apply Hfirst|reflexivity].
      * split; [exact Hfirst|eauto].
Qed.

Lemma str_in_cases x l : str_in x l = true → x ∈ l.
Proof.
  unfold str_in. induction l as [|a l IH]; cbn; [discriminate|].
  destruct (String.eqb_spec x a) as [->|Hne]; cbn.
  - intros _. apply elem_of_cons. auto.
  - intros H. apply elem_of_cons. auto.
Qed.

Lemma alias_names p s :
  str_in s (aliases p) = true →
  s ≠ "" ∧
  (if str_in s ["gemini"; "google"] then google
   else if str_in s ["hf_response_api"; "huggingface"; "hf"] then huggingface
   else if str_in s ["openrouter"; "or"] then openrouter
   else google) = p.
Proof.
  intros H. apply str_in_cases in H.
  destruct p; cbn in H;
    repeat (apply elem_of_cons in H as [->|H]; [split; [discriminate|reflexivity]|]);
    inversion H.
Qed.

(** X2: a provider named by [GPT_PROVIDER], under any of its aliases and in
    any letter case, is the one selected when it has credentials. *)
Theorem named_provider_is_selected E p :
  str_in (lower (GPT_PROVIDER E)) (aliases p) = true →
  p ∈ available_providers E →
  select_provider E = Ok (p, default_model E p).
Proof.
  intros Hname Hav. destruct (alias_names _ _ Hname) as [Hne Hp].
  unfold select_provider. rewrite Hp.
  destruct (String.eqb_spec (lower (GPT_PROVIDER E)) "") as [Heq|_]; [done|].
  apply member_spec in Hav. rewrite Hav. reflexivity.
Qed.

Lemma named_provider_is_selected_witness :
  select_provider (example_env "HF" ["gemini"; "hf_token"] (replies 5) ∅ no_faults)
  = Ok (huggingface, "openai/gpt-oss-120b:groq").
Proof.
  apply (named_provider_is_selected
           (example_env "HF" ["gemini"; "hf_token"] (replies 5) ∅ no_faults) huggingface).
  - reflexivity.
  - vm_compute. apply elem_of_cons. right. apply elem_of_cons. left. reflexivity.
Defined.

(** X3: unless [GPT_PROVIDER] names a provider that has credentials - so
    when it is empty, unrecognised, or names a provider without
    credentials - the provider selected is the first of google,
    openrouter, huggingface that has credentials. *)
Theorem selection_follows_priority E p model :
  (∀ q, str_in (lower (GPT_PROVIDER E)) (aliases q) = true → q ∉ available_providers E) →
  select_provider E = Ok (p, model) →
  first_by_priority E p.
Proof.
  intros Hnot. unfold select_provider.
  pose proof (first_available_spec E) as Hfirst.
  destruct (String.eqb _ "").
  { destruct (first_available E) as [q|]; [|discriminate].
    intros [= <- _]. exact Hfirst. }
  set (s := lower (GPT_PROVIDER E)) in *.
  match goal with |- context [member ?q _] => set (named := q) end.
  destruct (member named (available_providers E)) eqn:Hm.
  - apply member_spec in Hm. intros [= <- _].
    destruct (str_in s ["gemini"; "google"]) eqn:H1.
    { destruct (Hnot google H1 Hm). }
    destruct (str_in s ["hf_response_api"; "huggingface"; "hf"]) eqn:H2.
    { destruct (Hnot huggingface H2 Hm). }
    destruct (str_in s ["openrouter"; "or"]) eqn:H3.
    { destruct (Hnot openrouter H3 Hm). }
    (* unrecognised: google is the default and the head of the order *)
    subst named. cbn in Hm. split; [exact Hm|].
    exists [], [openrouter; huggingface]. split; [reflexivity|]. inversion 1.
  - destruct (first_available E) as [q|]; [|discriminate].
    intros [= <- _]. exact Hfirst.
Qed.

Lemma selection_follows_priority_witness :
  first_by_priority (example_env "openai" ["hf_token"; "openrouter"] (replies 5) ∅ no_faults)
                    openrouter.
Proof.
  apply (selection_follows_priority
           (example_env "openai" ["hf_token"; "openrouter"] (replies 5) ∅ no_faults)
           openrouter "openai/gpt-4-turbo").
  - intros q Hq. destruct q; discriminate Hq.
  - reflexivity.
Defined.

(** ** Outcomes of a request *)

Lemma attempted_unchanged E path p model json_struct u prompt r w w' :
  attempted E path p model json_struct u prompt r w w' →
  truthy r = false →
  w' = push (EvGenerate p model json_struct) w.
Proof. unfold attempted. intros H Hr. rewrite Hr in H. exact H. Qed.

(** X6: usage is recorded only for a reply that is truthy.  A request that
    ends in an exception - a configuration error, a denial, both providers
    failing - and a request that returns an empty reply leave every row as
    it was. *)
Theorem no_usage_without_a_reply E prompt system_prompt json_struct user_id w :
  let out := llm_text_gen E prompt system_prompt json_struct user_id w in
  match out.1 with
  | Raise _ => db out.2 = db w
  | Ok r => truthy r = false → db out.2 = db w
  end.
Proof.
  cbv zeta.
  pose proof (llm_text_gen_served E prompt system_prompt json_struct user_id w) as Hs.
  assert (Hq : ∀ u p w1 x, subscription_check E u prompt p w = (x, w1) → db w1 = db w).
  { intros u p w1 x Hsub. eapply subscription_check_generated; eassumption. }
  destruct Hs; try reflexivity.
  - eapply Hq; eassumption.
  - intros Hr. erewrite (attempted_unchanged _ _ _ _ _ _ _ _ _ _ H3 Hr). cbn.
    eapply Hq; eassumption.
  - cbn. eapply Hq; eassumption.
  - cbn. eapply Hq; eassumption.
  - intros Hr. erewrite (attempted_unchanged _ _ _ _ _ _ _ _ _ _ H5 Hr). cbn.
    eapply Hq; eassumption.
Qed.

Lemma no_usage_without_a_reply_witness :
  db (llm_text_gen (example_env "" ["gemini"] (replies 0) ∅ no_faults)
                   "Write a haiku" None false (Some "u") (example_world ∅)).2
  = db (example_world ∅).
Proof.
  pose proof (no_usage_without_a_reply
                (example_env "" ["gemini"] (replies 0) ∅ no_faults)
                "Write a haiku" None false (Some "u") (example_world ∅)) as H.
  vm_compute in H. vm_compute. apply H. reflexivity.
Defined.

(** X7: an empty reply of the first provider is returned as it is: the
    fallback is not tried and no accounting session is opened; the only
    event after the pre-flight check is the one vendor call. *)
Theorem empty_reply_is_returned_without_fallback
    E prompt system_prompt json_struct u w p model w1 r :
  select_provider E = Ok (p, model) →
  u ≠ "" →
  subscription_check E u prompt p w = (Ok tt, w1) →
  backend E p model json_struct prompt (default default_system_instructions system_prompt)
  = Returned r →
  truthy r = false →
  llm_text_gen E prompt system_prompt json_struct (Some u) w
  = (Ok r, push (EvGenerate p model json_struct) w1).
Proof.
  intros Hsel Hu Hsub Hb Hr.
  rewrite (llm_text_gen_admitted _ _ _ _ _ _ _ _ _ Hsel Hu Hsub). cbv zeta.
  unfold try_except at 1, attempt, generate, emit, bind.
  cbn [ret]. rewrite Hb. cbn [ret]. rewrite Hr. reflexivity.
Qed.

Lemma empty_reply_is_returned_without_fallback_witness :
  llm_text_gen (example_env "" ["gemini"; "openrouter"] (replies 0) ∅ no_faults)
               "Write a haiku" None false (Some "u") (example_world ∅)
  = (Ok (Text ""),
     push (EvGenerate google "gemini-2.0-flash-001" false)
          {| db := db (example_world ∅); session := None;
             trace := [EvCheckLimits "u" GEMINI 4003; EvGetDb] |}).
Proof.
  apply (empty_reply_is_returned_without_fallback
           (example_env "" ["gemini"; "openrouter"] (replies 0) ∅ no_faults)
           "Write a haiku" None false "u" (example_world ∅) google "gemini-2.0-flash-001").
  - reflexivity.
  - discriminate.
  - reflexivity.
  - reflexivity.
  - reflexivity.
Defined.

(** ** Rows of other users and periods *)

Lemma accounted_other_rows E path u prompt r e model w w' key :
  accounted E path u prompt r e model w w' →
  key ≠ row_key E u →
  db w' !! key = db w !! key.
Proof.
  intros [(_ & -> & _) | (before & _ & _ & ->)] Hk; [reflexivity|].
  apply lookup_insert_ne. intros H. apply Hk. symmetry. exact H.
Qed.

Lemma attempted_other_rows E path p model json_struct u prompt r w w' key :
  attempted E path p model json_struct u prompt r w w' →
  key ≠ row_key E u →
  db w' !! key = db w !! key.
Proof.
  unfold attempted. destruct (truthy r).
  - intros H Hk. rewrite (accounted_other_rows _ _ _ _ _ _ _ _ _ _ H Hk). reflexivity.
  - intros -> _. reflexivity.
Qed.

(** X8: a request touches one row at most, the one of its user in the
    current billing period: the row of every other user, and of every
    other period, is what it was - whatever raises - and a request without
    a user touches none. *)
Theorem other_rows_are_untouched E prompt system_prompt json_struct user_id w key :
  (∀ u, user_id = Some u → key ≠ row_key E u) →
  db (llm_text_gen E prompt system_prompt json_struct user_id w).2 !! key = db w !! key.
Proof.
  intros Hkey.
  pose proof (llm_text_gen_served E prompt system_prompt json_struct user_id w) as Hs.
  assert (Hq : ∀ u p w1 x, subscription_check E u prompt p w = (x, w1) → db w1 = db w).
  { intros u p w1 x Hsub. eapply subscription_check_generated; eassumption. }
  destruct Hs; try reflexivity.
  - erewrite Hq by eassumption. reflexivity.
  - erewrite attempted_other_rows; [|eassumption|apply Hkey; reflexivity].
    erewrite Hq by eassumption. reflexivity.
  - cbn. erewrite Hq by eassumption. reflexivity.
  - cbn. erewrite Hq by eassumption. reflexivity.
  - erewrite attempted_other_rows; [|eassumption|apply Hkey; reflexivity].
    cbn. erewrite Hq by eassumption. reflexivity.
Qed.

Lemma other_rows_are_untouched_witness :
  db (llm_text_gen (example_env "" ["gemini"] (replies 67) ∅ no_faults)
                   (Tokens.words 10) None false (Some "v") (example_world ∅)).2
     !! ("u", "2026-11")
  = db (example_world ∅) !! ("u", "2026-11").
Proof.
  apply (other_rows_are_untouched
           (example_env "" ["gemini"] (replies 67) ∅ no_faults)
           (Tokens.words 10) None false (Some "v") (example_world ∅) ("u", "2026-11")).
  intros u [= <-]. discriminate.
Defined.

(** ** Limit checks of a request *)

Lemma accounted_checks E path u prompt r e model w w' :
  accounted E path u prompt r e model w w' → checks (trace w') = checks (trace w).
Proof. intros [(_ & _ & [-> | ->]) | (before & _ & -> & _)]; reflexivity. Qed.

Lemma attempted_checks E path p model json_struct u prompt r w w' :
  attempted E path p model json_struct u prompt r w w' →
  checks (trace w') = checks (trace w).
Proof.
  unfold attempted. destruct (truthy r).
  - intros H. apply accounted_checks in H. exact H.
  - intros ->. reflexivity.
Qed.

Lemma subscription_check_checks E u prompt p w x w1 :
  subscription_check E u prompt p w = (x, w1) →
  checks (trace w1) = checks (trace w) ∨
  checks (trace w1)
  = EvCheckLimits u (provider_enum p) (Tokens.estimated_total_tokens Tokens.max_tokens prompt)
    :: checks (trace w).
Proof.
  intros H. pose proof (subscription_check_trace E u prompt p w) as Ht.
  cbv zeta in Ht. rewrite H in Ht. cbn [snd] in Ht.
  destruct Ht as [-> | [-> | ->]]; auto.
Qed.

(** X9: a request makes one limit check at most, and makes it for the
    provider that was selected; no limit check is made for the fallback
    provider before it is called. *)
Theorem one_limit_check_for_the_selected_provider
    E prompt system_prompt json_struct user_id w :
  let out := llm_text_gen E prompt system_prompt json_struct user_id w in
  checks (trace out.2) = checks (trace w) ∨
  ∃ u p model,
    user_id = Some u ∧
    select_provider E = Ok (p, model) ∧
    checks (trace out.2)
    = EvCheckLimits u (provider_enum p)
                    (Tokens.estimated_total_tokens Tokens.max_tokens prompt)
      :: checks (trace w).
Proof.
  cbv zeta.
  pose proof (llm_text_gen_served E prompt system_prompt json_struct user_id w) as Hs.
  destruct Hs; try (left; reflexivity).
  all: match goal with
       | H : subscription_check _ ?u _ ?p _ = _ |- _ =>
           destruct (subscription_check_checks _ _ _ _ _ _ _ H) as [Hc|Hc]
       end.
  all: try (erewrite attempted_checks by eassumption).
  all: cbn [trace push]; unfold checks in *; cbn [List.filter is_check];
    fold (checks (trace w)) in *.
  all: first [ left; exact Hc | right; eauto 10 ].
Qed.

(** ** The accounting block under given faults *)

Lemma aborts_raises {A} E (x : result A * World) d t : aborts E x d t → raises x d t.
Proof. intros (_ & H). exact H. Qed.

Lemma bind_raises {A B} (m : M A) (k : A → M B) w d t :
  raises (m w) d t → raises (bind m k w) d t.
Proof. intros (exc & s' & H). unfold bind. rewrite H. exists exc, s'. reflexivity. Qed.

Lemma guard_raises E op d t s : fault E op = true → raises (guard E op (in_txn d t s)) d t.
Proof. intros H. unfold raises, guard, raise. rewrite H. eauto. Qed.

Lemma guard_runs E op d t s :
  fault E op = false → yields (guard E op (in_txn d t s)) d t tt s.
Proof. intros H. unfold yields, guard, ret. rewrite H. reflexivity. Qed.

Lemma read_current_runs E path key e d t s :
  fault E OpRefresh = false →
  yields (read_current E path key (value e) (in_txn d t s)) d t
         (read_before E path s key (value e)) s.
Proof.
  intros Hr.
  assert (Hv : str_in (value e) valid_providers = true) by (destruct e; reflexivity).
  unfold yields, read_before, stored_before, read_current, checked_select,
    count_rows, select_counters, orm_counters, read_row, try_except, bind, guard,
    ret, raise, in_txn.
  rewrite Hv, Hr.
  destruct path; destruct (s !! key) as [row|] eqn:Hrow; run_guards E Hrow; reflexivity.
Qed.

Lemma get_or_create_summary_runs E key e before d t s :
  fault E OpQuery = false → fault E OpFlushNew = false →
  yields (get_or_create_summary E key (value e) e before.1 before.2 (in_txn d t s)) d t
         tt (<[key := base_row (value e) before (s !! key)]> s).
Proof.
  intros Hq Hn.
  destruct (get_or_create_summary_cases E key e before d t s) as [(_ & exc & s' & H)|H];
    [|exact H].
  exfalso. revert H.
  unfold get_or_create_summary, query_summary, add_row, modify_row,
    read_row, bind, guard, ret, raise, in_txn.
  rewrite all_providers_synced, Hq, Hn.
  destruct (s !! key) as [row|] eqn:Hrow; cbn; rewrite ?Hrow; cbn; discriminate.
Qed.

Lemma get_or_create_summary_raises E key e before d t s :
  fault E OpQuery = true →
  raises (get_or_create_summary E key (value e) e before.1 before.2 (in_txn d t s)) d t.
Proof.
  intros Hq. unfold raises, get_or_create_summary, query_summary, bind, guard, raise.
  rewrite Hq. eauto.
Qed.

Lemma update_counters_runs E path key e limit before total d t s r :
  fault E OpUpdateCalls = false → fault E OpUpdateTokens = false →
  s !! key = Some r →
  yields (update_counters E path key (value e) e limit before.1 before.2 total
            (in_txn d t s)) d t
         (tracked_total path e limit before total)
         (<[key := counted_row path e limit before total r]> s).
Proof.
  intros H1 H2 Hrow.
  destruct (update_counters_cases E path key e limit before total d t s r Hrow)
    as [(_ & exc & s' & H)|H]; [|exact H].
  exfalso. revert H.
  unfold update_counters, store, modify_row, bind, guard, ret, raise, in_txn.
  rewrite H1, H2.
  destruct path; destruct (token_tracked _ e); cbn; discriminate.
Qed.

Lemma persist_cost_runs E key e model tokens_input tracked d t s r :
  fault E OpUpdateCosts = false →
  s !! key = Some r →
  yields (persist_cost E key (value e) e model tokens_input tracked (in_txn d t s)) d t
         tt (<[key := costed_row (value e) (cost_of E e model tokens_input tracked) r]> s).
Proof.
  intros H1 Hrow.
  destruct (persist_cost_cases E key e model tokens_input tracked d t s r Hrow)
    as [(_ & exc & s' & H)|H]; [|exact H].
  exfalso. revert H.
  unfold persist_cost, modify_row, bind, guard, ret, raise, in_txn.
  rewrite H1.
  destruct (negb (Qle_bool _ 0)); cbn; discriminate.
Qed.

Lemma update_totals_runs E path key tracked d t s r :
  fault E OpUpdateTotals = false →
  s !! key = Some r →
  yields (update_totals E path key tracked (in_txn d t s)) d t
         tt (<[key := totalled_row tracked r]> s).
Proof.
  intros H1 Hrow.
  destruct (update_totals_cases E path key tracked d t s r Hrow)
    as [(_ & exc & s' & H)|H]; [|exact H].
  exfalso. revert H.
  unfold update_totals, store, modify_row, read_row, bind, guard, ret, raise, in_txn.
  rewrite H1.
  destruct path; cbn; discriminate.
Qed.

Lemma commit_and_report_runs E path d t s :
  fault E OpLimitsLog = false → fault E OpCommit = false →
  ∃ r, commit_and_report E path (in_txn d t s) = (r, in_txn s t s).
Proof.
  intros H1 H2.
  unfold commit_and_report, commit, try_except, bind, guard, ret, raise, in_txn.
  rewrite H1, H2.
  destruct path; run_guards E I; eauto.
Qed.

Lemma commit_and_report_raises E path d t s :
  fault E OpCommit = true → raises (commit_and_report E path (in_txn d t s)) d t.
Proof.
  intros H. unfold raises, commit_and_report, commit, try_except, bind, guard, ret, raise,
    in_txn.
  rewrite H. destruct path; run_guards E I; eauto.
Qed.

Ltac runs H := rewrite (bind_yields _ _ _ _ _ _ _ H); clear H.

(** When nothing raises but the COUNT statement and the tolerated
    operations, the block commits the row computed from [read_before]. *)
Lemma track_usage_runs E path user_id prompt response_text e model d t s :
  (∀ op, fault E op = true → op = OpCount ∨ tolerated op = true) →
  let key := (user_id, current_billing_period E user_id) in
  let s' := <[key := recorded_row E path user_id prompt response_text e model
                       (read_before E path s key (value e)) (s !! key)]> s in
  ∃ x, track_usage E path user_id prompt response_text e model (in_txn d t s)
       = (x, in_txn s' t s').
Proof.
  intros Hclean key.
  assert (Hok : ∀ op, op ≠ OpCount → tolerated op = false → fault E op = false).
  { intros op H1 H2. destruct (fault E op) eqn:Hf; [|reflexivity].
    destruct (Hclean op Hf) as [->|H]; [done|congruence]. }
  cbv zeta. unfold track_usage. fold key.
  pose proof (guard_runs E OpPeriod d t s (Hok OpPeriod ltac:(discriminate) eq_refl)) as H. runs H.
  pose proof (guard_runs E OpLimits d t s (Hok OpLimits ltac:(discriminate) eq_refl)) as H. runs H.
  pose proof (read_current_runs E path key e d t s (Hok OpRefresh ltac:(discriminate) eq_refl)) as H.
  runs H.
  set (before := read_before E path s key (value e)).
  pose proof (get_or_create_summary_runs E key e before d t s
                (Hok OpQuery ltac:(discriminate) eq_refl) (Hok OpFlushNew ltac:(discriminate) eq_refl)) as H.
  runs H.
  set (r0 := base_row (value e) before (s !! key)).
  set (limit := token_limit_of (get_user_limits E user_id) (value e)).
  fold (actual_total prompt response_text).
  set (total := actual_total prompt response_text).
  pose proof (update_counters_runs E path key e limit before total d t
                (<[key := r0]> s) r0
                (Hok OpUpdateCalls ltac:(discriminate) eq_refl) (Hok OpUpdateTokens ltac:(discriminate) eq_refl)
                (lookup_insert_eq _ _ _)) as H.
  runs H.
  set (r1 := counted_row path e limit before total r0).
  set (tracked := tracked_total path e limit before total).
  pose proof (persist_cost_runs E key e model (Tokens.estimate_tokens prompt) tracked d t
                (<[key := r1]> (<[key := r0]> s)) r1
                (Hok OpUpdateCosts ltac:(discriminate) eq_refl) (lookup_insert_eq _ _ _)) as H.
  runs H.
  set (r2 := costed_row _ _ r1).
  pose proof (update_totals_runs E path key tracked d t
                (<[key := r2]> (<[key := r1]> (<[key := r0]> s))) r2
                (Hok OpUpdateTotals ltac:(discriminate) eq_refl) (lookup_insert_eq _ _ _)) as H.
  runs H.
  destruct (commit_and_report_runs E path d t
              (<[key := totalled_row tracked r2]>
                 (<[key := r2]> (<[key := r1]> (<[key := r0]> s))))
              (Hok OpLimitsLog ltac:(discriminate) eq_refl) (Hok OpCommit ltac:(discriminate) eq_refl))
    as (x & H).
  exists x. rewrite H. rewrite !insert_insert_eq. reflexivity.
Qed.

Lemma usage_tracking_runs E path user_id prompt response_text e model w :
  (∀ op, fault E op = true → op = OpCount ∨ tolerated op = true) →
  let key := row_key E user_id in
  db (usage_tracking E path user_id prompt response_text e model w).2
  = <[key := recorded_row E path user_id prompt response_text e model
               (read_before E path (db w) key (value e)) (db w !! key)]> (db w).
Proof.
  intros Hclean. cbv zeta.
  assert (Hg : fault E OpGetDb = false).
  { destruct (fault E OpGetDb) eqn:Hf; [|reflexivity].
    destruct (Hclean _ Hf) as [H|H]; discriminate H. }
  unfold usage_tracking, try_except, try_finally, bind.
  destruct (get_db_cases E OpGetDb w) as [(Hf & _)| ->]; [congruence|].
  destruct (track_usage_runs E path user_id prompt response_text e model
              (db w) (EvGetDb :: trace w) (db w) Hclean) as (x & H).
  cbv zeta in H. rewrite H.
  unfold rollback, close, bind, guard, raise, ret, in_txn.
  destruct x as [[]|]; destruct (fault E OpRollback), (fault E OpClose); reflexivity.
Qed.

(** When one of the operations that every accounting runs raises, the
    block raises inside the transaction. *)
Ltac through X :=
  let H := fresh "H" in
  destruct X as [H|H]; [apply bind_raises; eapply aborts_raises, H | runs H].

Lemma track_usage_raises E path user_id prompt response_text e model d t s op :
  always_run op = true → op ≠ OpGetDb → fault E op = true →
  raises (track_usage E path user_id prompt response_text e model (in_txn d t s)) d t.
Proof.
  intros Hop Hne Hf. set (key := (user_id, current_billing_period E user_id)).
  unfold track_usage. fold key.
  destruct op; try discriminate Hop; [destruct Hne; reflexivity|..].
  all: first [ solve [apply bind_raises, guard_raises, Hf]
             | through (guard_cases E OpPeriod d t s) ].
  all: first [ solve [apply bind_raises, guard_raises, Hf]
             | through (guard_cases E OpLimits d t s) ].
  all: destruct (read_current_cases E path key e d t s) as [H|(before & H & _)];
    [apply bind_raises; eapply aborts_raises, H | runs H].
  all: first [ solve [apply bind_raises, get_or_create_summary_raises, Hf]
             | through (get_or_create_summary_cases E key e before d t s) ].
  set (r0 := base_row (value e) before (s !! key)).
  set (limit := token_limit_of (get_user_limits E user_id) (value e)).
  fold (actual_total prompt response_text).
  set (total := actual_total prompt response_text).
  through (update_counters_cases E path key e limit before total d t
             (<[key := r0]> s) r0 (lookup_insert_eq _ _ _)).
  set (r1 := counted_row path e limit before total r0).
  set (tracked := tracked_total path e limit before total).
  through (persist_cost_cases E key e model (Tokens.estimate_tokens prompt) tracked d t
             (<[key := r1]> (<[key := r0]> s)) r1 (lookup_insert_eq _ _ _)).
  set (r2 := costed_row _ _ r1).
  through (update_totals_cases E path key tracked d t
             (<[key := r2]> (<[key := r1]> (<[key := r0]> s))) r2
             (lookup_insert_eq _ _ _)).
  apply commit_and_report_raises, Hf.
Qed.

Lemma usage_tracking_rolled_back E path user_id prompt response_text e model w op :
  always_run op = true → fault E op = true →
  db (usage_tracking E path user_id prompt response_text e model w).2 = db w.
Proof.
  intros Hop Hf.
  unfold usage_tracking, try_except, try_finally, bind.
  destruct (get_db_cases E OpGetDb w) as [(_ & ->)| Hdb]; [reflexivity|].
  assert (Hne : op ≠ OpGetDb).
  { intros ->. unfold get_db, bind, guard in Hdb. rewrite Hf in Hdb. discriminate Hdb. }
  rewrite Hdb.
  destruct (track_usage_raises E path user_id prompt response_text e model
              (db w) (EvGetDb :: trace w) (db w) op Hop Hne Hf) as (exc & s' & H).
  rewrite H. unfold rollback, close, bind, guard, raise, ret, in_txn.
  destruct (fault E OpRollback), (fault E OpClose); reflexivity.
Qed.

(** ** A request and its one accounting *)

Lemma attempt_outcome E path p model json_struct user_id prompt system_instructions w :
  let w0 := push (EvGenerate p model json_struct) w in
  attempt E path p model json_struct user_id prompt system_instructions w
  = match backend E p model json_struct prompt system_instructions with
    | Returned r =>
        (Ok r, if truthy r
               then (usage_tracking E path user_id prompt r (provider_enum p) model w0).2
               else w0)
    | Failed msg => (Raise (OtherException msg), w0)
    end.
Proof.
  cbv zeta. unfold attempt, generate, emit. unfold bind at 1. unfold bind at 1.
  cbn [ret]. fold (push (EvGenerate p model json_struct) w).
  destruct (backend E p model json_struct prompt system_instructions) as [r|msg];
    [|reflexivity].
  cbn [ret]. unfold bind.
  destruct (truthy r); [|reflexivity].
  destruct (usage_tracking_cases E path user_id prompt r (provider_enum p) model
              (push (EvGenerate p model json_struct) w)) as (w' & -> & _).
  reflexivity.
Qed.

(** The rows after a request are the rows before it, or those that one
    accounting of a truthy reply leaves. *)
Lemma llm_text_gen_runs E prompt system_prompt json_struct user_id w :
  db (llm_text_gen E prompt system_prompt json_struct user_id w).2 = db w ∨
  ∃ path u r p model w0,
    user_id = Some u ∧ db w0 = db w ∧ truthy r = true ∧
    (llm_text_gen E prompt system_prompt json_struct user_id w).1 = Ok r ∧
    db (llm_text_gen E prompt system_prompt json_struct user_id w).2
    = db (usage_tracking E path u prompt r (provider_enum p) model w0).2.
Proof.
  remember (llm_text_gen E prompt system_prompt json_struct user_id w) as x eqn:Hx.
  revert Hx. unfold llm_text_gen, lift. unfold bind at 1.
  destruct (select_provider E) as [[p model]|exc] eqn:Hsel; [|intros ->; left; reflexivity].
  cbn [fst snd].
  destruct user_id as [u|]; [|intros ->; left; reflexivity].
  destruct (String.eqb_spec u "") as [->|Hu]; [intros ->; left; reflexivity|].
  assert (Hmatch : ∀ (X : Type) (a b : X),
             match u with "" => a | String _ _ => b end = b).
  { intros. destruct u; [done|reflexivity]. }
  rewrite Hmatch. unfold bind at 1.
  destruct (subscription_check E u prompt p w) as [[[]|exc] w1] eqn:Hsub.
  2:{ intros ->. left. eapply subscription_check_generated; eassumption. }
  assert (Hdb : db w1 = db w) by (eapply subscription_check_generated; eassumption).
  unfold try_except at 1.
  set (sys := default default_system_instructions system_prompt).
  rewrite attempt_outcome. cbv zeta.
  destruct (backend E p model json_struct prompt sys) as [r|msg].
  { destruct (truthy r) eqn:Hr; intros ->; [right|left; exact Hdb].
    exists primary, u, r, p, model, (push (EvGenerate p model json_struct) w1).
    repeat split; assumption. }
  destruct (fallback_providers E p) as [|f rest]; [intros ->; left; exact Hdb|].
  unfold try_except. rewrite attempt_outcome. cbv zeta.
  destruct (backend E f (fallback_model E f) json_struct prompt sys) as [r|msg'].
  { destruct (truthy r) eqn:Hr; intros ->; [right|left; exact Hdb].
    exists fallback, u, r, f, (fallback_model E f),
      (push (EvGenerate f (fallback_model E f) json_struct)
            (push (EvGenerate p model json_struct) w1)).
    repeat split; assumption. }
  intros ->. left. exact Hdb.
Qed.

(** X10: the accounting is committed as a whole.  When obtaining the
    session, reading the billing period or the limits, querying the summary
    row or the commit raises, no row is changed at all - not even the call
    count, whose UPDATE had already been issued when the commit raised -
    although the reply is returned to the caller. *)
Theorem failed_accounting_records_nothing
    E prompt system_prompt json_struct user_id w op :
  always_run op = true →
  fault E op = true →
  db (llm_text_gen E prompt system_prompt json_struct user_id w).2 = db w.
Proof.
  intros Hop Hf.
  destruct (llm_text_gen_runs E prompt system_prompt json_struct user_id w)
    as [H|(path & u & r & p & model & w0 & _ & Hdb & _ & _ & H)]; [exact H|].
  rewrite H, <- Hdb. eapply usage_tracking_rolled_back; eassumption.
Qed.

Lemma failed_accounting_records_nothing_witness :
  let faults := fun op => match op with OpCommit => true | _ => false end in
  let out := llm_text_gen (example_env "" ["gemini"] (replies 67) ∅ faults)
                          (Tokens.words 10) None false (Some "u")
                          (example_world {[ "gemini_calls" := 3 ]}) in
  out.1 = Ok (Text (Tokens.words 67)) ∧
  db out.2 = db (example_world {[ "gemini_calls" := 3 ]}).
Proof.
  split; [reflexivity|].
  apply (failed_accounting_records_nothing
           (example_env "" ["gemini"] (replies 67) ∅
                        (fun op => match op with OpCommit => true | _ => false end))
           (Tokens.words 10) None false (Some "u")
           (example_world {[ "gemini_calls" := 3 ]}) OpCommit); reflexivity.
Defined.

Lemma recorded_row_without_faults E path u prompt r e model before existing :
  recorded_row (without_faults E) path u prompt r e model before existing
  = recorded_row E path u prompt r e model before existing.
Proof. reflexivity. Qed.

(** X11: an exception of the raw SELECT (the ORM read takes over), of the
    read-back after the commit, of the printed summary, of the rollback or
    of the close loses nothing: the rows after the accounting are those
    that the same accounting leaves when nothing raises. *)
Theorem tolerated_faults_lose_no_usage E path u prompt r e model w :
  (∀ op, fault E op = true → tolerated op = true) →
  db (usage_tracking E path u prompt r e model w).2
  = db (usage_tracking (without_faults E) path u prompt r e model w).2.
Proof.
  intros Hclean.
  assert (Hcount : fault E OpCount = false).
  { destruct (fault E OpCount) eqn:Hf; [|reflexivity]. discriminate (Hclean _ Hf). }
  rewrite (usage_tracking_runs E path u prompt r e model w) by (intros op Hf; auto).
  rewrite (usage_tracking_runs (without_faults E) path u prompt r e model w)
    by (intros op Hf; discriminate Hf).
  rewrite recorded_row_without_faults.
  unfold read_before. rewrite Hcount. destruct path; reflexivity.
Qed.

Lemma tolerated_faults_lose_no_usage_witness :
  let E := example_env "" ["gemini"] (replies 67) {[ "gemini_tokens" := 1000 ]} tolerated in
  db (usage_tracking E primary "u" (Tokens.words 10) (Text (Tokens.words 67)) GEMINI
                     "gemini-2.0-flash-001"
                     (example_world {[ "gemini_tokens" := 500 ]})).2
  = db (usage_tracking (without_faults E) primary "u" (Tokens.words 10)
                       (Text (Tokens.words 67)) GEMINI "gemini-2.0-flash-001"
                       (example_world {[ "gemini_tokens" := 500 ]})).2.
Proof.
  apply (tolerated_faults_lose_no_usage
           (example_env "" ["gemini"] (replies 67) {[ "gemini_tokens" := 1000 ]} tolerated)
           primary "u" (Tokens.words 10) (Text (Tokens.words 67)) GEMINI
           "gemini-2.0-flash-001" (example_world {[ "gemini_tokens" := 500 ]})).
  intros op H. exact H.
Defined.



(** ** What a committed accounting adds *)

Lemma cap_tokens_within limit b t :
  limit <= 0 ∨ b + t <= limit → cap_tokens limit b t = (b + t, t).
Proof.
  intros H. unfold cap_tokens.
  destruct (0 <? limit) eqn:H1; [|reflexivity].
  destruct (limit <? b + t) eqn:H2; [lia|reflexivity].
Qed.

(** X13: without a ceiling (no limits, no entry, or a ceiling of zero or
    less) and when the stored tokens plus the actual total stay within the
    ceiling, the accounting adds one call and the whole actual total, to
    the provider's counters and to the totals alike; the ceiling on calls
    plays no part in it.  The one exception is the token counter of
    openrouter served as the first provider, which is not written and
    stays as it was, while the totals still grow. *)
Theorem usage_within_the_ceiling_is_added_in_full E path u prompt r e model w :
  let key := row_key E u in
  let limit := token_limit_of (get_user_limits E u) (value e) in
  let stored := stored_counter (db w) key (value e +:+ "_tokens") in
  let after := db (usage_tracking E path u prompt r e model w).2 in
  faultless E →
  limit <= 0 ∨ stored + actual_total prompt r <= limit →
  (token_tracked path e = false ↔ path = primary ∧ e = OPENROUTER) ∧
  stored_counter after key (value e +:+ "_calls")
  = stored_counter (db w) key (value e +:+ "_calls") + 1 ∧
  stored_counter after key (value e +:+ "_tokens")
  = (if token_tracked path e then stored + actual_total prompt r else stored) ∧
  stored_counter after key "total_calls" = stored_counter (db w) key "total_calls" + 1 ∧
  stored_counter after key "total_tokens"
  = stored_counter (db w) key "total_tokens" + actual_total prompt r.
Proof.
  intros key limit stored after Hf Hin.
  split.
  { split.
    - destruct path, e; first [discriminate | auto].
    - intros [-> ->]. reflexivity. }
  destruct (usage_tracking_records E path u prompt r e model w Hf)
    as (H0 & H1 & H2 & H3 & _).
  cbv zeta in H0, H1, H2, H3. fold key in H0, H2. fold key limit stored in H1, H3.
  destruct (token_tracked path e).
  - rewrite cap_tokens_within in H1, H3 by assumption. auto.
  - auto.
Qed.

Lemma usage_within_the_ceiling_is_added_in_full_witness :
  let E := example_env "" ["gemini"] (replies 34) {[ "gemini_tokens" := 1000;
                                                     "gemini_calls" := 3 ]} no_faults in
  let w := example_world {[ "gemini_tokens" := 900; "gemini_calls" := 3;
                            "total_tokens" := 2000; "total_calls" := 7 ]} in
  let after := db (usage_tracking E primary "u" (Tokens.words 5) (Text (Tokens.words 34))
                                  GEMINI "gemini-2.0-flash-001" w).2 in
  stored_counter after ("u", "2026-11") "gemini_calls" = 3 + 1 ∧
  stored_counter after ("u", "2026-11") "gemini_tokens" = 900 + 50 ∧
  stored_counter after ("u", "2026-11") "total_calls" = 7 + 1 ∧
  stored_counter after ("u", "2026-11") "total_tokens" = 2000 + 50.
Proof.
  pose proof (usage_within_the_ceiling_is_added_in_full
                (example_env "" ["gemini"] (replies 34) {[ "gemini_tokens" := 1000;
                                                           "gemini_calls" := 3 ]} no_faults)
                primary "u" (Tokens.words 5) (Text (Tokens.words 34)) GEMINI
                "gemini-2.0-flash-001"
                (example_world {[ "gemini_tokens" := 900; "gemini_calls" := 3;
                                  "total_tokens" := 2000; "total_calls" := 7 ]})
                (fun op => eq_refl)) as H.
  cbv zeta in H. specialize (H ltac:(right; vm_compute; discriminate)).
  destruct H as (_ & H). vm_compute in H. vm_compute. exact H.
Defined.

Lemma recorded_total_cost E path user_id prompt response_text e model before existing :
  cost (recorded_row E path user_id prompt response_text e model before existing)
       "total_cost"
  = let tracked :=
      tracked_total path e (token_limit_of (get_user_limits E user_id) (value e))
                    before (actual_total prompt response_text) in
    let c := cost_of E e model (Tokens.estimate_tokens prompt) tracked in
    if negb (Qle_bool c 0)
    then Qplus (cost (default new_summary existing) "total_cost") c
    else cost (default new_summary existing) "total_cost".
Proof.
  pose proof (cost_not_total e) as H.
  unfold recorded_row, totalled_row.
  rewrite !cost_set_counter. unfold costed_row. cbv zeta.
  destruct (negb _).
  - rewrite cost_add_cost_eq. rewrite cost_add_cost_ne by done.
    rewrite cost_before_costing. reflexivity.
  - apply cost_before_costing.
Qed.

Lemma recorded_cost_unpriced E path user_id prompt response_text e model before existing c :
  let tracked :=
    tracked_total path e (token_limit_of (get_user_limits E user_id) (value e))
                  before (actual_total prompt response_text) in
  Qle_bool (cost_of E e model (Tokens.estimate_tokens prompt) tracked) 0 = true →
  cost (recorded_row E path user_id prompt response_text e model before existing) c
  = cost (default new_summary existing) c.
Proof.
  cbv zeta. intros H. unfold recorded_row, totalled_row.
  rewrite !cost_set_counter. unfold costed_row. rewrite H. cbn [negb].
  apply cost_before_costing.
Qed.

(** X14: a positive cost is added, the same amount, to the provider's cost
    column and to [total_cost].  The cost is the one that the pricing
    service gives for the tracked total - the actual total, or what was
    left under the ceiling - split into an input part, at most the
    estimate of the prompt, and an output part; the two parts add up to the
    tracked total. *)
Theorem cost_is_added_to_the_provider_and_the_total E path u prompt r e model w c :
  let key := row_key E u in
  let limit := token_limit_of (get_user_limits E u) (value e) in
  let stored := stored_counter (db w) key (value e +:+ "_tokens") in
  let tracked := if token_tracked path e
                 then (cap_tokens limit stored (actual_total prompt r)).2
                 else actual_total prompt r in
  let tracked_tokens_input := Z.min (Tokens.estimate_tokens prompt) tracked in
  let tracked_tokens_output := Z.max (tracked - tracked_tokens_input) 0 in
  let after := db (usage_tracking E path u prompt r e model w).2 in
  faultless E →
  calculate_api_cost E e model tracked_tokens_input tracked_tokens_output = Some c →
  (0 < c)%Q →
  tracked_tokens_input + tracked_tokens_output = tracked ∧
  stored_cost after key (value e +:+ "_cost")
  = Qplus (stored_cost (db w) key (value e +:+ "_cost")) c ∧
  stored_cost after key "total_cost" = Qplus (stored_cost (db w) key "total_cost") c.
Proof.
  intros key limit stored tracked tin tout after Hf Hcost Hpos.
  split; [subst tin tout; lia|].
  subst after. destruct (usage_tracking_faultless E path u prompt r e model w Hf) as [_ ->].
  fold key. rewrite !stored_cost_insert_eq. rewrite recorded_cost, recorded_total_cost.
  cbv zeta. rewrite stored_before_counters. unfold tracked_total. cbn [fst snd].
  fold limit stored tracked. unfold cost_of. fold tin tout. rewrite Hcost.
  change (default 0%Q (Some c)) with c.
  assert (Hb : Qle_bool c 0 = false).
  { destruct (Qle_bool c 0) eqn:Hb; [|reflexivity].
    apply Qle_bool_iff in Hb. exfalso. eapply Qlt_not_le; eassumption. }
  rewrite Hb. cbn [negb]. split; reflexivity.
Qed.

Lemma cost_is_added_to_the_provider_and_the_total_witness :
  let E := example_env "" ["gemini"] (replies 67) {[ "gemini_tokens" := 1000 ]} no_faults in
  let w := example_world {[ "gemini_tokens" := 980 ]} in
  let after := db (usage_tracking E fallback "u" (Tokens.words 10) (Text (Tokens.words 67))
                                  GEMINI "gemini-2.0-flash-lite" w).2 in
  13 + 7 = 20 ∧
  stored_cost after ("u", "2026-11") "gemini_cost" = Qplus 0 (Qmake 20 1000) ∧
  stored_cost after ("u", "2026-11") "total_cost" = Qplus 0 (Qmake 20 1000).
Proof.
  pose proof (cost_is_added_to_the_provider_and_the_total
                (example_env "" ["gemini"] (replies 67) {[ "gemini_tokens" := 1000 ]}
                             no_faults)
                fallback "u" (Tokens.words 10) (Text (Tokens.words 67)) GEMINI
                "gemini-2.0-flash-lite" (example_world {[ "gemini_tokens" := 980 ]})
                (Qmake 20 1000) (fun op => eq_refl)) as H.
  cbv zeta in H.
  specialize (H ltac:(vm_compute; reflexivity) ltac:(reflexivity)).
  vm_compute in H. vm_compute. exact H.
Defined.

(** X15: when the pricing service raises, or gives no positive cost, the
    usage is recorded all the same - the call and the tokens are counted -
    and no cost column of the row changes. *)
Theorem unpriced_usage_is_still_counted E path u prompt r e model w :
  let key := row_key E u in
  let limit := token_limit_of (get_user_limits E u) (value e) in
  let stored := stored_counter (db w) key (value e +:+ "_tokens") in
  let tracked := if token_tracked path e
                 then (cap_tokens limit stored (actual_total prompt r)).2
                 else actual_total prompt r in
  let tracked_tokens_input := Z.min (Tokens.estimate_tokens prompt) tracked in
  let tracked_tokens_output := Z.max (tracked - tracked_tokens_input) 0 in
  let priced := calculate_api_cost E e model tracked_tokens_input tracked_tokens_output in
  let after := db (usage_tracking E path u prompt r e model w).2 in
  faultless E →
  priced = None ∨ (∃ c, priced = Some c ∧ (c <= 0)%Q) →
  stored_counter after key (value e +:+ "_calls")
  = stored_counter (db w) key (value e +:+ "_calls") + 1 ∧
  stored_counter after key "total_tokens"
  = stored_counter (db w) key "total_tokens" + tracked ∧
  ∀ column, stored_cost after key column = stored_cost (db w) key column.
Proof.
  intros key limit stored tracked tin tout priced after Hf Hpriced.
  destruct (usage_tracking_records E path u prompt r e model w Hf)
    as (H0 & _ & _ & H3 & _).
  cbv zeta in H0, H3. fold key in H0. fold key limit stored tracked after in H3.
  split; [exact H0|]. split; [exact H3|].
  intros column. subst after.
  destruct (usage_tracking_faultless E path u prompt r e model w Hf) as [_ ->].
  fold key. rewrite stored_cost_insert_eq. rewrite recorded_cost_unpriced; [reflexivity|].
  rewrite stored_before_counters. unfold tracked_total. cbn [fst snd].
  fold limit stored tracked. unfold cost_of. fold tin tout priced.
  destruct Hpriced as [-> | (c & -> & Hc)]; [reflexivity|].
  cbn [default]. apply Qle_bool_iff. exact Hc.
Qed.

Lemma unpriced_usage_is_still_counted_witness :
  let E := {| GPT_PROVIDER := ""; OPENROUTER_MODEL := None;
              get_api_key := fun k => str_in k ["gemini"];
              backend := fun _ _ _ _ _ => Returned (Text (Tokens.words 67));
              current_billing_period := fun _ => "2026-11";
              get_user_limits := fun _ => None;
              calculate_api_cost := fun _ _ _ _ => None;
              fault := no_faults |} in
  let w := example_world {[ "gemini_calls" := 3; "total_tokens" := 2000 ]} in
  let after := db (usage_tracking E primary "u" (Tokens.words 10) (Text (Tokens.words 67))
                                  GEMINI "gemini-2.0-flash-001" w).2 in
  stored_counter after ("u", "2026-11") "gemini_calls" = 3 + 1 ∧
  stored_counter after ("u", "2026-11") "total_tokens" = 2000 + 100 ∧
  ∀ column, stored_cost after ("u", "2026-11") column
            = stored_cost (db w) ("u", "2026-11") column.
Proof.
  pose proof (unpriced_usage_is_still_counted
                {| GPT_PROVIDER := ""; OPENROUTER_MODEL := None;
                   get_api_key := fun k => str_in k ["gemini"];
                   backend := fun _ _ _ _ _ => Returned (Text (Tokens.words 67));
                   current_billing_period := fun _ => "2026-11";
                   get_user_limits := fun _ => None;
                   calculate_api_cost := fun _ _ _ _ => None;
                   fault := no_faults |}
                primary "u" (Tokens.words 10) (Text (Tokens.words 67)) GEMINI
                "gemini-2.0-flash-001"
                (example_world {[ "gemini_calls" := 3; "total_tokens" := 2000 ]})
                (fun op => eq_refl) (or_introl eq_refl)) as H.
  cbv zeta in H. destruct H as (H1 & H2 & H3).
  split; [|split]; [etransitivity; [exact H1|reflexivity]
                   |etransitivity; [exact H2|reflexivity]
                   |exact H3].
Defined.

(** X16: a request changes no column but those of the text providers and
    the totals: every other counter - the image, video and audio counts of
    the same row among them - and every other cost column is what it was,
    in every row. *)
Theorem other_columns_are_untouched E prompt system_prompt json_struct user_id w key :
  let out := llm_text_gen E prompt system_prompt json_struct user_id w in
  (∀ c, unwritten_counter c →
        stored_counter (db out.2) key c = stored_counter (db w) key c) ∧
  (∀ c, unwritten_cost c →
        stored_cost (db out.2) key c = stored_cost (db w) key c).
Proof.
  cbv zeta.
  pose proof (llm_text_gen_served E prompt system_prompt json_struct user_id w) as Hs.
  split; intros c Hc.
  - eapply served_counter_frame; eassumption.
  - eapply served_cost_frame; eassumption.
Qed.

Lemma other_columns_are_untouched_witness :
  let w := example_world {[ "stability_calls" := 4; "gemini_calls" := 1 ]} in
  let out := llm_text_gen (example_env "" ["gemini"] (replies 67) ∅ no_faults)
                          (Tokens.words 10) None false (Some "u") w in
  stored_counter (db out.2) ("u", "2026-11") "stability_calls"
  = stored_counter (db w) ("u", "2026-11") "stability_calls".
Proof.
  apply (proj1 (other_columns_are_untouched
                  (example_env "" ["gemini"] (replies 67) ∅ no_faults)
                  (Tokens.words 10) None false (Some "u")
                  (example_world {[ "stability_calls" := 4; "gemini_calls" := 1 ]})
                  ("u", "2026-11"))).
  intros e. destruct e; repeat split; discriminate.
Defined.

(** ** The totals over a sequence of requests *)

Lemma split_len_from_nonneg in_word text : 0 <= Tokens.split_len_from in_word text.
Proof.
  revert in_word. induction text as [|c text IH]; intros in_word; cbn; [lia|].
  destruct (Tokens.isspace c); [apply IH|].
  pose proof (IH true). destruct in_word; lia.
Qed.

Lemma estimate_tokens_nonneg text : 0 <= Tokens.estimate_tokens text.
Proof.
  unfold Tokens.estimate_tokens, Tokens.split_len.
  pose proof (split_len_from_nonneg false text). apply Z.div_pos; lia.
Qed.

Lemma tracked_total_nonneg path e limit before prompt r :
  0 <= tracked_total path e limit before (actual_total prompt r).
Proof.
  assert (0 <= actual_total prompt r).
  { unfold actual_total. pose proof (estimate_tokens_nonneg prompt).
    pose proof (estimate_tokens_nonneg (str r)). lia. }
  unfold tracked_total, cap_tokens. destruct (token_tracked path e); [|assumption].
  destruct (_ && _); cbn; [|assumption].
  destruct (_ <? 0) eqn:Hneg; lia.
Qed.

Lemma accounted_totals E path u prompt r e model w w' key :
  accounted E path u prompt r e model w w' →
  stored_counter (db w) key "total_calls" <= stored_counter (db w') key "total_calls"
  <= stored_counter (db w) key "total_calls" + 1 ∧
  stored_counter (db w) key "total_tokens" <= stored_counter (db w') key "total_tokens".
Proof.
  intros [(_ & -> & _) | (before & _ & _ & ->)]; [lia|].
  destruct (decide ((u, current_billing_period E u) = key)) as [<-|Hk].
  - rewrite !stored_counter_insert_eq, recorded_total_calls, recorded_total_tokens.
    fold (stored_counter (db w) (u, current_billing_period E u) "total_calls").
    fold (stored_counter (db w) (u, current_billing_period E u) "total_tokens").
    pose proof (tracked_total_nonneg path e
                  (token_limit_of (get_user_limits E u) (value e)) before prompt r).
    lia.
  - rewrite !stored_counter_insert_ne by done. lia.
Qed.

Lemma llm_text_gen_totals E prompt system_prompt json_struct user_id w key :
  let after := db (llm_text_gen E prompt system_prompt json_struct user_id w).2 in
  stored_counter (db w) key "total_calls" <= stored_counter after key "total_calls"
  <= stored_counter (db w) key "total_calls" + 1 ∧
  stored_counter (db w) key "total_tokens" <= stored_counter after key "total_tokens".
Proof.
  cbv zeta.
  pose proof (llm_text_gen_served E prompt system_prompt json_struct user_id w) as Hs.
  assert (Hq : ∀ u p w1 x, subscription_check E u prompt p w = (x, w1) → db w1 = db w).
  { intros u p w1 x Hsub. eapply subscription_check_generated; eassumption. }
  assert (Hatt : ∀ path p model u r w1 w2,
             db w1 = db w →
             attempted E path p model json_struct u prompt r w1 w2 →
             stored_counter (db w) key "total_calls"
             <= stored_counter (db w2) key "total_calls"
             <= stored_counter (db w) key "total_calls" + 1 ∧
             stored_counter (db w) key "total_tokens"
             <= stored_counter (db w2) key "total_tokens").
  { intros path p model u r w1 w2 Hdb. unfold attempted. destruct (truthy r).
    - intros Hacc. apply (accounted_totals _ _ _ _ _ _ _ _ _ key) in Hacc.
      cbn [db push] in Hacc. rewrite Hdb in Hacc. exact Hacc.
    - intros ->. cbn [db push]. rewrite Hdb. lia. }
  destruct Hs; try (cbn [db push]; lia).
  all: match goal with
       | H : subscription_check _ _ _ _ _ = _ |- _ =>
           pose proof (Hq _ _ _ _ H) as Hdb1
       end.
  - rewrite Hdb1. lia.
  - eapply Hatt; eassumption.
  - cbn [db push]. rewrite Hdb1. lia.
  - cbn [db push]. rewrite Hdb1. lia.
  - eapply Hatt; [|eassumption]. exact Hdb1.
Qed.

(** X24: the totals of a row only grow.  Over any sequence of requests,
    whatever the providers answer and whichever operations raise,
    [total_calls] never decreases and grows by the number of requests at
    most, and [total_tokens] never decreases - unlike a provider's own
    counters, which an accounting can lower. *)
Theorem totals_never_decrease rs w key :
  let after := db (serve_all rs w) in
  stored_counter (db w) key "total_calls" <= stored_counter after key "total_calls"
  <= stored_counter (db w) key "total_calls" + Z.of_nat (length rs) ∧
  stored_counter (db w) key "total_tokens" <= stored_counter after key "total_tokens".
Proof.
  cbv zeta. revert w. induction rs as [|r rs IH]; intros w; [cbn; lia|].
  cbn [serve_all length]. specialize (IH (serve r w).2).
  pose proof (llm_text_gen_totals (req_env r) (req_prompt r) (req_system_prompt r)
                (req_json_struct r) (req_user_id r) w key) as H.
  cbv zeta in H. fold (serve r w) in H. lia.
Qed.

(** ** Usage over several requests *)

Lemma llm_text_gen_adds E prompt system_prompt json_struct u w p model r :
  let e := provider_enum p in
  let key := row_key E u in
  let out := llm_text_gen E prompt system_prompt json_struct (Some u) w in
  faultless E →
  select_provider E = Ok (p, model) →
  u ≠ "" →
  call_limit_of (get_user_limits E u) (value e) <= 0 →
  token_limit_of (get_user_limits E u) (value e) <= 0 →
  backend E p model json_struct prompt (default default_system_instructions system_prompt)
  = Returned r →
  truthy r = true →
  out.1 = Ok r ∧
  stored_counter (db out.2) key (value e +:+ "_calls")
  = stored_counter (db w) key (value e +:+ "_calls") + 1 ∧
  stored_counter (db out.2) key (value e +:+ "_tokens")
  = stored_counter (db w) key (value e +:+ "_tokens")
    + (if token_tracked primary e then actual_total prompt r else 0) ∧
  stored_counter (db out.2) key "total_calls"
  = stored_counter (db w) key "total_calls" + 1 ∧
  stored_counter (db out.2) key "total_tokens"
  = stored_counter (db w) key "total_tokens" + actual_total prompt r.
Proof.
  intros e key out Hf Hsel Hu Hcalls Htokens Hb Hr.
  assert (Hsub := subscription_check_admits E u prompt p w
                    (Hf _) (Hf _) (Hf _) (Hf _) (Hf _)).
  specialize (Hsub ltac:(unfold over_quota; fold e; lia)).
  set (w1 := push (EvGenerate p model json_struct)
                  {| db := db w; session := None;
                     trace := EvCheckLimits u (provider_enum p)
                                (Tokens.estimated_total_tokens Tokens.max_tokens prompt)
                              :: EvGetDb :: trace w |}).
  assert (Hout : out = (Ok r, (usage_tracking E primary u prompt r e model w1).2)).
  { subst out. rewrite (llm_text_gen_admitted _ _ _ _ _ _ _ _ _ Hsel Hu Hsub). cbv zeta.
    unfold try_except at 1. rewrite attempt_outcome. cbv zeta. rewrite Hb, Hr.
    reflexivity. }
  rewrite Hout. cbn [fst snd]. split; [reflexivity|].
  destruct (usage_tracking_records E primary u prompt r e model w1 Hf)
    as (H0 & H1 & H2 & H3 & _).
  cbv zeta in H0, H1, H2, H3. fold key in H0, H1, H2, H3.
  fold e. destruct (token_tracked primary e).
  - rewrite cap_tokens_within in H1, H3 by (left; exact Htokens).
    cbn [fst snd] in H1, H3. auto.
  - rewrite Z.add_0_r. auto.
Qed.

(** X25: usage adds up over requests served one after the other.  For a
    user without ceilings, when nothing raises and the selected provider
    answers every prompt, each accounting starts from what the one before
    has committed: after the sequence the provider's calls have grown by
    the number of requests and its tokens by the sum of the actual totals,
    and so have the totals.  The one exception is the token counter of
    openrouter, which the first call's path does not write: it stays as it
    was while the totals grow. *)
Theorem usage_adds_up E system_prompt json_struct u p model answer prompts w :
  let e := provider_enum p in
  let key := row_key E u in
  let after := db (serve_all (requests_for E system_prompt json_struct u prompts) w) in
  faultless E →
  select_provider E = Ok (p, model) →
  u ≠ "" →
  call_limit_of (get_user_limits E u) (value e) <= 0 →
  token_limit_of (get_user_limits E u) (value e) <= 0 →
  (∀ prompt,
     backend E p model json_struct prompt
             (default default_system_instructions system_prompt)
     = Returned (answer prompt) ∧
     truthy (answer prompt) = true) →
  stored_counter after key (value e +:+ "_calls")
  = stored_counter (db w) key (value e +:+ "_calls") + Z.of_nat (length prompts) ∧
  stored_counter after key (value e +:+ "_tokens")
  = stored_counter (db w) key (value e +:+ "_tokens")
    + (if bool_decide (p = openrouter) then 0 else sum_of_totals answer prompts) ∧
  stored_counter after key "total_calls"
  = stored_counter (db w) key "total_calls" + Z.of_nat (length prompts) ∧
  stored_counter after key "total_tokens"
  = stored_counter (db w) key "total_tokens" + sum_of_totals answer prompts.
Proof.
  intros e key after Hf Hsel Hu Hcalls Htokens Hanswer. subst after.
  assert (Htracked : token_tracked primary e = negb (bool_decide (p = openrouter))).
  { subst e. destruct p; reflexivity. }
  revert w. induction prompts as [|prompt prompts IH]; intros w.
  { cbn. destruct (bool_decide (p = openrouter)); repeat split; lia. }
  cbn [requests_for List.map serve_all length sum_of_totals List.fold_right].
  fold (requests_for E system_prompt json_struct u prompts).
  fold (sum_of_totals answer prompts).
  unfold serve. cbn [req_env req_prompt req_system_prompt req_json_struct
                                 req_user_id].
  destruct (Hanswer prompt) as [Hb Hr].
  destruct (llm_text_gen_adds E prompt system_prompt json_struct u w p model
              (answer prompt) Hf Hsel Hu Hcalls Htokens Hb Hr)
    as (_ & H0 & H1 & H2 & H3).
  fold e key in H0, H1, H2, H3. rewrite Htracked in H1.
  destruct (IH (llm_text_gen E prompt system_prompt json_struct (Some u) w).2)
    as (I0 & I1 & I2 & I3).
  rewrite I0, I1, I2, I3, H0, H1, H2, H3.
  destruct (bool_decide (p = openrouter)); cbn [negb]; repeat split; lia.
Qed.

Lemma usage_adds_up_witness :
  let E := example_env "" ["gemini"] (replies 67) ∅ no_faults in
  let w := example_world {[ "gemini_calls" := 3; "gemini_tokens" := 900 ]} in
  let after := db (serve_all (requests_for E None false "u"
                                           [Tokens.words 10; Tokens.words 20]) w) in
  stored_counter after ("u", "2026-11") "gemini_calls" = 5 ∧
  stored_counter after ("u", "2026-11") "gemini_tokens" = 900 + 100 + 113.
Proof.
  pose proof (usage_adds_up
                (example_env "" ["gemini"] (replies 67) ∅ no_faults)
                None false "u" google "gemini-2.0-flash-001"
                (fun _ => Text (Tokens.words 67))
                [Tokens.words 10; Tokens.words 20]
                (example_world {[ "gemini_calls" := 3; "gemini_tokens" := 900 ]})
                (fun op => eq_refl) eq_refl ltac:(discriminate)) as H.
  cbv zeta in H.
  specialize (H ltac:(vm_compute; discriminate) ltac:(vm_compute; discriminate)
                (fun prompt => conj eq_refl eq_refl)).
  destruct H as (H0 & H1 & _).
  vm_compute in H0, H1. vm_compute. auto.
Defined.

(** ** Exceptions of the pre-flight check *)

(** With every operation raising the exception of [guard], the request is
    [llm_text_gen]. *)
Lemma llm_text_gen_raising_guard E prompt system_prompt json_struct user_id w :
  llm_text_gen_raising E (fun _ => OtherException "operation failed")
                       prompt system_prompt json_struct user_id w
  = llm_text_gen E prompt system_prompt json_struct user_id w.
Proof. reflexivity. Qed.

Lemma surfaced_cases exc :
  (∃ msg, surfaced exc = RuntimeError msg) ∨
  (∃ status detail, exc = HTTPException status detail ∧ surfaced exc = exc).
Proof. destruct exc; cbn; eauto. Qed.

Lemma get_db_raising_cases E raised op w :
  (fault E op = true ∧ get_db_raising E raised op w = (Raise (raised op), w)) ∨
  (fault E op = false ∧
   get_db_raising E raised op w = (Ok tt, in_txn (db w) (EvGetDb :: trace w) (db w))).
Proof.
  unfold get_db_raising, bind, guard_raising, emit, raise, ret, in_txn.
  destruct (fault E op); cbn; eauto.
Qed.

Ltac classify :=
  first
    [ exact I
    | left; eexists; reflexivity
    | right; left; eexists; reflexivity
    | match goal with
      | Hf : fault _ ?op = true, Hr : _ ?op = HTTPException ?s ?d |- _ =>
          right; right; exists op, s, d;
          repeat split; [exact Hf | exact Hr | symmetry; exact Hr]
      end ].

(** The check leaves the committed rows alone and calls no vendor; what it
    raises is a [RuntimeError], the denial, or an [HTTPException] that one
    of its operations has raised. *)
Lemma subscription_check_raising_cases E raised user_id prompt p w :
  let out := subscription_check_raising E raised user_id prompt p w in
  db out.2 = db w ∧
  generated (trace out.2) = generated (trace w) ∧
  match out.1 with
  | Ok _ => True
  | Raise exc =>
      (∃ msg, exc = RuntimeError msg) ∨
      (∃ detail, exc = HTTPException 429 detail) ∨
      (∃ op status detail,
         preflight op = true ∧ fault E op = true ∧
         raised op = HTTPException status detail ∧ exc = raised op)
  end.
Proof.
  cbv zeta. unfold subscription_check_raising, try_except, try_finally, bind.
  destruct (get_db_raising_cases E raised OpPreGetDb w) as [(Hf & ->)|(Hf & ->)].
  { destruct (raised OpPreGetDb) eqn:Hr; cbn;
      (split; [reflexivity|]); (split; [reflexivity|]); classify. }
  unfold check_usage_limits_raising, close_raising, read_row, emit, bind, guard_raising,
    raise, ret, in_txn, generated.
  destruct (fault E OpCheckLimits) eqn:H1; destruct (fault E OpPreClose) eqn:H2; cbn;
    repeat match goal with
           | |- context [if ?b then _ else _] =>
               let H := fresh "Hb" in destruct b eqn:H; cbn
           | |- context [match raised ?op with _ => _ end] =>
               let H := fresh "Hr" in destruct (raised op) eqn:H; cbn
           end;
    (split; [reflexivity|]); (split; [reflexivity|]); classify.
Qed.

Lemma llm_text_gen_raising_selected E raised prompt system_prompt json_struct u w p model :
  select_provider E = Ok (p, model) →
  u ≠ "" →
  llm_text_gen_raising E raised prompt system_prompt json_struct (Some u) w
  = match subscription_check_raising E raised u prompt p w with
    | (Ok _, w1) =>
        try_except
          (attempt E primary p model json_struct u prompt
                   (default default_system_instructions system_prompt))
          (fun provider_error =>
             match fallback_providers E p with
             | fallback_provider :: _ =>
                 try_except
                   (attempt E fallback fallback_provider
                            (fallback_model E fallback_provider)
                            json_struct u prompt
                            (default default_system_instructions system_prompt))
                   (fun fallback_error => raise all_failed)
             | [] => raise all_failed
             end) w1
    | (Raise exc, w1) => (Raise exc, w1)
    end.
Proof.
  intros Hsel Hu. unfold llm_text_gen_raising, lift. unfold bind at 1. rewrite Hsel.
  cbn [fst snd].
  assert (Hmatch : ∀ (X : Type) (a b : X),
             match u with "" => a | String _ _ => b end = b).
  { intros. destruct u; [done|reflexivity]. }
  rewrite Hmatch. unfold bind at 1.
  destruct (subscription_check_raising E raised u prompt p w) as [[[]|exc] w1]; reflexivity.
Qed.

(** After the check, the request returns a reply or ends with the
    all-providers-failed error. *)
Lemma dispatch_outcome E p model json_struct u prompt system_instructions w1 :
  match (try_except
           (attempt E primary p model json_struct u prompt system_instructions)
           (fun provider_error =>
              match fallback_providers E p with
              | fallback_provider :: _ =>
                  try_except
                    (attempt E fallback fallback_provider
                             (fallback_model E fallback_provider)
                             json_struct u prompt system_instructions)
                    (fun fallback_error => raise all_failed)
              | [] => raise all_failed
              end) w1).1 with
  | Ok _ => True
  | Raise exc => exc = all_failed
  end.
Proof.
  unfold try_except at 1. rewrite attempt_outcome. cbv zeta.
  destruct (backend E p model json_struct prompt system_instructions); [exact I|].
  destruct (fallback_providers E p) as [|f rest]; [reflexivity|].
  unfold try_except. rewrite attempt_outcome. cbv zeta.
  destruct (backend E f (fallback_model E f) json_struct prompt system_instructions);
    [exact I|reflexivity].
Qed.

(** X4: whatever the vendors and the operations of the database do and
    raise, a request that fails raises a [RuntimeError] or an
    [HTTPException]: the denial, of status 429, or an [HTTPException] that
    an operation of the pre-flight check itself has raised, which goes on
    as it is.  Every other exception of the pre-flight check is wrapped in
    a [RuntimeError], and no exception of a vendor or of the accounting
    reaches the caller.  (The environment variables and the key manager
    are read outside every handler; they are fields of [Env] and
    answer.) *)
Theorem only_runtime_errors_and_http_exceptions
    E raised prompt system_prompt json_struct user_id w :
  match (llm_text_gen_raising E raised prompt system_prompt json_struct user_id w).1 with
  | Ok _ => True
  | Raise exc =>
      (∃ msg, exc = RuntimeError msg) ∨
      (∃ detail, exc = HTTPException 429 detail) ∨
      (∃ op status detail,
         preflight op = true ∧ fault E op = true ∧
         raised op = HTTPException status detail ∧ exc = raised op)
  end.
Proof.
  destruct (select_provider E) as [[p model]|exc] eqn:Hsel.
  2:{ unfold llm_text_gen_raising, lift, bind. rewrite Hsel. cbn.
      destruct (select_provider_raises E exc Hsel) as [msg ->]. eauto. }
  destruct user_id as [u|].
  2:{ unfold llm_text_gen_raising, lift, bind. rewrite Hsel. cbn.
      left. unfold user_id_required. eauto. }
  destruct (String.eqb_spec u "") as [->|Hu].
  { unfold llm_text_gen_raising, lift, bind. rewrite Hsel. cbn.
    left. unfold user_id_required. eauto. }
  rewrite (llm_text_gen_raising_selected E raised _ _ _ _ _ _ _ Hsel Hu).
  pose proof (subscription_check_raising_cases E raised u prompt p w) as (_ & _ & Hsub).
  destruct (subscription_check_raising E raised u prompt p w) as [[[]|exc] w1].
  - pose proof (dispatch_outcome E p model json_struct u prompt
                  (default default_system_instructions system_prompt) w1) as H.
    destruct (try_except _ _ w1).1; [exact I|]. subst. left. unfold all_failed. eauto.
  - exact Hsub.
Qed.

(** X5: the pre-flight check is strict.  When its session cannot be
    obtained, when the limit check raises, or when closing the session
    raises - after a denial too -, the request fails, no vendor is called
    and the rows are unchanged.  What reaches the caller is the exception
    of the session, else that of the close, else that of the limit check:
    as it is if it is an [HTTPException] or a [RuntimeError], wrapped in
    the "Subscription check failed" [RuntimeError] otherwise. *)
Theorem subscription_check_failure_is_fatal
    E raised prompt system_prompt json_struct u w p model :
  select_provider E = Ok (p, model) →
  u ≠ "" →
  fault E OpPreGetDb = true ∨ fault E OpCheckLimits = true ∨ fault E OpPreClose = true →
  ∃ w',
    llm_text_gen_raising E raised prompt system_prompt json_struct (Some u) w
    = (Raise (surfaced (raised (failing_operation E))), w') ∧
    db w' = db w ∧
    generated (trace w') = generated (trace w).
Proof.
  intros Hsel Hu Hfault.
  rewrite (llm_text_gen_raising_selected E raised _ _ _ _ _ _ _ Hsel Hu).
  pose proof (subscription_check_raising_cases E raised u prompt p w) as (Hdb & Hgen & _).
  assert (Hout : (subscription_check_raising E raised u prompt p w).1
                 = Raise (surfaced (raised (failing_operation E)))).
  { unfold failing_operation, subscription_check_raising, try_except, try_finally, bind.
    destruct (get_db_raising_cases E raised OpPreGetDb w) as [(Hf & ->)|(Hf & ->)];
      rewrite Hf.
    { cbn [fst]. destruct (raised OpPreGetDb); reflexivity. }
    unfold check_usage_limits_raising, close_raising, read_row, emit, bind, guard_raising,
      raise, ret, in_txn.
    destruct Hfault as [H|[H|H]]; [congruence| |].
    - rewrite H. destruct (fault E OpPreClose); cbn;
        [destruct (raised OpPreClose) | destruct (raised OpCheckLimits)]; reflexivity.
    - rewrite H. destruct (fault E OpCheckLimits); cbn;
        repeat match goal with
               | |- context [if ?b then _ else _] => destruct b; cbn
               end; destruct (raised OpPreClose); reflexivity. }
  destruct (subscription_check_raising E raised u prompt p w) as [[[]|exc] w1];
    cbn [fst snd] in *; [discriminate Hout|].
  injection Hout as ->. exists w1. auto.
Qed.

Lemma subscription_check_failure_is_fatal_witness :
  let E := example_env "" ["gemini"] (replies 5) {[ "gemini_tokens" := 1000 ]}
                       (fun op => match op with OpPreClose => true | _ => false end) in
  let unavailable := HTTPException 503 {| error := "unavailable"; message := "unavailable";
                                          provider := ""; usage_info := ∅ |} in
  ∃ w',
    llm_text_gen_raising E (fun _ => unavailable) (Tokens.words 1000) None false
                         (Some "u") (example_world ∅)
    = (Raise unavailable, w') ∧
    db w' = db (example_world ∅) ∧
    generated (trace w') = generated (trace (example_world ∅)).
Proof.
  apply (subscription_check_failure_is_fatal
           (example_env "" ["gemini"] (replies 5) {[ "gemini_tokens" := 1000 ]}
                        (fun op => match op with OpPreClose => true | _ => false end))
           (fun _ => HTTPException 503 {| error := "unavailable"; message := "unavailable";
                                          provider := ""; usage_info := ∅ |})
           (Tokens.words 1000) None false "u" (example_world ∅) google
           "gemini-2.0-flash-001").
  - reflexivity.
  - discriminate.
  - right. right. reflexivity.
Defined.

(** * The helpers beside the dispatcher *)

(** X17: a name that [check_gpt_provider] accepts and for which
    [get_api_key] finds a key that is not empty is, set as [GPT_PROVIDER],
    the provider that [llm_text_gen] selects: the three functions agree on
    the names of the providers and on where their keys are stored. *)
Theorem supported_provider_with_a_key_is_selected E keys s :
  (∀ name, get_api_key E name = nonempty (keys name)) →
  GPT_PROVIDER E = s →
  Keys.check_gpt_provider s = true →
  nonempty (Keys.get_api_key (fun name => Keys.Found (keys name)) s) = true →
  ∃ p, gpt_provider_name p = s ∧ select_provider E = Ok (p, default_model E p).
Proof.
  intros Hkeys Hs Hcheck Hkey.
  apply str_in_cases in Hcheck.
  assert (Hp : ∃ p, gpt_provider_name p = s ∧ member p (available_providers E) = true
                    ∧ str_in (lower s) (aliases p) = true).
  { repeat (apply elem_of_cons in Hcheck as [->|Hcheck]);
      [exists google | exists huggingface | exists openrouter | inversion Hcheck];
      (split; [reflexivity|]); (split; [|reflexivity]);
      apply member_spec; unfold available_providers;
      cbn in Hkey; rewrite <- Hkeys in Hkey; rewrite Hkey; set_solver. }
  destruct Hp as (p & Hname & Hav & Halias). exists p. split; [exact Hname|].
  rewrite <- Hs in Halias. destruct (alias_names _ _ Halias) as [Hne Hp].
  unfold select_provider. rewrite Hp.
  destruct (String.eqb_spec (lower (GPT_PROVIDER E)) "") as [Heq|_]; [done|].
  rewrite Hav. reflexivity.
Qed.

Lemma supported_provider_with_a_key_is_selected_witness :
  ∃ p, gpt_provider_name p = "huggingface" ∧
       select_provider (example_env "huggingface" ["gemini"; "hf_token"] (replies 5) ∅
                                    no_faults)
       = Ok (p, default_model (example_env "huggingface" ["gemini"; "hf_token"]
                                           (replies 5) ∅ no_faults) p).
Proof.
  apply (supported_provider_with_a_key_is_selected
           (example_env "huggingface" ["gemini"; "hf_token"] (replies 5) ∅ no_faults)
           (fun name => if str_in name ["gemini"; "hf_token"] then Some "secret" else None)
           "huggingface").
  - intros name.
    change (get_api_key _ name) with (str_in name ["gemini"; "hf_token"]).
    destruct (str_in name ["gemini"; "hf_token"]); reflexivity.
  - reflexivity.
  - reflexivity.
  - reflexivity.
Defined.

(** * The OpenRouter provider *)

(** ** The retry decorator *)

Lemma replicate_app_cons {A} (x : A) k l :
  replicate k x ++ x :: l = replicate (S k) x ++ l.
Proof. induction k as [|k IH]; cbn; [reflexivity|]. f_equal. exact IH. Qed.

(** A function that sends one request per attempt is tried until it
    returns, [S n] times at most. *)
Lemma retry_from_attempts {A} (f : OpenRouter.Sent → OpenRouter.outcome A * OpenRouter.Sent)
    request n sent :
  (∀ s, (f s).2 = request :: s) →
  ∃ attempts,
    (1 ≤ attempts ≤ S n)%nat ∧
    (OpenRouter.retry_from n f sent).2 = replicate attempts request ++ sent ∧
    (∀ i, (i < attempts - 1)%nat →
          ∃ e, (f (replicate i request ++ sent)).1 = OpenRouter.Throw e) ∧
    match (OpenRouter.retry_from n f sent).1 with
    | OpenRouter.Return a =>
        (f (replicate (attempts - 1) request ++ sent)).1 = OpenRouter.Return a
    | OpenRouter.Throw e =>
        attempts = S n ∧
        ∃ last, e = OpenRouter.RetryError last ∧
                (f (replicate n request ++ sent)).1 = OpenRouter.Throw last
    end.
Proof.
  intros Hstep. revert sent. induction n as [|n IH]; intros sent.
  - cbn [OpenRouter.retry_from]. pose proof (Hstep sent) as Hs.
    destruct (f sent) as [[a|e] s'] eqn:Hf; cbn [snd] in Hs; subst s'; exists 1%nat; cbn.
    + repeat split; [lia|lia|intros i Hi; lia|rewrite Hf; reflexivity].
    + repeat split; [lia|lia|intros i Hi; lia|].
      exists e. rewrite Hf. split; reflexivity.
  - cbn [OpenRouter.retry_from]. pose proof (Hstep sent) as Hs.
    destruct (f sent) as [[a|e] s'] eqn:Hf; cbn [snd] in Hs; subst s'.
    + exists 1%nat. cbn.
      repeat split; [lia|lia|intros i Hi; lia|rewrite Hf; reflexivity].
    + destruct (IH (request :: sent)) as (k & Hk & Hsent & Hfail & Hout).
      exists (S k). split; [lia|]. split.
      { rewrite Hsent. apply replicate_app_cons. }
      split.
      { intros [|i] Hi.
        - exists e. cbn. rewrite Hf. reflexivity.
        - destruct (Hfail i ltac:(lia)) as (e' & He'). exists e'.
          rewrite <- replicate_app_cons. exact He'. }
      destruct (OpenRouter.retry_from n f (request :: sent)).1 as [a|e'].
      * replace (S k - 1)%nat with (S (k - 1)) by lia.
        rewrite <- replicate_app_cons. exact Hout.
      * destruct Hout as (-> & last & -> & Hlast). split; [reflexivity|].
        exists last. split; [reflexivity|].
        rewrite <- replicate_app_cons. exact Hlast.
Qed.

(** A value returned through the decorator is the one that the last
    attempt has returned, with the state that it has left; an exception
    that leaves it is a [RetryError]. *)
Lemma retry_from_outcome {A} (f : OpenRouter.Sent → OpenRouter.outcome A * OpenRouter.Sent)
    n sent :
  match (OpenRouter.retry_from n f sent).1 with
  | OpenRouter.Return a =>
      ∃ s, f s = (OpenRouter.Return a, (OpenRouter.retry_from n f sent).2)
  | OpenRouter.Throw e => ∃ last, e = OpenRouter.RetryError last
  end.
Proof.
  revert sent. induction n as [|n IH]; intros sent; cbn [OpenRouter.retry_from].
  - destruct (f sent) as [[a|e] s'] eqn:Hf; cbn.
    + exists sent. exact Hf.
    + eauto.
  - destruct (f sent) as [[a|e] s'] eqn:Hf; cbn.
    + exists sent. exact Hf.
    + apply IH.
Qed.

(** ** The key and the client *)

Lemma get_openrouter_client_configured S key :
  configured_key S = Some key → key ≠ "" →
  OpenRouter.get_openrouter_client S = OpenRouter.Return (client_of S key).
Proof.
  unfold configured_key, OpenRouter.get_openrouter_client,
    OpenRouter.get_openrouter_api_key, client_of.
  destruct (OpenRouter.manager_key S) as [[|a r]|]; cbn.
  - intros -> Hne. destruct key; [done|reflexivity].
  - intros [= <-] _. reflexivity.
  - intros -> Hne. destruct key; [done|reflexivity].
Qed.

Lemma get_openrouter_client_unconfigured S :
  nonempty (configured_key S) = false →
  OpenRouter.get_openrouter_client S = OpenRouter.Throw key_not_found.
Proof.
  unfold configured_key, OpenRouter.get_openrouter_client,
    OpenRouter.get_openrouter_api_key.
  destruct (OpenRouter.manager_key S) as [[|a r]|]; cbn;
    try discriminate; intros ->; reflexivity.
Qed.

(** ** One attempt *)

Lemma text_response_once_sends S V prompt model temperature max_tokens top_p
    system_prompt client sent :
  OpenRouter.get_openrouter_client S = OpenRouter.Return client →
  let request := text_request client prompt model temperature max_tokens top_p
                              system_prompt in
  let once := OpenRouter.text_response_once S V prompt model temperature max_tokens
                                            top_p system_prompt sent in
  once.2 = request :: sent ∧
  match completion_text (V (length sent) request) with
  | Some result_text => once.1 = OpenRouter.Return (OpenRouter.strip result_text)
  | None => ∃ e, once.1 = OpenRouter.Throw e
  end.
Proof.
  intros Hclient. cbv zeta. unfold OpenRouter.text_response_once. rewrite Hclient.
  fold (text_request client prompt model temperature max_tokens top_p system_prompt).
  destruct (V (length sent) _) as [msg| |[[|a r]|]]; cbn; eauto.
Qed.

Lemma structured_response_once_sends {J} S V (json_loads : string → J + string)
    prompt schema_str model temperature max_tokens system_prompt client sent :
  OpenRouter.get_openrouter_client S = OpenRouter.Return client →
  let request := structured_request client prompt schema_str model temperature max_tokens
                                    system_prompt in
  let once := OpenRouter.structured_response_once S V json_loads prompt schema_str model
                                                  temperature max_tokens system_prompt
                                                  sent in
  once.2 = request :: sent ∧
  match completion_text (V (length sent) request)
          ≫= (fun t => match json_loads (OpenRouter.clean_json_text t) with
                        | inl parsed => Some parsed
                        | inr _ => None
                        end) with
  | Some parsed_json => once.1 = OpenRouter.Return parsed_json
  | None => ∃ e, once.1 = OpenRouter.Throw e
  end.
Proof.
  intros Hclient. cbv zeta. unfold OpenRouter.structured_response_once. rewrite Hclient.
  fold (structured_request client prompt schema_str model temperature max_tokens
                           system_prompt).
  destruct (V (length sent) _) as [msg| |[[|a r]|]]; cbn; eauto.
  destruct (json_loads _); cbn; eauto.
Qed.

(** ** The two response functions *)

(** X18: with a key configured - the manager's, or the environment's when
    the manager has none - [openrouter_text_response] sends one and the
    same request, through a client with that key, until a completion has
    content, six times at most; it returns the content of that completion,
    stripped, and after six attempts without content it raises a
    [RetryError]. *)
Theorem text_response_tries_six_times_at_most
    S V prompt model temperature max_tokens top_p system_prompt sent key :
  let request := text_request (client_of S key) prompt model temperature max_tokens top_p
                              system_prompt in
  let out := OpenRouter.openrouter_text_response S V prompt model temperature max_tokens
                                                 top_p system_prompt sent in
  configured_key S = Some key → key ≠ "" →
  ∃ attempts,
    (1 ≤ attempts ≤ 6)%nat ∧
    out.2 = replicate attempts request ++ sent ∧
    (∀ i, (i < attempts - 1)%nat →
          completion_text (V (length sent + i)%nat request) = None) ∧
    match out.1 with
    | OpenRouter.Return text =>
        ∃ result_text,
          completion_text (V (length sent + (attempts - 1))%nat request) = Some result_text ∧
          text = OpenRouter.strip result_text
    | OpenRouter.Throw e =>
        attempts = 6%nat ∧
        completion_text (V (length sent + 5)%nat request) = None ∧
        ∃ last, e = OpenRouter.RetryError last
    end.
Proof.
  intros request out Hkey Hne.
  pose proof (get_openrouter_client_configured S key Hkey Hne) as Hclient.
  pose proof (text_response_once_sends S V prompt model temperature max_tokens top_p
                system_prompt (client_of S key)) as Honce.
  fold request in Honce. cbv zeta in Honce.
  set (f := OpenRouter.text_response_once S V prompt model temperature max_tokens top_p
                                          system_prompt) in *.
  destruct (retry_from_attempts f request 5 sent (fun s => proj1 (Honce s Hclient)))
    as (attempts & Hbound & Hsent & Hfail & Hout).
  assert (Hlen : ∀ i, length (replicate i request ++ sent) = (length sent + i)%nat).
  { intros i. rewrite length_app, length_replicate. lia. }
  exists attempts. split; [exact Hbound|]. split; [exact Hsent|]. split.
  { intros i Hi. destruct (Hfail i Hi) as (e & He).
    destruct (Honce (replicate i request ++ sent) Hclient) as [_ H]. rewrite Hlen in H.
    destruct (completion_text _); [|reflexivity]. rewrite He in H. discriminate H. }
  subst out. unfold OpenRouter.openrouter_text_response, OpenRouter.retry. cbn [Nat.sub].
  fold f. destruct (OpenRouter.retry_from 5 f sent).1 as [text|e].
  - destruct (Honce (replicate (attempts - 1) request ++ sent) Hclient) as [_ H].
    rewrite Hlen in H. destruct (completion_text _) as [result_text|].
    + exists result_text. split; [reflexivity|]. rewrite Hout in H. congruence.
    + destruct H as (e & He). rewrite Hout in He. discriminate He.
  - destruct Hout as (-> & last & -> & Hlast). split; [reflexivity|]. split; [|eauto].
    destruct (Honce (replicate 5 request ++ sent) Hclient) as [_ H].
    rewrite Hlen in H. destruct (completion_text _); [|reflexivity].
    rewrite Hlast in H. discriminate H.
Qed.

Lemma text_response_tries_six_times_at_most_witness :
  let out := OpenRouter.openrouter_text_response
               (example_settings (Some "") (Some "sk-or-1"))
               (third_time_lucky "  Hello world ") "Say hello" "openai/gpt-4-turbo"
               (7 # 10) 2048 1 None [] in
  ∃ attempts, (1 ≤ attempts ≤ 6)%nat ∧ length out.2 = attempts ∧
              out.1 = OpenRouter.Return "Hello world".
Proof.
  destruct (text_response_tries_six_times_at_most
              (example_settings (Some "") (Some "sk-or-1"))
              (third_time_lucky "  Hello world ") "Say hello" "openai/gpt-4-turbo"
              (7 # 10) 2048 1 None [] "sk-or-1" eq_refl ltac:(discriminate))
    as (attempts & Hbound & Hsent & _).
  exists attempts. split; [exact Hbound|]. split; [|reflexivity].
  cbv zeta. rewrite Hsent, length_app, length_replicate. cbn. lia.
Defined.

(** X19: [openrouter_structured_json_response] sends one and the same
    request - the prompt followed by the schema and the instruction to
    answer in JSON, with [response_format] set for the models of OpenAI
    only - until a completion has content that parses, six times at most:
    an answer that is not valid JSON is asked for again.  It returns the
    parse of the cleaned content, or raises a [RetryError]. *)
Theorem structured_response_asks_again_on_invalid_json {J}
    S V (json_loads : string → J + string) prompt schema_str model temperature max_tokens
    system_prompt sent key :
  let request := structured_request (client_of S key) prompt schema_str model temperature
                                    max_tokens system_prompt in
  let out := OpenRouter.openrouter_structured_json_response
               S V json_loads prompt schema_str model temperature max_tokens
               system_prompt sent in
  let parsed received :=
    completion_text (V received request)
      ≫= (fun t => match json_loads (OpenRouter.clean_json_text t) with
                    | inl parsed_json => Some parsed_json
                    | inr _ => None
                    end) in
  configured_key S = Some key → key ≠ "" →
  ∃ attempts,
    (1 ≤ attempts ≤ 6)%nat ∧
    out.2 = replicate attempts request ++ sent ∧
    (∀ i, (i < attempts - 1)%nat → parsed (length sent + i)%nat = None) ∧
    match out.1 with
    | OpenRouter.Return parsed_json =>
        parsed (length sent + (attempts - 1))%nat = Some parsed_json
    | OpenRouter.Throw e =>
        attempts = 6%nat ∧ parsed (length sent + 5)%nat = None ∧
        ∃ last, e = OpenRouter.RetryError last
    end.
Proof.
  intros request out parsed Hkey Hne.
  pose proof (get_openrouter_client_configured S key Hkey Hne) as Hclient.
  pose proof (structured_response_once_sends S V json_loads prompt schema_str model
                temperature max_tokens system_prompt (client_of S key)) as Honce.
  fold request in Honce. cbv zeta in Honce.
  set (f := OpenRouter.structured_response_once S V json_loads prompt schema_str model
                                                temperature max_tokens system_prompt) in *.
  destruct (retry_from_attempts f request 5 sent (fun s => proj1 (Honce s Hclient)))
    as (attempts & Hbound & Hsent & Hfail & Hout).
  assert (Hlen : ∀ i, length (replicate i request ++ sent) = (length sent + i)%nat).
  { intros i. rewrite length_app, length_replicate. lia. }
  exists attempts. split; [exact Hbound|]. split; [exact Hsent|]. split.
  { intros i Hi. destruct (Hfail i Hi) as (e & He).
    destruct (Honce (replicate i request ++ sent) Hclient) as [_ H]. rewrite Hlen in H.
    subst parsed. cbv beta.
    destruct (completion_text _ ≫= _); [|reflexivity]. rewrite He in H. discriminate H. }
  subst out. unfold OpenRouter.openrouter_structured_json_response, OpenRouter.retry.
  cbn [Nat.sub]. fold f. subst parsed. cbv beta.
  destruct (OpenRouter.retry_from 5 f sent).1 as [parsed_json|e].
  - destruct (Honce (replicate (attempts - 1) request ++ sent) Hclient) as [_ H].
    rewrite Hlen in H. destruct (completion_text _ ≫= _) as [p|].
    + rewrite Hout in H. congruence.
    + destruct H as (e & He). rewrite Hout in He. discriminate He.
  - destruct Hout as (-> & last & -> & Hlast). split; [reflexivity|]. split; [|eauto].
    destruct (Honce (replicate 5 request ++ sent) Hclient) as [_ H].
    rewrite Hlen in H. destruct (completion_text _ ≫= _); [|reflexivity].
    rewrite Hlast in H. discriminate H.
Qed.

Lemma structured_response_asks_again_on_invalid_json_witness :
  let json_loads := fun t : string => if String.eqb t "{}" then inl 0 else inr "Expecting value" in
  let out := OpenRouter.openrouter_structured_json_response
               (example_settings (Some "sk-or-1") None)
               (fun received _ =>
                  OpenRouter.Choice (Some (match received with
                                           | O => "Sure! {}"
                                           | _ => "{}"
                                           end)))
               json_loads "List the tasks" "{}" "openai/gpt-4-turbo" (2 # 10) 8192 None [] in
  ∃ attempts, (1 ≤ attempts ≤ 6)%nat ∧ length out.2 = attempts ∧
              out.1 = OpenRouter.Return 0.
Proof.
  destruct (structured_response_asks_again_on_invalid_json
              (example_settings (Some "sk-or-1") None)
              (fun received _ =>
                 OpenRouter.Choice (Some (match received with
                                          | O => "Sure! {}"
                                          | _ => "{}"
                                          end)))
              (fun t : string => if String.eqb t "{}" then inl 0 else inr "Expecting value")
              "List the tasks" "{}" "openai/gpt-4-turbo" (2 # 10) 8192 None []
              "sk-or-1" eq_refl ltac:(discriminate))
    as (attempts & Hbound & Hsent & _).
  exists attempts. split; [exact Hbound|]. split; [|reflexivity].
  cbv zeta. rewrite Hsent, length_app, length_replicate. cbn. lia.
Defined.

(** X20: without a key - none, or an empty one, in the manager and in the
    environment - neither function sends anything: the [ValueError] about
    the missing key is raised inside the decorated body, so it is retried
    like any other failure and reaches the caller as a [RetryError]. *)
Theorem nothing_is_sent_without_a_key {J}
    S V (json_loads : string → J + string) prompt schema_str model temperature max_tokens
    top_p system_prompt sent :
  nonempty (configured_key S) = false →
  OpenRouter.openrouter_text_response S V prompt model temperature max_tokens top_p
                                      system_prompt sent
  = (OpenRouter.Throw (OpenRouter.RetryError key_not_found), sent) ∧
  OpenRouter.openrouter_structured_json_response S V json_loads prompt schema_str model
                                                 temperature max_tokens system_prompt sent
  = (OpenRouter.Throw (OpenRouter.RetryError key_not_found), sent).
Proof.
  intros Hkey. pose proof (get_openrouter_client_unconfigured S Hkey) as Hclient.
  unfold OpenRouter.openrouter_text_response,
    OpenRouter.openrouter_structured_json_response, OpenRouter.retry.
  cbn [Nat.sub OpenRouter.retry_from].
  unfold OpenRouter.text_response_once, OpenRouter.structured_response_once.
  rewrite Hclient. split; reflexivity.
Qed.

Lemma nothing_is_sent_without_a_key_witness :
  OpenRouter.openrouter_text_response (example_settings (Some "") None)
                                      (third_time_lucky "Hello") "Say hello"
                                      "openai/gpt-4-turbo" (7 # 10) 2048 1 None []
  = (OpenRouter.Throw (OpenRouter.RetryError key_not_found), []).
Proof.
  apply (proj1 (nothing_is_sent_without_a_key
                  (example_settings (Some "") None) (third_time_lucky "Hello")
                  (fun _ : string => inr "unused" : Z + string)
                  "Say hello" "{}" "openai/gpt-4-turbo" (7 # 10) 2048 1 None [] eq_refl)).
Defined.

(** ** Stripping *)

Lemma app_nil (s : string) : "" +:+ s = s.
Proof. reflexivity. Qed.

Lemma app_cons c (s t : string) : String c s +:+ t = String c (s +:+ t).
Proof. reflexivity. Qed.

Ltac unfold_strings :=
  rewrite ?app_cons, ?app_nil;
  cbn [OpenRouter.lstrip OpenRouter.rstrip OpenRouter.all_space].

Lemma lstrip_starts s :
  match OpenRouter.lstrip s with
  | EmptyString => True
  | String c _ => Tokens.isspace c = false
  end.
Proof.
  induction s as [|c s IH]; unfold_strings; [exact I|].
  destruct (Tokens.isspace c) eqn:Hc; [exact IH|exact Hc].
Qed.

Lemma lstrip_fixed s :
  match s with
  | EmptyString => True
  | String c _ => Tokens.isspace c = false
  end →
  OpenRouter.lstrip s = s.
Proof. destruct s as [|c s]; unfold_strings; [reflexivity|]. intros ->. reflexivity. Qed.

Lemma rstrip_starts s :
  match s with
  | EmptyString => True
  | String c _ => Tokens.isspace c = false
  end →
  match OpenRouter.rstrip s with
  | EmptyString => s = EmptyString
  | String c _ => Tokens.isspace c = false
  end.
Proof. destruct s as [|c s]; unfold_strings; [reflexivity|]. intros Hc. rewrite Hc. unfold_strings. exact Hc. Qed.

Lemma rstrip_idempotent s : OpenRouter.rstrip (OpenRouter.rstrip s) = OpenRouter.rstrip s.
Proof.
  induction s as [|c s IH]; unfold_strings; [reflexivity|].
  destruct (Tokens.isspace c && String.eqb (OpenRouter.rstrip s) "") eqn:Hc;
    [reflexivity|].
  unfold_strings. rewrite IH, Hc. reflexivity.
Qed.

Lemma lstrip_empty s : OpenRouter.lstrip s = "" ↔ OpenRouter.all_space s = true.
Proof.
  induction s as [|c s IH]; unfold_strings; [tauto|].
  destruct (Tokens.isspace c); unfold_strings; [exact IH|].
  split; discriminate.
Qed.

Lemma strip_empty s : OpenRouter.strip s = "" ↔ OpenRouter.all_space s = true.
Proof.
  rewrite <- lstrip_empty. unfold OpenRouter.strip. split.
  - intros H. pose proof (rstrip_starts _ (lstrip_starts s)) as Hs.
    rewrite H in Hs. exact Hs.
  - intros ->. reflexivity.
Qed.

Lemma strip_stripped s :
  OpenRouter.lstrip (OpenRouter.strip s) = OpenRouter.strip s ∧
  OpenRouter.rstrip (OpenRouter.strip s) = OpenRouter.strip s.
Proof.
  unfold OpenRouter.strip. split; [|apply rstrip_idempotent].
  apply lstrip_fixed.
  pose proof (rstrip_starts _ (lstrip_starts s)) as Hs.
  destruct (OpenRouter.rstrip (OpenRouter.lstrip s)); [exact I|exact Hs].
Qed.

Lemma text_response_once_returns S V prompt model temperature max_tokens top_p
    system_prompt sent text sent' :
  OpenRouter.text_response_once S V prompt model temperature max_tokens top_p
                                system_prompt sent = (OpenRouter.Return text, sent') →
  ∃ request result_text,
    sent' = request :: sent ∧
    V (length sent) request = OpenRouter.Choice (Some result_text) ∧
    result_text ≠ "" ∧
    text = OpenRouter.strip result_text.
Proof.
  unfold OpenRouter.text_response_once.
  destruct (OpenRouter.get_openrouter_client S) as [client|e]; [|discriminate].
  match goal with |- context [V (length sent) ?r] => set (request := r) end.
  destruct (V (length sent) request) as [msg| |[[|a r]|]] eqn:HV; cbn; try discriminate.
  intros [= <- <-]. exists request, (String a r).
  repeat split; [exact HV|discriminate].
Qed.

(** X21: the text that [openrouter_text_response] returns is the content
    of the completion that the vendor gave to the last request sent, with
    whitespace stripped at both ends: it neither starts nor ends with
    whitespace.  It is the empty string exactly when that content is
    whitespace only: such a content passes the test for missing content
    and is returned stripped to nothing. *)
Theorem text_response_is_stripped
    S V prompt model temperature max_tokens top_p system_prompt sent text :
  let out := OpenRouter.openrouter_text_response S V prompt model temperature max_tokens
                                                 top_p system_prompt sent in
  out.1 = OpenRouter.Return text →
  ∃ request earlier result_text,
    out.2 = request :: earlier ∧
    V (length earlier) request = OpenRouter.Choice (Some result_text) ∧
    result_text ≠ "" ∧
    text = OpenRouter.strip result_text ∧
    OpenRouter.lstrip text = text ∧
    OpenRouter.rstrip text = text ∧
    (text = "" ↔ OpenRouter.all_space result_text = true).
Proof.
  cbv zeta. unfold OpenRouter.openrouter_text_response, OpenRouter.retry. cbn [Nat.sub].
  intros Hout.
  pose proof (retry_from_outcome
                (OpenRouter.text_response_once S V prompt model temperature max_tokens
                                               top_p system_prompt) 5 sent) as H.
  rewrite Hout in H. destruct H as (s & Hs).
  destruct (text_response_once_returns _ _ _ _ _ _ _ _ _ _ _ Hs)
    as (request & result_text & Hsent & HV & Hne & ->).
  exists request, s, result_text. split; [exact Hsent|]. split; [exact HV|].
  split; [exact Hne|]. split; [reflexivity|].
  destruct (strip_stripped result_text) as [Hl Hr].
  split; [exact Hl|]. split; [exact Hr|]. apply strip_empty.
Qed.

Lemma text_response_is_stripped_witness :
  let V : OpenRouter.Vendor :=
    fun _ _ => OpenRouter.Choice (Some (String OpenRouter.newline " ")) in
  let out := OpenRouter.openrouter_text_response
               (example_settings (Some "sk-or-1") None) V
               "Say hello" "openai/gpt-4-turbo" (7 # 10) 2048 1 None [] in
  ∃ request earlier result_text,
    out.2 = request :: earlier ∧
    V (length earlier) request = OpenRouter.Choice (Some result_text) ∧
    result_text ≠ "" ∧
    "" = OpenRouter.strip result_text ∧
    OpenRouter.lstrip "" = "" ∧
    OpenRouter.rstrip "" = "" ∧
    ("" = "" ↔ OpenRouter.all_space result_text = true).
Proof.
  apply (text_response_is_stripped
           (example_settings (Some "sk-or-1") None)
           (fun _ _ => OpenRouter.Choice (Some (String OpenRouter.newline " ")))
           "Say hello" "openai/gpt-4-turbo" (7 # 10) 2048 1 None [] "").
  reflexivity.
Defined.

(** ** Code fences around a JSON answer *)

Lemma lstrip_app_space pad s :
  OpenRouter.all_space pad = true → OpenRouter.lstrip (pad +:+ s) = OpenRouter.lstrip s.
Proof.
  induction pad as [|c pad IH]; unfold_strings; [reflexivity|].
  intros H. apply andb_prop in H as [Hc Hpad]. rewrite Hc. apply IH, Hpad.
Qed.

Lemma rstrip_space pad : OpenRouter.all_space pad = true → OpenRouter.rstrip pad = "".
Proof.
  induction pad as [|c pad IH]; unfold_strings; [reflexivity|].
  intros H. apply andb_prop in H as [Hc Hpad]. rewrite Hc, (IH Hpad). reflexivity.
Qed.

Lemma rstrip_app_space s pad :
  OpenRouter.all_space pad = true → OpenRouter.rstrip (s +:+ pad) = OpenRouter.rstrip s.
Proof.
  intros Hpad. induction s as [|c s IH]; unfold_strings; [apply rstrip_space, Hpad|].
  rewrite IH. reflexivity.
Qed.

Lemma app_fence_nonempty body :
  String.eqb (body +:+ String OpenRouter.newline "```") "" = false.
Proof. destruct body; reflexivity. Qed.

Lemma rstrip_closed body :
  OpenRouter.rstrip (body +:+ String OpenRouter.newline "```")
  = body +:+ String OpenRouter.newline "```".
Proof.
  induction body as [|c body IH]; [reflexivity|].
  unfold_strings. rewrite IH, app_fence_nonempty, andb_false_r. reflexivity.
Qed.

Lemma all_space_closed body :
  OpenRouter.all_space (body +:+ String OpenRouter.newline "```") = false.
Proof.
  induction body as [|c body IH]; [reflexivity|].
  unfold_strings. rewrite IH. apply andb_false_r.
Qed.

Lemma closing_fence_not_inside c body :
  OpenRouter.closing_fence_here (String c (body +:+ String OpenRouter.newline "```"))
  = false.
Proof.
  destruct body as [|b0 [|b1 [|b2 body]]];
    rewrite ?app_cons, ?app_nil; cbn [OpenRouter.closing_fence_here].
  - destruct (Ascii.eqb c OpenRouter.newline); reflexivity.
  - destruct (Ascii.eqb c OpenRouter.newline), (Ascii.eqb b0 "`"); reflexivity.
  - destruct (Ascii.eqb c OpenRouter.newline), (Ascii.eqb b0 "`"), (Ascii.eqb b1 "`");
      reflexivity.
  - rewrite all_space_closed. apply andb_false_r.
Qed.

Lemma strip_closing_fence_closed body :
  OpenRouter.strip_closing_fence (body +:+ String OpenRouter.newline "```") = body.
Proof.
  induction body as [|c body IH]; [reflexivity|].
  rewrite app_cons.
  cbn [OpenRouter.strip_closing_fence].
  rewrite closing_fence_not_inside, IH. reflexivity.
Qed.

Lemma substring_all s : String.substring 0 (String.length s) s = s.
Proof. induction s as [|c s IH]; cbn; [reflexivity|]. rewrite IH. reflexivity. Qed.

Lemma after_blank_line_text body :
  OpenRouter.starts_with_text body →
  OpenRouter.after_blank_line
    (String OpenRouter.newline (body +:+ String OpenRouter.newline "```"))
  = Some (body +:+ String OpenRouter.newline "```").
Proof.
  destruct body as [|c body]; [intros []|]. rewrite app_cons.
  cbn [OpenRouter.starts_with_text OpenRouter.after_blank_line]. intros ->.
  reflexivity.
Qed.

Lemma strip_opening_fence_fenced tagged body :
  OpenRouter.starts_with_text body →
  OpenRouter.strip_opening_fence (OpenRouter.fenced tagged body)
  = body +:+ String OpenRouter.newline "```".
Proof.
  intros Hbody. unfold OpenRouter.strip_opening_fence, OpenRouter.fenced.
  destruct tagged; rewrite ?app_cons, ?app_nil;
    cbn [String.length Nat.sub String.substring].
  - rewrite substring_all.
    cbn [String.prefix String.length Nat.sub String.substring].
    destruct (ascii_dec "j" "j"); [|done]. destruct (ascii_dec "s" "s"); [|done].
    destruct (ascii_dec "o" "o"); [|done]. destruct (ascii_dec "n" "n"); [|done].
    cbn [String.length Nat.sub String.substring].
    rewrite substring_all. rewrite (after_blank_line_text body Hbody). reflexivity.
  - rewrite substring_all.
    cbn [String.prefix].
    destruct (ascii_dec "j" OpenRouter.newline) as [Hj|_]; [discriminate Hj|].
    rewrite (after_blank_line_text body Hbody). reflexivity.
Qed.

Lemma strip_fenced pad tagged body pad' :
  OpenRouter.all_space pad = true → OpenRouter.all_space pad' = true →
  OpenRouter.strip (pad +:+ OpenRouter.fenced tagged body +:+ pad')
  = OpenRouter.fenced tagged body.
Proof.
  intros Hpad Hpad'. unfold OpenRouter.strip.
  rewrite lstrip_app_space by exact Hpad.
  rewrite lstrip_fixed by (unfold OpenRouter.fenced; destruct tagged; reflexivity).
  rewrite rstrip_app_space by exact Hpad'.
  unfold OpenRouter.fenced. destruct tagged; rewrite ?app_cons, ?app_nil;
    cbn [OpenRouter.rstrip]; rewrite rstrip_closed, app_fence_nonempty; reflexivity.
Qed.

(** X22: an answer wrapped in a code fence, with or without the [json]
    tag and with any whitespace around it, is cleaned to its body before
    it is parsed - for every body that starts with a character that is not
    whitespace, whatever else it holds. *)
Theorem fenced_json_is_unwrapped pad tagged body pad' :
  OpenRouter.all_space pad = true →
  OpenRouter.all_space pad' = true →
  OpenRouter.starts_with_text body →
  OpenRouter.clean_json_text (pad +:+ OpenRouter.fenced tagged body +:+ pad') = body.
Proof.
  intros Hpad Hpad' Hbody. unfold OpenRouter.clean_json_text.
  rewrite strip_fenced by assumption.
  assert (Hprefix : String.prefix "```" (OpenRouter.fenced tagged body) = true).
  { unfold OpenRouter.fenced. destruct tagged; reflexivity. }
  rewrite Hprefix. rewrite strip_opening_fence_fenced by exact Hbody.
  apply strip_closing_fence_closed.
Qed.

Lemma fenced_json_is_unwrapped_witness :
  OpenRouter.clean_json_text
    (" " +:+ OpenRouter.fenced true "{}" +:+ String OpenRouter.newline "")
  = "{}".
Proof.
  apply (fenced_json_is_unwrapped " " true "{}" (String OpenRouter.newline "")).
  - reflexivity.
  - reflexivity.
  - reflexivity.
Defined.


(** ** The model listing *)

(** X23: [get_model_info] and [list_available_models] agree: the
    information is empty exactly for a model that is not among the
    available ones - which are none when the key is missing or the listing
    raises -, and the information found carries the identifier asked
    for. *)
Theorem model_info_agrees_with_the_listing S listing model :
  match OpenRouter.get_model_info S listing model with
  | Some info =>
      model ∈ OpenRouter.list_available_models S listing ∧
      OpenRouter.info_id info = model
  | None => model ∉ OpenRouter.list_available_models S listing
  end.
Proof.
  unfold OpenRouter.get_model_info, OpenRouter.list_available_models.
  destruct (OpenRouter.get_openrouter_client S) as [client|e]; [|apply not_elem_of_nil].
  destruct listing as [data|e]; [|apply not_elem_of_nil].
  destruct (List.find _ data) as [m|] eqn:Hfind.
  - apply List.find_some in Hfind as [Hin Hid]. apply String.eqb_eq in Hid.
    cbn [OpenRouter.info_id]. split; [|exact Hid].
    apply list_elem_of_In, in_map_iff. exists m. auto.
  - intros Hin. apply list_elem_of_In, in_map_iff in Hin as (m & Hid & Hin).
    pose proof (List.find_none _ _ Hfind m Hin) as Hno. cbn beta in Hno.
    rewrite Hid, String.eqb_refl in Hno. discriminate Hno.
Qed.
